(** * Cafe Planner: board rules, drag-and-drop, import/export

    A shallow embedding of the state-handling code of the planner
    (src/App.tsx, src/utils/export.ts, src/types.ts and the task card)
    together with the properties of the specification that concern it.

    Conventions of the embedding.
    - A timestamp ([Date.now()], [completedAt], [createdAt]) is an integer
      number of milliseconds since the epoch, a [Z].
    - An optional field ([completedAt?: number]) is an [option]; the
      JavaScript truthiness test the code applies to it is [js_truthy_num].
    - Every handler that reads the clock takes the value read as an argument,
      one argument per call of [Date.now()] in the source.
    - The host time zone is a fixed offset, given as the value
      [getTimezoneOffset()] returns (minutes west of UTC, -480 for UTC+8).
    - React state is passed explicitly: a handler maps the old list to the
      new one. *)

From Stdlib Require Import ZArith String Ascii Bool Lia.
From Stdlib Require Import QArith DecimalString DecimalZ.
From Stdlib Require Import List Permutation Sorted.
Import ListNotations.

Local Open Scope string_scope.
Local Open Scope list_scope.
Local Open Scope Z_scope.

(* ================================================================== *)
(** * Part I. The model                                                *)
(* ================================================================== *)

(** ** src/types.ts *)

Inductive TimeBlock : Type := morning | afternoon | evening.
Inductive TaskStatus : Type := active | completed.
Inductive ColorTheme : Type :=
  sky | violet | orange | rose | emerald | amber | slate.

Record Category : Type := mkCategory {
  cat_id : string;
  cat_label : string;
  cat_icon : string;
  cat_theme : ColorTheme
}.

(** [createdAt] is written by [handleAddTask] and read by the migration
    code of App.tsx, so it is part of the record. *)
Record Task : Type := mkTask {
  task_id : string;
  task_title : string;
  task_categoryId : string;
  task_timeBlock : TimeBlock;
  task_status : TaskStatus;
  task_completedAt : option Z;
  task_createdAt : option Z
}.

Record Note : Type := mkNote {
  note_id : string;
  note_content : string;
  note_createdAt : Z;
  note_theme : ColorTheme
}.

Definition TimeBlock_eqb (a b : TimeBlock) : bool :=
  match a, b with
  | morning, morning | afternoon, afternoon | evening, evening => true
  | _, _ => false
  end.

Definition TaskStatus_eqb (a b : TaskStatus) : bool :=
  match a, b with
  | active, active | completed, completed => true
  | _, _ => false
  end.

Definition THEME_STYLES (th : ColorTheme) : string :=
  match th with
  | sky => "bg-sky-100 text-sky-700 border-sky-200"
  | violet => "bg-violet-100 text-violet-700 border-violet-200"
  | orange => "bg-orange-100 text-orange-700 border-orange-200"
  | rose => "bg-rose-100 text-rose-700 border-rose-200"
  | emerald => "bg-emerald-100 text-emerald-700 border-emerald-200"
  | amber => "bg-amber-100 text-amber-700 border-amber-200"
  | slate => "bg-slate-100 text-slate-600 border-slate-200"
  end.

(** ** JavaScript helpers *)

(** [!x] is false exactly for a number that is present and not zero. *)
Definition js_truthy_num (x : option Z) : bool :=
  match x with
  | Some n => negb (n =? 0)
  | None => false
  end.

(** [Array.prototype.findIndex]: the first index whose element satisfies
    the predicate, -1 when there is none. *)
Fixpoint findIndex {A : Type} (p : A -> bool) (l : list A) : Z :=
  match l with
  | [] => -1
  | x :: r =>
      if p x then 0
      else let i := findIndex p r in if i <? 0 then -1 else i + 1
  end.

(** ** Board visibility (App.tsx, getBeijingTodayStart .. calculateProgress) *)

Definition MS_PER_DAY : Z := 24 * 60 * 60 * 1000.

(** [d.setHours(0, 0, 0, 0); d.getTime()] on a host whose offset is
    [tzOffset] minutes west of UTC: the wall clock of the instant is
    truncated to its day and converted back to an instant. *)
Definition setHours0 (tzOffset t : Z) : Z :=
  let wall := t - tzOffset * 60 * 1000 in
  (wall - wall mod MS_PER_DAY) + tzOffset * 60 * 1000.

Definition getBeijingTodayStart (now userOffsetMinutes : Z) : Z :=
  let beijingOffsetMinutes := -8 * 60 in
  let diffMinutes := beijingOffsetMinutes - userOffsetMinutes in
  let beijingTime := now + diffMinutes * 60 * 1000 in
  setHours0 userOffsetMinutes beijingTime.

Definition shouldHideTask (now tz : Z) (task : Task) : bool :=
  if negb (TaskStatus_eqb (task_status task) completed) then false
  else if negb (js_truthy_num (task_completedAt task)) then false
  else
    let beijingTodayStart := getBeijingTodayStart now tz in
    match task_completedAt task with
    | Some c => c <? beijingTodayStart
    | None => false
    end.

Definition getTasksByBlock (now tz : Z) (tasks : list Task) (block : TimeBlock)
  : list Task :=
  filter (fun task => TimeBlock_eqb (task_timeBlock task) block
                      && negb (shouldHideTask now tz task)) tasks.

Definition getCategory (categories : list Category) (id : string)
  : option Category :=
  find (fun c => String.eqb (cat_id c) id) categories.

Definition visibleTasks (now tz : Z) (tasks : list Task) : list Task :=
  filter (fun task => negb (shouldHideTask now tz task)) tasks.

Definition completedCount (l : list Task) : nat :=
  length (filter (fun t => TaskStatus_eqb (task_status t) completed) l).

(** The arithmetic of the source is floating point: [fl] is its rounding,
    applied to the quotient and to the product. *)
Definition calculateProgress (fl : Q -> Q) (now tz : Z) (tasks : list Task)
  : Q :=
  let visible := visibleTasks now tz tasks in
  match length visible with
  | O => 0%Q
  | S _ =>
      let completed := completedCount visible in
      fl (fl (inject_Z (Z.of_nat completed)
              / inject_Z (Z.of_nat (length visible))) * 100)%Q
  end.

(** The start of the current day of the fixed UTC+8 offset, as the
    specification words it: the instant at which the UTC+8 wall clock of
    [now] last showed 00:00:00.000. *)
Definition utc8_day_start (now : Z) : Z :=
  let wall := now + 8 * 60 * 60 * 1000 in
  (wall - wall mod MS_PER_DAY) - 8 * 60 * 60 * 1000.

(** ** Status toggle (App.tsx, handleToggleStatus) *)

Definition toggleTask (now : Z) (t : Task) : Task :=
  let newStatus :=
    if TaskStatus_eqb (task_status t) active then completed else active in
  {| task_id := task_id t;
     task_title := task_title t;
     task_categoryId := task_categoryId t;
     task_timeBlock := task_timeBlock t;
     task_status := newStatus;
     task_completedAt :=
       if TaskStatus_eqb newStatus completed then Some now else None;
     task_createdAt := task_createdAt t |}.

Definition handleToggleStatus (now : Z) (id : string) (prev : list Task)
  : list Task :=
  map (fun t => if String.eqb (task_id t) id then toggleTask now t else t) prev.

(** ** Application state and its handlers (App.tsx)

    The three [useState] lists. A handler that updates a list first and
    writes to the object store afterwards ([DB.tasks.put] and the like, not
    awaited) does not depend on the store, and those writes are left out.
    [initData] and [handleImportData] await the store inside a [try]: a
    call of the store that rejects ends them at that point. *)

Record AppState : Type := mkState {
  categories : list Category;
  tasks : list Task;
  quickNotes : list Note
}.

Definition setCategories (f : list Category -> list Category) (s : AppState)
  : AppState :=
  {| categories := f (categories s); tasks := tasks s;
     quickNotes := quickNotes s |}.

Definition setTasks (f : list Task -> list Task) (s : AppState) : AppState :=
  {| categories := categories s; tasks := f (tasks s);
     quickNotes := quickNotes s |}.

Definition setQuickNotes (f : list Note -> list Note) (s : AppState)
  : AppState :=
  {| categories := categories s; tasks := tasks s;
     quickNotes := f (quickNotes s) |}.

(** The state before [initData] has run: three empty lists. *)
Definition emptyState : AppState := mkState [] [] [].

Definition DEFAULT_CATEGORIES : list Category :=
  [ mkCategory "cat1" "默认分区1" "📚" amber;
    mkCategory "cat2" "默认分区2" "🥐" rose ].

Definition INITIAL_TASKS : list Task := [].

Definition THEMES : list ColorTheme :=
  [amber; rose; sky; emerald; violet; orange].

(** The awaited calls of the object store (the [DB] wrapper over
    IndexedDB). Each one resolves or rejects; [initData] reads the notes
    twice, the first time to tell a first run. A [resolves] function says
    which calls resolve; when a call is repeated (a delete for each item,
    a put for each item), it says whether all of them do. *)
Inductive StoreCall : Type :=
| categories_getAll | categories_seed | categories_delete
| tasks_getAll | tasks_seed | tasks_put | tasks_delete
| notes_getAll_firstRun | notes_getAll | notes_put | notes_delete.

(** The store that answers every call. *)
Definition store_ok : StoreCall -> bool := fun _ => true.

(** [n.toString()] for an integer [n]: its decimal digits, with a leading
    minus sign when negative (the exponent form of magnitudes from 1e21 on
    is out of the range of a clock). *)
Definition Z_toString (n : Z) : string :=
  NilEmpty.string_of_int (Z.to_int n).

(** [arr.sort((a, b) => b.createdAt - a.createdAt)]: the stable sort of
    the notes, newest first. An element is inserted in front of the first
    one that is not newer than it, so equal timestamps keep their order. *)
Fixpoint insertNote (x : Note) (l : list Note) : list Note :=
  match l with
  | [] => [x]
  | y :: r =>
      if note_createdAt y - note_createdAt x <=? 0
      then x :: y :: r
      else y :: insertNote x r
  end.

Definition sortNotes (l : list Note) : list Note :=
  fold_right insertNote [] l.

(** [task.createdAt || Date.now()] *)
Definition createdAt_or (now : Z) (t : Task) : option Z :=
  if js_truthy_num (task_createdAt t) then task_createdAt t else Some now.

Definition withCreatedAt (now : Z) (t : Task) : Task :=
  {| task_id := task_id t;
     task_title := task_title t;
     task_categoryId := task_categoryId t;
     task_timeBlock := task_timeBlock t;
     task_status := task_status t;
     task_completedAt := task_completedAt t;
     task_createdAt := createdAt_or now t |}.

(** [migrateTaskData]: a task without createdAt takes its completedAt, or
    the clock when that is falsy too. *)
Definition migrateTaskData (now : Z) (ts : list Task) : list Task :=
  map (fun task =>
         if negb (js_truthy_num (task_createdAt task))
         then {| task_id := task_id task;
                 task_title := task_title task;
                 task_categoryId := task_categoryId task;
                 task_timeBlock := task_timeBlock task;
                 task_status := task_status task;
                 task_completedAt := task_completedAt task;
                 task_createdAt :=
                   if js_truthy_num (task_completedAt task)
                   then task_completedAt task else Some now |}
         else task) ts.

(** [hasMigrated]: some task lacks a createdAt, so [migrateTaskData]
    writes the tasks back with [DB.tasks.put] before it returns. *)
Definition hasMigrated (ts : list Task) : bool :=
  existsb (fun task => negb (js_truthy_num (task_createdAt task))) ts.

(** [initData], given what the three stores hold, which calls of the store
    resolve, and the state it runs in. The body is one [try]: the first
    call that rejects ends it, the lists set before that call keep their
    new value and the others stay as they were. [loaded] is [None] when a
    call rejects while the tasks are loaded. *)
Definition initData (now : Z) (resolves : StoreCall -> bool)
           (storedCats : list Category) (storedTasks : list Task)
           (storedNotes : list Note) (s : AppState) : AppState :=
  if negb (resolves categories_getAll) then s
  else if (length storedCats =? 0)%nat && negb (resolves categories_seed)
  then s
  else
    let dbCats :=
      if (length storedCats =? 0)%nat then DEFAULT_CATEGORIES
      else storedCats in
    let s1 := setCategories (fun _ => dbCats) s in
    if negb (resolves tasks_getAll) then s1
    else
      let loaded : option (list Task) :=
        if (length storedTasks =? 0)%nat then
          if negb (resolves notes_getAll_firstRun) then None
          else
            let hasNotes := (0 <? length storedNotes)%nat in
            if negb hasNotes
               && (length dbCats =? length DEFAULT_CATEGORIES)%nat
            then if resolves tasks_seed then Some INITIAL_TASKS else None
            else Some storedTasks
        else if hasMigrated storedTasks && negb (resolves tasks_put)
        then None
        else Some (migrateTaskData now storedTasks) in
      match loaded with
      | None => s1
      | Some dbTasks =>
          let s2 := setTasks (fun _ => dbTasks) s1 in
          if negb (resolves notes_getAll) then s2
          else setQuickNotes (fun _ => sortNotes storedNotes) s2
      end.

(** The state of a first run, when the stores are empty and answer: the
    default categories are seeded. *)
Definition seededState : AppState :=
  initData 0 store_ok [] [] [] emptyState.

Definition handleAddTask (nowId nowCreated : Z) (title categoryId : string)
           (timeBlock : TimeBlock) : AppState -> AppState :=
  let newTask :=
    {| task_id := Z_toString nowId;
       task_title := title;
       task_categoryId := categoryId;
       task_timeBlock := timeBlock;
       task_status := active;
       task_completedAt := None;
       task_createdAt := Some nowCreated |} in
  setTasks (fun prev => prev ++ [newTask]).

Definition handleUpdateTask (now : Z) (id title categoryId : string)
           (timeBlock : TimeBlock) : AppState -> AppState :=
  setTasks (map (fun t =>
    if String.eqb (task_id t) id
    then {| task_id := task_id t;
            task_title := title;
            task_categoryId := categoryId;
            task_timeBlock := timeBlock;
            task_status := task_status t;
            task_completedAt := task_completedAt t;
            task_createdAt := createdAt_or now t |}
    else t)).

Definition handleDeleteTask (id : string) : AppState -> AppState :=
  setTasks (filter (fun t => negb (String.eqb (task_id t) id))).

Definition handleAddCategory (now : Z) (label : string) (theme : ColorTheme)
           (icon : string) : AppState -> AppState :=
  let newCat :=
    {| cat_id := Z_toString now; cat_label := label; cat_icon := icon;
       cat_theme := theme |} in
  setCategories (fun prev => prev ++ [newCat]).

Definition handleUpdateCategory (id label : string) (theme : ColorTheme)
           (icon : string) : AppState -> AppState :=
  setCategories (map (fun c =>
    if String.eqb (cat_id c) id
    then {| cat_id := cat_id c; cat_label := label; cat_icon := icon;
            cat_theme := theme |}
    else c)).

Definition handleDeleteCategory (id : string) : AppState -> AppState :=
  setCategories (filter (fun c => negb (String.eqb (cat_id c) id))).

(** [random] is the index [Math.floor(Math.random() * THEMES.length)]. *)
Definition handleAddNote (nowId nowCreated : Z) (content : string)
           (random : nat) : AppState -> AppState :=
  let newNote :=
    {| note_id := Z_toString nowId;
       note_content := content;
       note_createdAt := nowCreated;
       note_theme := nth random THEMES amber |} in
  setQuickNotes (fun prev => newNote :: prev).

Definition handleDeleteNote (id : string) : AppState -> AppState :=
  setQuickNotes (filter (fun n => negb (String.eqb (note_id n) id))).

(** Whether a call that [handleImportData] makes rejects: it deletes
    every item of the three lists of the state, one call each, then writes
    each new list that is not empty. *)
Definition import_rejected (resolves : StoreCall -> bool) (s : AppState)
           (newCategories : list Category) (tasksWithTimestamp : list Task)
           (newNotes : list Note) : bool :=
  ((0 <? length (tasks s))%nat && negb (resolves tasks_delete))
  || ((0 <? length (categories s))%nat && negb (resolves categories_delete))
  || ((0 <? length (quickNotes s))%nat && negb (resolves notes_delete))
  || ((0 <? length newCategories)%nat && negb (resolves categories_seed))
  || ((0 <? length tasksWithTimestamp)%nat && negb (resolves tasks_seed))
  || ((0 <? length newNotes)%nat && negb (resolves notes_put)).

(** [handleImportData]: the three lists are set after the last call of the
    store; when a call rejects, the [catch] reports it and the lists stay
    as they were. *)
Definition handleImportData (now : Z) (resolves : StoreCall -> bool)
           (newCategories : list Category) (newTasks : list Task)
           (newNotes : list Note) : AppState -> AppState :=
  fun s =>
    let tasksWithTimestamp := map (withCreatedAt now) newTasks in
    if import_rejected resolves s newCategories tasksWithTimestamp newNotes
    then s
    else
      {| categories := newCategories;
         tasks := tasksWithTimestamp;
         quickNotes := sortNotes newNotes |}.

(** ** The task card (TaskCard, the part that picks the presentation) *)

Record CardLook : Type := mkLook {
  themeClass : string;
  categoryLabel : string;
  categoryIcon : string;
  isSpecial : bool
}.

Definition TaskCard_look (category : option Category) : CardLook :=
  match category with
  | Some c =>
      {| themeClass := THEME_STYLES (cat_theme c);
         categoryLabel := cat_label c;
         categoryIcon := cat_icon c;
         isSpecial := false |}
  | None =>
      {| themeClass := THEME_STYLES slate;
         categoryLabel := "特殊订单";
         categoryIcon := "✨";
         isSpecial := true |}
  end.

(** The presentation of a task on the board: the column (and the drag
    overlay) passes [getCategory(task.categoryId)] to the card. *)
Definition renderTask (s : AppState) (t : Task) : CardLook :=
  TaskCard_look (getCategory (categories s) (task_categoryId t)).

(** Newest first: every note is at least as recent as all that follow. *)
Definition newest_first (l : list Note) : Prop :=
  StronglySorted (fun a b => note_createdAt b <= note_createdAt a) l.

(** ** Drag and drop (App.tsx, handleDragOver and handleDragEnd) *)

(** What the handlers read of a drag event: [active.id], and of [over],
    when there is one, [over.id] and
    [over.data.current?.sortable?.containerId]. *)
Record Over : Type := mkOver {
  over_id : string;
  over_containerId : option string
}.

Record DragEvent : Type := mkDrag {
  active_id : string;
  over : option Over
}.

Definition TimeBlock_name (b : TimeBlock) : string :=
  match b with
  | morning => "morning"
  | afternoon => "afternoon"
  | evening => "evening"
  end.

(** [['morning', 'afternoon', 'evening'].includes(s)], with the lane. *)
Definition TimeBlock_of_name (s : string) : option TimeBlock :=
  if String.eqb s "morning" then Some morning
  else if String.eqb s "afternoon" then Some afternoon
  else if String.eqb s "evening" then Some evening
  else None.

(** [{ ...t, timeBlock: b }] *)
Definition withTimeBlock (b : TimeBlock) (t : Task) : Task :=
  {| task_id := task_id t;
     task_title := task_title t;
     task_categoryId := task_categoryId t;
     task_timeBlock := b;
     task_status := task_status t;
     task_completedAt := task_completedAt t;
     task_createdAt := task_createdAt t |}.

Definition moveToBlock (activeId : string) (b : TimeBlock) (prev : list Task)
  : list Task :=
  map (fun t => if String.eqb (task_id t) activeId then withTimeBlock b t
                else t) prev.

Definition findTask (id : string) (l : list Task) : option Task :=
  find (fun t => String.eqb (task_id t) id) l.

Definition is_active_container (c : option string) : bool :=
  match c with
  | Some s => String.eqb s "active"
  | None => false
  end.

Definition handleDragOver (event : DragEvent) (ts : list Task) : list Task :=
  match over event with
  | None => ts
  | Some o =>
      let activeId := active_id event in
      let overId := over_id o in
      let activeTask := findTask activeId ts in
      let overTask := findTask overId ts in
      match activeTask with
      | None => ts
      | Some a =>
          match negb (is_active_container (over_containerId o)),
                TimeBlock_of_name overId with
          | true, Some b =>
              if negb (TimeBlock_eqb (task_timeBlock a) b)
              then moveToBlock activeId b ts
              else ts
          | _, _ =>
              match overTask with
              | Some ot =>
                  if negb (TimeBlock_eqb (task_timeBlock a)
                             (task_timeBlock ot))
                  then moveToBlock activeId (task_timeBlock ot) ts
                  else ts
              | None => ts
              end
          end
      end
  end.

(** The index a [splice] starts at, for an array of length [len]: a
    negative index counts from the end, and the result is clamped to
    [0, len]. *)
Definition splice_start (len i : Z) : nat :=
  Z.to_nat (if i <? 0 then Z.max (len + i) 0 else Z.min i len).

(** Modelled from the spec: [arrayMove] of the drag-and-drop library is not
    in src/; it is the standard array move, on a copy [newArray]:
    [newArray.splice(to < 0 ? newArray.length + to : to, 0,
                     newArray.splice(from, 1)[0])].
    The target index is computed before the removal. When [from] is past
    the end nothing is removed and the library inserts [undefined]; the
    list is returned as it is in that case, which [handleDragEnd] never
    reaches (see [handleDragEnd_indices]). *)
Definition arrayMove {A : Type} (array : list A) (from to : Z) : list A :=
  let len := Z.of_nat (length array) in
  let target := if to <? 0 then len + to else to in
  let s := splice_start len from in
  match nth_error array s with
  | Some x =>
      let rest := firstn s array ++ skipn (S s) array in
      let p := splice_start (Z.of_nat (length rest)) target in
      firstn p rest ++ x :: skipn p rest
  | None => array
  end.

Definition inBlock (b : TimeBlock) (t : Task) : bool :=
  TimeBlock_eqb (task_timeBlock t) b.

Definition hasId (id : string) (t : Task) : bool :=
  String.eqb (task_id t) id.

(** The list the indices are computed on (the [tasks] of the render) and
    the list the state updater receives are the same list [ts]. *)
Definition handleDragEnd (now tz : Z) (event : DragEvent) (ts : list Task)
  : list Task :=
  match over event with
  | None => ts
  | Some o =>
      let activeIdVal := active_id event in
      let overId := over_id o in
      match findTask activeIdVal ts, findTask overId ts with
      | Some activeTask, Some overTask =>
          if TimeBlock_eqb (task_timeBlock activeTask)
               (task_timeBlock overTask)
          then
            let blockTasks :=
              getTasksByBlock now tz ts (task_timeBlock activeTask) in
            let oldIndex := findIndex (hasId activeIdVal) blockTasks in
            let newIndex := findIndex (hasId overId) blockTasks in
            if negb (oldIndex =? newIndex) then
              let currentBlockItems :=
                filter (inBlock (task_timeBlock activeTask)) ts in
              let otherItems :=
                filter (fun t => negb (inBlock (task_timeBlock activeTask) t))
                       ts in
              let reorderedBlockItems :=
                arrayMove currentBlockItems oldIndex newIndex in
              otherItems ++ reorderedBlockItems
            else ts
          else ts
      | _, _ => ts
      end
  end.

(** ** Runs of the application *)

Inductive Action : Type :=
| Init (now : Z) (resolves : StoreCall -> bool)
       (storedCats : list Category) (storedTasks : list Task)
       (storedNotes : list Note)
| ToggleStatus (now : Z) (id : string)
| AddTask (nowId nowCreated : Z) (title categoryId : string)
          (timeBlock : TimeBlock)
| UpdateTask (now : Z) (id title categoryId : string) (timeBlock : TimeBlock)
| DeleteTask (id : string)
| AddCategory (now : Z) (label : string) (theme : ColorTheme) (icon : string)
| UpdateCategory (id label : string) (theme : ColorTheme) (icon : string)
| DeleteCategory (id : string)
| AddNote (nowId nowCreated : Z) (content : string) (random : nat)
| DeleteNote (id : string)
| ImportData (now : Z) (resolves : StoreCall -> bool)
             (newCategories : list Category)
             (newTasks : list Task) (newNotes : list Note)
| DragOver (event : DragEvent)
| DragEnd (now tz : Z) (event : DragEvent).

Definition step (a : Action) (s : AppState) : AppState :=
  match a with
  | Init now db cs ts ns => initData now db cs ts ns s
  | ToggleStatus now id => setTasks (handleToggleStatus now id) s
  | AddTask n1 n2 title c b => handleAddTask n1 n2 title c b s
  | UpdateTask now id title c b => handleUpdateTask now id title c b s
  | DeleteTask id => handleDeleteTask id s
  | AddCategory now l th ic => handleAddCategory now l th ic s
  | UpdateCategory id l th ic => handleUpdateCategory id l th ic s
  | DeleteCategory id => handleDeleteCategory id s
  | AddNote n1 n2 content r => handleAddNote n1 n2 content r s
  | DeleteNote id => handleDeleteNote id s
  | ImportData now db cs ts ns => handleImportData now db cs ts ns s
  | DragOver ev => setTasks (handleDragOver ev) s
  | DragEnd now tz ev => setTasks (handleDragEnd now tz ev) s
  end.

Definition run (acts : list Action) (s : AppState) : AppState :=
  fold_left (fun st a => step a st) acts s.

(** The create operations, and the clock value each one turns into an id. *)
Definition is_create (a : Action) : bool :=
  match a with
  | AddTask _ _ _ _ _ | AddCategory _ _ _ _ | AddNote _ _ _ _ => true
  | _ => false
  end.

Definition taskIdClocks (acts : list Action) : list Z :=
  flat_map (fun a => match a with AddTask n _ _ _ _ => [n] | _ => [] end) acts.

Definition categoryIdClocks (acts : list Action) : list Z :=
  flat_map (fun a => match a with AddCategory n _ _ _ => [n] | _ => [] end)
           acts.

Definition noteIdClocks (acts : list Action) : list Z :=
  flat_map (fun a => match a with AddNote n _ _ _ => [n] | _ => [] end) acts.

(** Ids are unique within each collection. *)
Definition ids_unique (s : AppState) : Prop :=
  NoDup (map cat_id (categories s))
  /\ NoDup (map task_id (tasks s))
  /\ NoDup (map note_id (quickNotes s)).

(** Along a run, every added note carries a createdAt that is at least the
    createdAt of every note in the list it is added to. *)
Fixpoint addNote_clock_ok (acts : list Action) (s : AppState) : Prop :=
  match acts with
  | [] => True
  | a :: r =>
      match a with
      | AddNote _ nowCreated _ _ =>
          Forall (fun n => note_createdAt n <= nowCreated) (quickNotes s)
      | _ => True
      end
      /\ addNote_clock_ok r (step a s)
  end.

(** ** Import validation (utils/export.ts, validateImportData)

    The payload has the declared shape of [ExportData], except for what a
    parsed file can hold in its place: each of the three collections may
    be absent or hold something that is not an array, which is what the
    function tests for, and an entry of an array may be null. *)

Inductive JsField (A : Type) : Type :=
| Missing                      (* the property is absent (undefined) *)
| NotArray (truthy : bool)     (* a value that is not an array: null, 0 and
                                  the empty string are falsy; an object, a
                                  non-empty string or another number is
                                  truthy *)
| IsArray (entries : list (option A)).
                               (* an array; each entry is a record of the
                                  declared type, or null ([None]) *)

Arguments Missing {A}.
Arguments NotArray {A} truthy.
Arguments IsArray {A} entries.

(** The array whose entries are the given records. *)
Definition arrayOf {A : Type} (items : list A) : JsField A :=
  IsArray (map Some items).

Record ExportData : Type := mkExportData {
  exp_version : string;
  exp_exportedAt : string;
  exp_categories : JsField Category;
  exp_tasks : JsField Task;
  exp_notes : JsField Note
}.

Definition field_truthy {A : Type} (f : JsField A) : bool :=
  match f with
  | Missing => false
  | NotArray b => b
  | IsArray _ => true
  end.

Definition Array_isArray {A : Type} (f : JsField A) : bool :=
  match f with
  | IsArray _ => true
  | _ => false
  end.

(** What a call produces: a returned value, or an exception. *)
Inductive Outcome (A : Type) : Type :=
| Returned (a : A)
| Threw (message : string).

Arguments Returned {A} a.
Arguments Threw {A} message.

Record Validation : Type := mkValidation {
  valid : bool;
  errors : list string
}.

Definition dquote : string := String "034"%char EmptyString.

(** [`Task ${index + 1} references non-existent category "${id}"`] *)
Definition taskError (index : nat) (categoryId : string) : string :=
  ("Task " ++ Z_toString (Z.of_nat index + 1)
   ++ " references non-existent category " ++ dquote ++ categoryId
   ++ dquote)%string.

(** [validCategoryIds.has(id)] for the set built from the list of ids. *)
Definition Set_has (ids : list string) (id : string) : bool :=
  existsb (String.eqb id) ids.

(** [data.categories.map(c => c.id)]: reading [id] of a null entry
    throws ([None]). *)
Fixpoint categoryIds (cs : list (option Category)) : option (list string) :=
  match cs with
  | [] => Some []
  | None :: _ => None
  | Some c :: r =>
      match categoryIds r with
      | Some ids => Some (cat_id c :: ids)
      | None => None
      end
  end.

(** The [forEach] over the tasks, from position [index] on: the entries it
    pushes, or [None] when it reaches a null entry, where reading
    [categoryId] throws. *)
Fixpoint taskErrors (validCategoryIds : list string) (index : nat)
         (ts : list (option Task)) : option (list string) :=
  match ts with
  | [] => Some []
  | None :: _ => None
  | Some task :: r =>
      match taskErrors validCategoryIds (S index) r with
      | Some pushed =>
          Some ((if negb (Set_has validCategoryIds (task_categoryId task))
                 then [taskError index (task_categoryId task)] else [])
                ++ pushed)
      | None => None
      end
  end.

Definition pushIf (c : bool) (e : string) (errs : list string) : list string :=
  if c then errs ++ [e] else errs.

Definition validateImportData (data : ExportData) : Outcome Validation :=
  let errors0 : list string := [] in
  let errors1 :=
    pushIf (negb (field_truthy (exp_categories data))
            || negb (Array_isArray (exp_categories data)))
           "Missing or invalid categories" errors0 in
  let errors2 :=
    pushIf (negb (field_truthy (exp_tasks data))
            || negb (Array_isArray (exp_tasks data)))
           "Missing or invalid tasks" errors1 in
  let errors3 :=
    pushIf (negb (field_truthy (exp_notes data))
            || negb (Array_isArray (exp_notes data)))
           "Missing or invalid notes" errors2 in
  if field_truthy (exp_tasks data) && field_truthy (exp_categories data) then
    match exp_categories data with
    | IsArray cs =>
        match categoryIds cs with
        | Some validCategoryIds =>
            match exp_tasks data with
            | IsArray ts =>
                match taskErrors validCategoryIds 0 ts with
                | Some pushed =>
                    let errors4 := errors3 ++ pushed in
                    Returned {| valid := (length errors4 =? 0)%nat;
                                errors := errors4 |}
                | None =>
                    Threw "TypeError: Cannot read properties of null (reading 'categoryId')"
                end
            | _ => Threw "TypeError: data.tasks.forEach is not a function"
            end
        | None =>
            Threw "TypeError: Cannot read properties of null (reading 'id')"
        end
    | _ => Threw "TypeError: data.categories.map is not a function"
    end
  else
    Returned {| valid := (length errors3 =? 0)%nat; errors := errors3 |}.

(** An array without a null entry. *)
Definition recordsOnly {A : Type} (f : JsField A) : bool :=
  match f with
  | IsArray entries =>
      forallb (fun e => match e with Some _ => true | None => false end)
              entries
  | _ => false
  end.

(** The payloads on which the second check throws: tasks and categories
    are both truthy, and one of them is not an array, where the method call
    throws, or holds a null entry, where reading a property of it throws. *)
Definition validation_throws (data : ExportData) : bool :=
  field_truthy (exp_tasks data) && field_truthy (exp_categories data)
  && negb (recordsOnly (exp_tasks data)
           && recordsOnly (exp_categories data)).

(** Some task refers to a category id that is not among the ids of the
    supplied categories. *)
Definition dangling_task (data : ExportData) : Prop :=
  exists cs ts t,
    exp_categories data = arrayOf cs /\ exp_tasks data = arrayOf ts
    /\ In t ts /\ ~ In (task_categoryId t) (map cat_id cs).

(** The entries for the tasks of a list of records that name a category
    id outside [ids], each with the position of its task counted from
    [index], in the order of the tasks. *)
Definition danglingErrors (ids : list string) (index : nat) (ts : list Task)
  : list string :=
  map (fun it => taskError (fst it) (task_categoryId (snd it)))
      (filter (fun it => negb (Set_has ids (task_categoryId (snd it))))
              (combine (seq index (length ts)) ts)).

(** One of the three collections is missing or is not an array. *)
Definition malformed (data : ExportData) : Prop :=
  Array_isArray (exp_categories data) = false
  \/ Array_isArray (exp_tasks data) = false
  \/ Array_isArray (exp_notes data) = false.

(** ** JSON values and the runtime's JSON codec

    [JSON.stringify] and [JSON.parse] are functions of the JavaScript
    runtime, not of the repository; [print_value] and [parse_value] below
    follow their definition in ECMA-262 on the values described here.

    A JavaScript value as [JSON.stringify] sees it: a tree of objects,
    arrays, strings, numbers, booleans and null. An object is the list of
    its own properties in the order they are written; a property whose
    value is [undefined] is not written and so is not in the list. Numbers
    are integers (every number of the planner is a clock value). A string
    is the sequence of the bytes of its UTF-8 form. *)

#[local] Set Warnings "-register-all".

Inductive json : Type :=
| JNull
| JBool (b : bool)
| JNum (n : Z)
| JStr (s : string)
| JArr (items : list json)
| JObj (members : list (string * json)).

(** Structural induction on a value, with the hypothesis on every item of
    an array and on every member of an object. *)
Section json_induction.
Variable P : json -> Prop.
Hypothesis HNull : P JNull.
Hypothesis HBool : forall b, P (JBool b).
Hypothesis HNum : forall n, P (JNum n).
Hypothesis HStr : forall s, P (JStr s).
Hypothesis HArr : forall items, Forall P items -> P (JArr items).
Hypothesis HObj :
  forall members, Forall (fun kv => P (snd kv)) members -> P (JObj members).

Fixpoint json_induction (v : json) : P v :=
  match v with
  | JNull => HNull
  | JBool b => HBool b
  | JNum n => HNum n
  | JStr s => HStr s
  | JArr items =>
      HArr items
        ((fix all (l : list json) : Forall P l :=
            match l with
            | [] => Forall_nil P
            | x :: r => Forall_cons x (json_induction x) (all r)
            end) items)
  | JObj members =>
      HObj members
        ((fix all (l : list (string * json))
          : Forall (fun kv => P (snd kv)) l :=
            match l with
            | [] => Forall_nil _
            | kv :: r =>
                Forall_cons kv (json_induction (snd kv)) (all r)
            end) members)
  end.
End json_induction.

(** The number of calls the parser nests to read a value back. *)
Fixpoint json_size (v : json) : nat :=
  match v with
  | JArr items => S (list_sum (map (fun x => S (json_size x)) items))
  | JObj members =>
      S (list_sum (map (fun kv => S (json_size (snd kv))) members))
  | _ => 1%nat
  end.

Definition DQ : ascii := "034"%char.
Definition BACKSLASH : ascii := "\"%char.
Definition LF : ascii := "010"%char.

Definition chars (s : string) : list ascii := list_ascii_of_string s.

Definition hex_digit (n : N) : ascii :=
  nth (N.to_nat n) (chars "0123456789abcdef") "0"%char.

(** The escapes of [JSON.stringify]: the quote, the backslash and the
    control characters; every other byte is written as it is. *)
Definition escape_char (c : ascii) : list ascii :=
  let n := N_of_ascii c in
  if Ascii.eqb c DQ then [BACKSLASH; DQ]
  else if Ascii.eqb c BACKSLASH then [BACKSLASH; BACKSLASH]
  else if (n =? 8)%N then [BACKSLASH; "b"%char]
  else if (n =? 9)%N then [BACKSLASH; "t"%char]
  else if (n =? 10)%N then [BACKSLASH; "n"%char]
  else if (n =? 12)%N then [BACKSLASH; "f"%char]
  else if (n =? 13)%N then [BACKSLASH; "r"%char]
  else if (n <? 32)%N then
    [BACKSLASH; "u"%char; "0"%char; "0"%char;
     hex_digit (n / 16); hex_digit (n mod 16)]
  else [c].

Fixpoint escape (s : string) : list ascii :=
  match s with
  | EmptyString => []
  | String c r => escape_char c ++ escape r
  end.

Definition quote (s : string) : list ascii := DQ :: escape s ++ [DQ].

Definition newline_indent (n : nat) : list ascii := LF :: repeat " "%char n.

(** The items of an array or object after the first, each after a comma
    on a line of its own at depth [indent]. *)
Fixpoint print_more (indent : nat) (items : list (list ascii)) : list ascii :=
  match items with
  | [] => []
  | y :: r => ","%char :: newline_indent indent ++ y ++ print_more indent r
  end.

Definition print_block (open close : ascii) (indent : nat)
           (items : list (list ascii)) : list ascii :=
  match items with
  | [] => [open; close]
  | x :: r =>
      open :: newline_indent (indent + 2) ++ x
           ++ print_more (indent + 2) r
           ++ newline_indent indent ++ [close]
  end.

Definition print_member (indent : nat) (k : string) (printed : list ascii)
  : list ascii :=
  quote k ++ ":"%char :: " "%char :: printed.

(** [JSON.stringify(v, null, 2)] at nesting depth [indent]. *)
Fixpoint print_value (indent : nat) (v : json) : list ascii :=
  match v with
  | JNull => chars "null"
  | JBool true => chars "true"
  | JBool false => chars "false"
  | JNum n => chars (Z_toString n)
  | JStr s => quote s
  | JArr items =>
      print_block "["%char "]"%char indent
                  (map (print_value (indent + 2)) items)
  | JObj members =>
      print_block "{"%char "}"%char indent
                  (map (fun kv =>
                          match kv with
                          | (k, x) =>
                              print_member indent k
                                           (print_value (indent + 2) x)
                          end) members)
  end.

Definition JSON_stringify (v : json) : string :=
  string_of_list_ascii (print_value 0 v).

(** The parser. *)

Definition is_ws (c : ascii) : bool :=
  let n := N_of_ascii c in
  ((n =? 32) || (n =? 9) || (n =? 10) || (n =? 13))%N.

Fixpoint skip_ws (s : list ascii) : list ascii :=
  match s with
  | c :: r => if is_ws c then skip_ws r else s
  | [] => []
  end.

Definition hex_value (c : ascii) : option N :=
  let n := N_of_ascii c in
  (if (48 <=? n) && (n <=? 57) then Some (n - 48)
   else if (97 <=? n) && (n <=? 102) then Some (n - 87)
   else if (65 <=? n) && (n <=? 70) then Some (n - 55)
   else None)%N.

Definition hex4 (a b c d : ascii) : option N :=
  match hex_value a, hex_value b, hex_value c, hex_value d with
  | Some x, Some y, Some z, Some w =>
      Some (((x * 16 + y) * 16 + z) * 16 + w)%N
  | _, _, _, _ => None
  end.

(** The UTF-8 form of a code unit outside the surrogate range; a
    surrogate escape is outside the model. *)
Definition utf8 (code : N) : option string :=
  (if code <? 128 then Some (String (ascii_of_N code) EmptyString)
   else if code <? 2048 then
     Some (String (ascii_of_N (192 + code / 64))
             (String (ascii_of_N (128 + code mod 64)) EmptyString))
   else if (55296 <=? code) && (code <=? 57343) then None
   else
     Some (String (ascii_of_N (224 + code / 4096))
             (String (ascii_of_N (128 + (code / 64) mod 64))
                (String (ascii_of_N (128 + code mod 64)) EmptyString))))%N.

Definition unescape (e : ascii) : option ascii :=
  if Ascii.eqb e DQ then Some DQ
  else if Ascii.eqb e BACKSLASH then Some BACKSLASH
  else if Ascii.eqb e "/"%char then Some "/"%char
  else if Ascii.eqb e "b"%char then Some "008"%char
  else if Ascii.eqb e "t"%char then Some "009"%char
  else if Ascii.eqb e "n"%char then Some "010"%char
  else if Ascii.eqb e "f"%char then Some "012"%char
  else if Ascii.eqb e "r"%char then Some "013"%char
  else None.

Definition prependTo (bytes : string) (p : option (string * list ascii))
  : option (string * list ascii) :=
  match p with
  | Some (t, rest) => Some ((bytes ++ t)%string, rest)
  | None => None
  end.

Definition consTo (c : ascii) (p : option (string * list ascii))
  : option (string * list ascii) :=
  prependTo (String c EmptyString) p.

(** The characters of a string literal after its opening quote, up to the
    closing quote. *)
Fixpoint parse_chars (s : list ascii) : option (string * list ascii) :=
  match s with
  | [] => None
  | c :: r =>
      if Ascii.eqb c DQ then Some (EmptyString, r)
      else if Ascii.eqb c BACKSLASH then
        match r with
        | [] => None
        | e :: r1 =>
            if Ascii.eqb e "u"%char then
              match r1 with
              | h1 :: h2 :: h3 :: h4 :: r2 =>
                  match hex4 h1 h2 h3 h4 with
                  | Some code =>
                      match utf8 code with
                      | Some bytes => prependTo bytes (parse_chars r2)
                      | None => None
                      end
                  | None => None
                  end
              | _ => None
              end
            else
              match unescape e with
              | Some c' => consTo c' (parse_chars r1)
              | None => None
              end
        end
      else if (N_of_ascii c <? 32)%N then None
      else consTo c (parse_chars r)
  end.

Definition is_num_char (c : ascii) : bool :=
  let n := N_of_ascii c in
  Ascii.eqb c "-"%char || ((48 <=? n)%N && (n <=? 57)%N).

Fixpoint span_num (s : list ascii) : list ascii * list ascii :=
  match s with
  | c :: r =>
      if is_num_char c
      then let (a, b) := span_num r in (c :: a, b)
      else ([], s)
  | [] => ([], [])
  end.

Definition starts_fraction (s : list ascii) : bool :=
  match s with
  | c :: _ => Ascii.eqb c "."%char || Ascii.eqb c "e"%char
              || Ascii.eqb c "E"%char
  | [] => false
  end.

(** An integer literal in the form JSON allows: no leading zero, no plus
    sign. A literal with a fraction or an exponent is outside the model. *)
Definition parse_number (s : list ascii) : option (Z * list ascii) :=
  let (ds, rest) := span_num s in
  if starts_fraction rest then None
  else
    match NilEmpty.int_of_string (string_of_list_ascii ds) with
    | Some d =>
        let n := Z.of_int d in
        if String.eqb (Z_toString n) (string_of_list_ascii ds)
           || String.eqb (string_of_list_ascii ds) "-0"
        then Some (n, rest) else None
    | None => None
    end.

Fixpoint expect (word s : list ascii) : option (list ascii) :=
  match word with
  | [] => Some s
  | w :: word' =>
      match s with
      | c :: r => if Ascii.eqb c w then expect word' r else None
      | [] => None
      end
  end.

Definition literal (word : string) (v : json) (s : list ascii)
  : option (json * list ascii) :=
  match expect (chars word) s with
  | Some rest => Some (v, rest)
  | None => None
  end.

Fixpoint parse_value (fuel : nat) (s : list ascii) {struct fuel}
  : option (json * list ascii) :=
  match fuel with
  | O => None
  | S f =>
      match s with
      | [] => None
      | c :: r =>
          if Ascii.eqb c "n"%char then literal "ull" JNull r
          else if Ascii.eqb c "t"%char then literal "rue" (JBool true) r
          else if Ascii.eqb c "f"%char then literal "alse" (JBool false) r
          else if Ascii.eqb c DQ then
            match parse_chars r with
            | Some (str, rest) => Some (JStr str, rest)
            | None => None
            end
          else if Ascii.eqb c "["%char then
            match skip_ws r with
            | [] => None
            | c' :: r' =>
                if Ascii.eqb c' "]"%char then Some (JArr [], r')
                else
                  match parse_elements f (c' :: r') with
                  | Some (items, rest) => Some (JArr items, rest)
                  | None => None
                  end
            end
          else if Ascii.eqb c "{"%char then
            match skip_ws r with
            | [] => None
            | c' :: r' =>
                if Ascii.eqb c' "}"%char then Some (JObj [], r')
                else
                  match parse_members f (c' :: r') with
                  | Some (members, rest) => Some (JObj members, rest)
                  | None => None
                  end
            end
          else
            match parse_number s with
            | Some (n, rest) => Some (JNum n, rest)
            | None => None
            end
      end
  end

with parse_elements (fuel : nat) (s : list ascii) {struct fuel}
  : option (list json * list ascii) :=
  match fuel with
  | O => None
  | S f =>
      match parse_value f s with
      | Some (v, rest) =>
          match skip_ws rest with
          | [] => None
          | c :: rest' =>
              if Ascii.eqb c ","%char then
                match parse_elements f (skip_ws rest') with
                | Some (vs, rest'') => Some (v :: vs, rest'')
                | None => None
                end
              else if Ascii.eqb c "]"%char then Some ([v], rest')
              else None
          end
      | None => None
      end
  end

with parse_members (fuel : nat) (s : list ascii) {struct fuel}
  : option (list (string * json) * list ascii) :=
  match fuel with
  | O => None
  | S f =>
      match s with
      | [] => None
      | q :: r =>
          if Ascii.eqb q DQ then
            match parse_chars r with
            | Some (k, rest) =>
                match skip_ws rest with
                | [] => None
                | colon :: rest1 =>
                    if Ascii.eqb colon ":"%char then
                      match parse_value f (skip_ws rest1) with
                      | Some (v, rest2) =>
                          match skip_ws rest2 with
                          | [] => None
                          | c :: rest3 =>
                              if Ascii.eqb c ","%char then
                                match parse_members f (skip_ws rest3) with
                                | Some (ms, rest4) => Some ((k, v) :: ms, rest4)
                                | None => None
                                end
                              else if Ascii.eqb c "}"%char
                              then Some ([(k, v)], rest3)
                              else None
                          end
                      | None => None
                      end
                    else None
                end
            | None => None
            end
          else None
      end
  end.

(** [JSON.parse(text)] on the part of JSON described above; [None]
    stands for the SyntaxError there. A text with a number that has a
    fraction or an exponent, or with a surrogate escape, is valid JSON that
    this parser does not read: nothing is stated about such a text. *)
Definition JSON_parse (text : string) : option json :=
  let s := chars text in
  match parse_value (S (length s)) (skip_ws s) with
  | Some (v, rest) =>
      match skip_ws rest with
      | [] => Some v
      | _ => None
      end
  | None => None
  end.

(** What may follow a number: anything that does not continue it. *)
Definition ends_number (rest : list ascii) : bool :=
  match rest with
  | [] => true
  | c :: _ => negb (is_num_char c) && negb (starts_fraction rest)
  end.

(** What a printed value starts with: not white space, not a closing
    bracket. *)
Definition starts_value (s : list ascii) : bool :=
  match s with
  | c :: _ => negb (is_ws c) && negb (Ascii.eqb c "]"%char)
              && negb (Ascii.eqb c "}"%char)
  | [] => false
  end.

(** The fuel that reads back the items of an array or an object. *)
Definition items_size (items : list json) : nat :=
  list_sum (map (fun x => S (json_size x)) items).

Definition members_size (members : list (string * json)) : nat :=
  list_sum (map (fun kv => S (json_size (snd kv))) members).

(** Reading back at every depth, in front of every continuation. *)
Definition reads_back (v : json) : Prop :=
  forall (indent : nat) (rest : list ascii) (fuel : nat),
    (json_size v <= fuel)%nat ->
    ends_number rest = true ->
    parse_value fuel (print_value indent v ++ rest) = Some (v, rest).

(** ** JSON export and import (utils/export.ts) *)

(** [v.key] for a value that is not null: the property of an object (the
    last one written under that name), [undefined] for anything else, as
    none of the names read here is a property of an array, a string, a
    number or a boolean. *)
Definition js_get (key : string) (v : json) : option json :=
  match v with
  | JObj members =>
      match find (fun kv => String.eqb (fst kv) key) (rev members) with
      | Some kv => Some (snd kv)
      | None => None
      end
  | _ => None
  end.

Definition js_truthy (v : option json) : bool :=
  match v with
  | None => false
  | Some JNull => false
  | Some (JBool b) => b
  | Some (JNum n) => negb (n =? 0)
  | Some (JStr s) => negb (String.eqb s EmptyString)
  | Some (JArr _) => true
  | Some (JObj _) => true
  end.

Definition js_isArray (v : option json) : bool :=
  match v with
  | Some (JArr _) => true
  | _ => false
  end.

(** The file the browser is told to save. *)
Record Download : Type := mkDownload {
  download_name : string;
  download_content : string
}.

(** [isoNow] and [isoNow'] are the two readings of
    [new Date().toISOString()]; the collections are given as
    [JSON.stringify] sees them. *)
Definition exportDataAsJSON (isoNow isoNow' : string)
           (cats tks nts : list json) : Download :=
  let exportData :=
    JObj [("version", JStr "1.0");
          ("exportedAt", JStr isoNow);
          ("categories", JArr cats);
          ("tasks", JArr tks);
          ("notes", JArr nts)] in
  let dataStr := JSON_stringify exportData in
  let timestamp := substring 0 10 isoNow' in
  {| download_name := ("cafe-planner-backup-" ++ timestamp ++ ".json")%string;
     download_content := dataStr |}.

Definition invalid_collection (key : string) (data : json) : bool :=
  negb (js_truthy (js_get key data)) || negb (js_isArray (js_get key data)).

(** The body of [reader.onload] from the outcome of [JSON.parse(content)]
    on: [parsed] is the value parsed, or [None] when [JSON.parse] throws
    its SyntaxError. The promise resolves ([Returned]) or rejects ([Threw])
    with the error caught. The checks read the three collections of the
    value and nothing below them. *)
Definition reader_onload (parsed : option json) : Outcome json :=
  match parsed with
  | None => Threw "SyntaxError"
  | Some JNull => Threw "TypeError: Cannot read properties of null"
  | Some data =>
      if invalid_collection "categories" data
      then Threw "Invalid data format: missing or invalid categories"
      else if invalid_collection "tasks" data
      then Threw "Invalid data format: missing or invalid tasks"
      else if invalid_collection "notes" data
      then Threw "Invalid data format: missing or invalid notes"
      else Returned data
  end.

(** [importDataFromJSON] on a file that was read with the given content,
    for a content in the part of JSON that [JSON_parse] reads (integer
    numbers, escapes outside the surrogate range), which holds every file
    the export writes. *)
Definition importDataFromJSON (content : string) : Outcome json :=
  reader_onload (JSON_parse content).

(** The planner's records as the objects the handlers build: the
    properties in the order of the object literals of App.tsx, an unset
    optional property left out. *)

Definition ColorTheme_name (th : ColorTheme) : string :=
  match th with
  | sky => "sky" | violet => "violet" | orange => "orange" | rose => "rose"
  | emerald => "emerald" | amber => "amber" | slate => "slate"
  end.

Definition TaskStatus_name (st : TaskStatus) : string :=
  match st with
  | active => "active"
  | completed => "completed"
  end.

Definition optional_number (key : string) (x : option Z)
  : list (string * json) :=
  match x with
  | Some n => [(key, JNum n)]
  | None => []
  end.

Definition json_of_category (c : Category) : json :=
  JObj [("id", JStr (cat_id c));
        ("label", JStr (cat_label c));
        ("icon", JStr (cat_icon c));
        ("theme", JStr (ColorTheme_name (cat_theme c)))].

Definition json_of_task (t : Task) : json :=
  JObj ([("id", JStr (task_id t));
         ("title", JStr (task_title t));
         ("categoryId", JStr (task_categoryId t));
         ("timeBlock", JStr (TimeBlock_name (task_timeBlock t)));
         ("status", JStr (TaskStatus_name (task_status t)))]
        ++ optional_number "createdAt" (task_createdAt t)
        ++ optional_number "completedAt" (task_completedAt t)).

Definition json_of_note (n : Note) : json :=
  JObj [("id", JStr (note_id n));
        ("content", JStr (note_content n));
        ("createdAt", JNum (note_createdAt n));
        ("theme", JStr (ColorTheme_name (note_theme n)))].

(* ================================================================== *)
(** * Part I, continued. The rest of the state code and the views      *)
(* ================================================================== *)

From Stdlib Require Import Qround.

(** ** Conditions on an action (App.tsx handlers) *)

(** The ids an action brings in are new: a create operation takes an id
    that no item of its collection has, and a load or an import brings
    lists without repeated ids. *)
Definition brings_fresh_ids (a : Action) (s : AppState) : Prop :=
  match a with
  | AddTask n _ _ _ _ => ~ In (Z_toString n) (map task_id (tasks s))
  | AddCategory n _ _ _ => ~ In (Z_toString n) (map cat_id (categories s))
  | AddNote n _ _ _ => ~ In (Z_toString n) (map note_id (quickNotes s))
  | Init _ _ cs ts ns | ImportData _ _ cs ts ns =>
      NoDup (map cat_id cs) /\ NoDup (map task_id ts)
      /\ NoDup (map note_id ns)
  | _ => True
  end.

(** The actions that leave the status and completedAt of every task, and
    the set of tasks, as they are. *)
Definition keeps_completion (a : Action) : bool :=
  match a with
  | UpdateTask _ _ _ _ _ | AddCategory _ _ _ _ | UpdateCategory _ _ _ _
  | DeleteCategory _ | AddNote _ _ _ _ | DeleteNote _
  | DragOver _ | DragEnd _ _ _ => true
  | _ => false
  end.

(** The payload the import validation receives when the file is the JSON
    export of the state: the three lists, as arrays. *)
Definition backupOf (isoNow : string) (s : AppState) : ExportData :=
  {| exp_version := "1.0";
     exp_exportedAt := isoNow;
     exp_categories := arrayOf (categories s);
     exp_tasks := arrayOf (tasks s);
     exp_notes := arrayOf (quickNotes s) |}.

(** The entries for the collections that are missing or not arrays, in the
    order in which the collections are tested. *)
Definition structuralErrors (data : ExportData) : list string :=
  (if Array_isArray (exp_categories data) then []
   else ["Missing or invalid categories"])
  ++ (if Array_isArray (exp_tasks data) then []
      else ["Missing or invalid tasks"])
  ++ (if Array_isArray (exp_notes data) then []
      else ["Missing or invalid notes"]).

(** ** CSV export (utils/export.ts, exportTasksAsCSV) *)

Definition timeBlockLabels (b : TimeBlock) : string :=
  match b with
  | morning => "早餐 🥨"
  | afternoon => "下午茶 🍭"
  | evening => "宵夜 🍷"
  end.

(** [cat?.label || 'Unknown'] *)
Definition getCategoryLabel (cats : list Category) (catId : string) : string :=
  match getCategory cats catId with
  | Some cat =>
      if String.eqb (cat_label cat) EmptyString then "Unknown"
      else cat_label cat
  | None => "Unknown"
  end.

Definition csvHeaders : list string :=
  ["任务标题"; "分类"; "时段"; "状态"; "完成时间"].

(** [toLocaleString] stands for
    [new Date(t).toLocaleString('zh-CN')], which depends on the host. *)
Definition csvRow (toLocaleString : Z -> string) (cats : list Category)
           (task : Task) : list string :=
  [ task_title task;
    getCategoryLabel cats (task_categoryId task);
    timeBlockLabels (task_timeBlock task);
    if TaskStatus_eqb (task_status task) completed
    then "已完成" else "进行中";
    match task_completedAt task with
    | Some c => if js_truthy_num (Some c) then toLocaleString c else "-"
    | None => "-"
    end ].

Definition csvLine (row : list string) : string :=
  String.concat "," (map (fun cell => (dquote ++ cell ++ dquote)%string) row).

Definition csvText (toLocaleString : Z -> string) (ts : list Task)
           (cats : list Category) : string :=
  String.concat (String LF EmptyString)
    (map csvLine (csvHeaders :: map (csvRow toLocaleString cats) ts)).

(** The byte order mark, in UTF-8. *)
Definition BOM : string :=
  String "239"%char (String "187"%char (String "191"%char EmptyString)).

Definition exportTasksAsCSV (toLocaleString : Z -> string) (isoNow : string)
           (ts : list Task) (cats : list Category) : Download :=
  let csv := csvText toLocaleString ts cats in
  let timestamp := substring 0 10 isoNow in
  {| download_name := ("cafe-planner-tasks-" ++ timestamp ++ ".csv")%string;
     download_content := (BOM ++ csv)%string |}.

(** ** The history view (components/HistoryModal.tsx) *)

(** [arr.sort(cmp)] for a comparator that orders its elements: the stable
    sort; an element goes in front of the first one it does not have to
    follow. *)
Fixpoint insertBy {A : Type} (cmp : A -> A -> Z) (x : A) (l : list A)
  : list A :=
  match l with
  | [] => [x]
  | y :: r => if cmp x y <=? 0 then x :: y :: r else y :: insertBy cmp x r
  end.

Definition Array_sort {A : Type} (cmp : A -> A -> Z) (l : list A) : list A :=
  fold_right (insertBy cmp) [] l.

(** [t.completedAt || 0] *)
Definition completedAt_or0 (t : Task) : Z :=
  match task_completedAt t with
  | Some c => c
  | None => 0
  end.

Definition isCompleted (t : Task) : bool :=
  TaskStatus_eqb (task_status t) completed.

(** The list of the archive for the filter [filterCatId], ['all'] or a
    category id. *)
Definition historyCompletedTasks (filterCatId : string) (ts : list Task)
  : list Task :=
  Array_sort (fun a b => completedAt_or0 b - completedAt_or0 a)
    (filter (fun t => String.eqb filterCatId "all"
                      || String.eqb (task_categoryId t) filterCatId)
            (filter isCompleted ts)).

(** The count in the header of the archive. *)
Definition historyTotal (ts : list Task) : nat :=
  length (filter isCompleted ts).

(** [getGroupTitle]; [dateLabel] stands for the rendering
    [`${y} / ${m + 1} / ${d}`] of the local date of a timestamp. The local
    midnights [d], [n] and [yesterday] are those of a host at a fixed
    offset. *)
Definition getGroupTitle (now tz : Z) (dateLabel : Z -> string)
           (timestamp : option Z) : string :=
  if negb (js_truthy_num timestamp) then "未知时间"
  else
    match timestamp with
    | None => "未知时间"
    | Some ts =>
        let d := setHours0 tz ts in
        let n := setHours0 tz now in
        let yesterday := n - MS_PER_DAY in
        if d =? n then "今日特供 🌟"
        else if d =? yesterday then "昨日菜单 🌙"
        else dateLabel ts
    end.

(** [if (!groups[title]) groups[title] = []; groups[title].push(task)] on
    an object whose keys keep the order in which they were first written
    (no title is an array index or the name of an inherited property). *)
Fixpoint pushToGroup (title : string) (task : Task)
         (groups : list (string * list Task)) : list (string * list Task) :=
  match groups with
  | [] => [(title, [task])]
  | (k, g) :: r =>
      if String.eqb k title then (k, g ++ [task]) :: r
      else (k, g) :: pushToGroup title task r
  end.

Definition groupedTasks (titleOf : Task -> string)
           (completedTasks : list Task) : list (string * list Task) :=
  fold_left (fun groups task => pushToGroup (titleOf task) task groups)
            completedTasks [].

(** [groups[title]], the empty list standing for [undefined]. *)
Definition groupOf (title : string) (groups : list (string * list Task))
  : list Task :=
  match find (fun kg => String.eqb (fst kg) title) groups with
  | Some kg => snd kg
  | None => []
  end.

(** ** The statistics view (the MoodBoard component) *)

(** [Math.round]: the nearest integer, a tie going up. *)
Definition Math_round (x : Q) : Z := Qfloor (x + (1 # 2)).

Definition completionRate (fl : Q -> Q) (ts : list Task) : Z :=
  let totalTasks := length ts in
  let completedTasks := length (filter isCompleted ts) in
  if (0 <? totalTasks)%nat
  then Math_round (fl (fl (inject_Z (Z.of_nat completedTasks)
                           / inject_Z (Z.of_nat totalTasks)) * 100)%Q)
  else 0.

Definition completedIn (b : TimeBlock) (ts : list Task) : nat :=
  length (filter (inBlock b) (filter isCompleted ts)).

Definition peakTime (ts : list Task) : string :=
  let m := completedIn morning ts in
  let a := completedIn afternoon ts in
  let e := completedIn evening ts in
  let mx := Nat.max (Nat.max m a) e in
  if (mx =? 0)%nat then "暂无数据"
  else if (m =? mx)%nat && (0 <? m)%nat then "早高峰"
  else if (a =? mx)%nat && (0 <? a)%nat then "下午茶"
  else if (e =? mx)%nat && (0 <? e)%nat then "晚间档"
  else "暂无数据".










(* ================================================================== *)
(** * Part II. Properties                                              *)
(* ================================================================== *)

(** ** Basic facts *)

Lemma TaskStatus_eqb_eq (a b : TaskStatus) :
  TaskStatus_eqb a b = true <-> a = b.
Proof. destruct a, b; simpl; split; congruence. Qed.

Lemma TimeBlock_eqb_eq (a b : TimeBlock) :
  TimeBlock_eqb a b = true <-> a = b.
Proof. destruct a, b; simpl; split; congruence. Qed.

Lemma TimeBlock_eqb_refl (a : TimeBlock) : TimeBlock_eqb a a = true.
Proof. now destruct a. Qed.


(** ** The reference day *)

(** On a host whose own offset is UTC+8 the day start of the code is the
    start of the current UTC+8 day. *)
Lemma getBeijingTodayStart_utc8_host (now : Z) :
  getBeijingTodayStart now (-480) = utc8_day_start now.
Proof.
  unfold getBeijingTodayStart, utc8_day_start, setHours0.
  cbv zeta.
  replace (now + (-8 * 60 - -480) * 60 * 1000 - -480 * 60 * 1000)
    with (now + 8 * 60 * 60 * 1000) by lia.
  lia.
Qed.

(** The day start is at most [now] on such a host and less than a day old. *)
Lemma utc8_day_start_bounds (now : Z) :
  utc8_day_start now <= now < utc8_day_start now + MS_PER_DAY.
Proof.
  unfold utc8_day_start. cbv zeta.
  assert (H : 0 <= (now + 8 * 60 * 60 * 1000) mod MS_PER_DAY < MS_PER_DAY)
    by (apply Z.mod_pos_bound; reflexivity).
  lia.
Qed.

(** On a host in UTC the code truncates the clock of eight hours ago to
    the UTC day: at 12:00 UTC it answers 00:00 UTC of the same date, eight
    hours after the UTC+8 day began. *)
Example getBeijingTodayStart_utc_host :
  getBeijingTodayStart 1704196800000 0 = 1704153600000
  /\ utc8_day_start 1704196800000 = 1704124800000.
Proof. split; reflexivity. Qed.

(** ** Visibility *)

Lemma shouldHideTask_true (now tz : Z) (t : Task) :
  shouldHideTask now tz t = true <->
  task_status t = completed
  /\ exists c, task_completedAt t = Some c /\ c <> 0
               /\ c < getBeijingTodayStart now tz.
Proof.
  unfold shouldHideTask.
  destruct (task_status t); simpl.
  - split; [discriminate | intros [H _]; discriminate].
  - destruct (task_completedAt t) as [c|]; simpl.
    + destruct (Z.eqb_spec c 0) as [E|E]; simpl.
      * split; [discriminate |].
        intros [_ [c' [E' [N _]]]]. injection E' as <-. contradiction.
      * rewrite Z.ltb_lt. split.
        -- intros H. split; [reflexivity |]. exists c. auto.
        -- intros [_ [c' [E' [_ H]]]]. injection E' as <-. exact H.
    + split; [discriminate |].
      intros [_ [c [E _]]]. discriminate.
Qed.

Lemma getTasksByBlock_In (now tz : Z) (tasks : list Task) (b : TimeBlock)
      (t : Task) :
  In t (getTasksByBlock now tz tasks b) <->
  In t tasks /\ task_timeBlock t = b /\ shouldHideTask now tz t = false.
Proof.
  unfold getTasksByBlock. rewrite filter_In, andb_true_iff, negb_true_iff.
  rewrite TimeBlock_eqb_eq. tauto.
Qed.

(** C1 (amended). On a host whose own time zone is UTC+8 the visibility
    predicate hides a task exactly when its status is completed, its
    completedAt is set and is not the falsy value 0, and completedAt is
    strictly before the start of the current UTC+8 day; every active task,
    and every completed task whose completedAt is at or after that day
    start, is in the lane query of its timeBlock. *)
Theorem shouldHideTask_utc8_host (now tz : Z) (tasks : list Task) (t : Task) :
  tz = -480 ->
  (shouldHideTask now tz t = true <->
     task_status t = completed
     /\ exists c, task_completedAt t = Some c /\ c <> 0
                  /\ c < utc8_day_start now)
  /\ (In t tasks -> task_status t = active ->
      In t (getTasksByBlock now tz tasks (task_timeBlock t)))
  /\ (forall c, In t tasks -> task_status t = completed ->
      task_completedAt t = Some c -> utc8_day_start now <= c ->
      In t (getTasksByBlock now tz tasks (task_timeBlock t))).
Proof.
  intros ->. split; [| split].
  - rewrite shouldHideTask_true, getBeijingTodayStart_utc8_host. reflexivity.
  - intros Hin Hst. apply getTasksByBlock_In. repeat split; trivial.
    unfold shouldHideTask. rewrite Hst. reflexivity.
  - intros c Hin Hst Hc Hle. apply getTasksByBlock_In. repeat split; trivial.
    destruct (shouldHideTask now (-480) t) eqn:E; trivial.
    apply shouldHideTask_true in E. destruct E as [_ [c' [E' [_ Hlt]]]].
    rewrite getBeijingTodayStart_utc8_host in Hlt.
    rewrite Hc in E'. injection E' as <-. lia.
Qed.

(** At 2024-01-02 20:00 UTC+8 a task completed the evening before is
    hidden and a task completed at 04:00 the same day is listed. *)
Lemma shouldHideTask_utc8_host_witness :
  shouldHideTask 1704196800000 (-480)
    (mkTask "1" "latte" "cat1" morning completed (Some 1704110400000) None)
  = true
  /\ In (mkTask "2" "mocha" "cat1" evening completed (Some 1704139200000) None)
        (getTasksByBlock 1704196800000 (-480)
           [mkTask "2" "mocha" "cat1" evening completed (Some 1704139200000)
              None] evening).
Proof.
  split.
  - apply (shouldHideTask_utc8_host 1704196800000 (-480) []
             (mkTask "1" "latte" "cat1" morning completed
                (Some 1704110400000) None) eq_refl).
    split; [reflexivity |].
    exists 1704110400000.
    split; [reflexivity | split; [discriminate | reflexivity]].
  - apply (shouldHideTask_utc8_host 1704196800000 (-480)
             [mkTask "2" "mocha" "cat1" evening completed
                (Some 1704139200000) None]
             (mkTask "2" "mocha" "cat1" evening completed
                (Some 1704139200000) None) eq_refl)
      with (c := 1704139200000).
    + left. reflexivity.
    + reflexivity.
    + reflexivity.
    + discriminate.
Defined.

(** C1 as stated fails in two places. (a) A completed task whose
    completedAt is 0 is before every later day start, yet the falsy
    timestamp makes the predicate answer "not hidden". (b) On a host in UTC,
    at 2024-01-02 12:00Z (20:00 in UTC+8), a task completed at
    2024-01-01 20:00Z (04:00 of the same UTC+8 day) is at or after the start
    of the current UTC+8 day, yet it is hidden. *)
Example shouldHideTask_claim_fails :
  (let t := mkTask "1" "latte" "cat1" morning completed (Some 0) None in
   task_status t = completed /\ task_completedAt t = Some 0
   /\ 0 < utc8_day_start 1704196800000
   /\ shouldHideTask 1704196800000 (-480) t = false)
  /\
  (let t := mkTask "2" "mocha" "cat1" evening completed (Some 1704139200000)
              None in
   task_status t = completed /\ task_completedAt t = Some 1704139200000
   /\ utc8_day_start 1704196800000 <= 1704139200000
   /\ shouldHideTask 1704196800000 0 t = true
   /\ ~ In t (getTasksByBlock 1704196800000 0 [t] evening)).
Proof.
  split; cbv zeta.
  - repeat split.
  - repeat split.
    + discriminate.
    + simpl. tauto.
Qed.

(** C8. A completed task whose completedAt is unset is never hidden,
    whatever the clock and the host offset, and stays in the lane query of
    its timeBlock. *)
Theorem shouldHideTask_completedAt_unset (now tz : Z) (tasks : list Task)
        (t : Task) :
  task_status t = completed ->
  task_completedAt t = None ->
  shouldHideTask now tz t = false
  /\ (In t tasks -> In t (getTasksByBlock now tz tasks (task_timeBlock t))).
Proof.
  intros Hst Hc.
  assert (H : shouldHideTask now tz t = false).
  { unfold shouldHideTask. rewrite Hst, Hc. reflexivity. }
  split; [exact H |].
  intros Hin. apply getTasksByBlock_In. auto.
Qed.

Lemma shouldHideTask_completedAt_unset_witness :
  shouldHideTask 1704196800000 300
    (mkTask "7" "scone" "cat2" afternoon completed None (Some 5)) = false
  /\ In (mkTask "7" "scone" "cat2" afternoon completed None (Some 5))
        (getTasksByBlock 1704196800000 300
           [mkTask "7" "scone" "cat2" afternoon completed None (Some 5)]
           afternoon).
Proof.
  destruct (shouldHideTask_completedAt_unset 1704196800000 300
              [mkTask "7" "scone" "cat2" afternoon completed None (Some 5)]
              (mkTask "7" "scone" "cat2" afternoon completed None (Some 5))
              eq_refl eq_refl) as [H1 H2].
  split; [exact H1 |]. apply H2. left. reflexivity.
Defined.

(** ** Completion percentage *)

Lemma completedCount_le (l : list Task) : (completedCount l <= length l)%nat.
Proof. unfold completedCount. apply filter_length_le. Qed.

Lemma quotient_range (c n : nat) :
  (c <= S n)%nat ->
  (0 <= inject_Z (Z.of_nat c) / inject_Z (Z.of_nat (S n)) <= 1)%Q.
Proof.
  intros Hc.
  assert (Hn : (0 < inject_Z (Z.of_nat (S n)))%Q).
  { unfold Qlt. simpl. lia. }
  split.
  - apply Qle_shift_div_l; [exact Hn |]. unfold Qle. simpl. lia.
  - apply Qle_shift_div_r; [exact Hn |]. unfold Qle. simpl. lia.
Qed.

(** A rounding that is monotone and leaves 0, 1 and 100 as they are, as
    rounding to the nearest floating-point number does, keeps a percentage
    in range. *)
Lemma percentage_range (fl : Q -> Q) (q : Q) :
  (forall x y, (x <= y)%Q -> (fl x <= fl y)%Q) ->
  (fl 0 == 0)%Q -> (fl 1 == 1)%Q -> (fl 100 == 100)%Q ->
  (0 <= q <= 1)%Q ->
  (0 <= fl (fl q * 100) <= 100)%Q.
Proof.
  intros Hmono H0 H1 H100 [Hq0 Hq1].
  assert (L0 : (0 <= fl 0)%Q) by (rewrite H0; apply Qle_refl).
  assert (L1 : (fl 1 <= 1)%Q) by (rewrite H1; apply Qle_refl).
  assert (L100 : (fl 100 <= 100)%Q) by (rewrite H100; apply Qle_refl).
  assert (A0 : (0 <= fl q)%Q).
  { apply Qle_trans with (fl 0%Q); [exact L0 | now apply Hmono]. }
  assert (A1 : (fl q <= 1)%Q).
  { apply Qle_trans with (fl 1%Q); [now apply Hmono | exact L1]. }
  split.
  - apply Qle_trans with (fl 0%Q); [exact L0 |]. apply Hmono.
    apply Qmult_le_0_compat; [exact A0 | discriminate].
  - apply Qle_trans with (fl 100%Q); [| exact L100]. apply Hmono.
    setoid_replace (100 : Q) with (1 * 100)%Q at 2 by reflexivity.
    apply Qmult_le_compat_r; [exact A1 | discriminate].
Qed.

(** C9. The completion percentage is total and in range: it is exactly 0
    when no task is visible, and otherwise it is the number of completed
    visible tasks divided by the (non-zero) number of visible tasks, times
    100, a value between 0 and 100, for every rounding of the quotient and
    of the product that is monotone and leaves 0, 1 and 100 as they are. *)
Theorem calculateProgress_total_in_range (fl : Q -> Q) (now tz : Z)
        (tasks : list Task) :
  (forall x y, (x <= y)%Q -> (fl x <= fl y)%Q) ->
  (fl 0 == 0)%Q -> (fl 1 == 1)%Q -> (fl 100 == 100)%Q ->
  let visible := visibleTasks now tz tasks in
  (visible = [] -> calculateProgress fl now tz tasks = 0%Q)
  /\ (visible <> [] ->
      length visible <> O
      /\ (completedCount visible <= length visible)%nat
      /\ calculateProgress fl now tz tasks
         = fl (fl (inject_Z (Z.of_nat (completedCount visible))
                   / inject_Z (Z.of_nat (length visible))) * 100)%Q)
  /\ (0 <= calculateProgress fl now tz tasks <= 100)%Q.
Proof.
  intros Hmono H0 H1 H100 visible. unfold calculateProgress. fold visible.
  pose proof (completedCount_le visible) as Hle.
  destruct visible as [| t r] eqn:E.
  - simpl. split; [reflexivity |].
    split; [intros H; exfalso; now apply H | split; discriminate].
  - cbn [length] in *. split; [discriminate |]. split.
    + intros _. split; [discriminate |]. split; [exact Hle | reflexivity].
    + apply percentage_range; trivial. now apply quotient_range.
Qed.

(** With exact arithmetic: one of two visible tasks is completed, a third
    task is stale, which gives 50; a board with a stale task only gives 0. *)
Lemma calculateProgress_total_in_range_witness :
  Qeq (calculateProgress (fun q => q) 1704196800000 (-480)
         [mkTask "1" "latte" "cat1" morning completed (Some 1704110400000)
            None;
          mkTask "2" "mocha" "cat1" evening completed (Some 1704139200000)
            None;
          mkTask "3" "scone" "cat2" evening active None None])
      50%Q
  /\ calculateProgress (fun q => q) 1704196800000 (-480)
       [mkTask "1" "latte" "cat1" morning completed (Some 1704110400000) None]
     = 0%Q.
Proof.
  assert (Hmono : forall x y : Q, (x <= y)%Q -> (x <= y)%Q) by auto.
  split.
  - destruct (calculateProgress_total_in_range (fun q => q)
                1704196800000 (-480)
                [mkTask "1" "latte" "cat1" morning completed
                   (Some 1704110400000) None;
                 mkTask "2" "mocha" "cat1" evening completed
                   (Some 1704139200000) None;
                 mkTask "3" "scone" "cat2" evening active None None]
                Hmono (Qeq_refl 0) (Qeq_refl 1) (Qeq_refl 100))
      as [_ [H _]].
    destruct H as [_ [_ ->]]; [discriminate | reflexivity].
  - apply (proj1 (calculateProgress_total_in_range (fun q => q)
                    1704196800000 (-480)
                    [mkTask "1" "latte" "cat1" morning completed
                       (Some 1704110400000) None]
                    Hmono (Qeq_refl 0) (Qeq_refl 1) (Qeq_refl 100))).
    reflexivity.
Defined.

(** ** Status toggle *)

Lemma toggleTask_twice (now1 now2 : Z) (t : Task) :
  toggleTask now2 (toggleTask now1 t)
  = {| task_id := task_id t;
       task_title := task_title t;
       task_categoryId := task_categoryId t;
       task_timeBlock := task_timeBlock t;
       task_status := task_status t;
       task_completedAt :=
         match task_status t with
         | active => None
         | completed => Some now2
         end;
       task_createdAt := task_createdAt t |}.
Proof. destruct t as [i ti c b [] ca cr]; reflexivity. Qed.

(** C2 (amended). Toggling the status of a task twice returns it to its
    original status and changes no field but completedAt: completedAt is
    left unset when the task was active at first, and holds the time of the
    second toggle when it was completed at first. On the list, the two
    toggles act on the tasks with the given id only. *)
Theorem handleToggleStatus_twice (now1 now2 : Z) (id : string)
        (prev : list Task) :
  handleToggleStatus now2 id (handleToggleStatus now1 id prev)
  = map (fun t =>
           if String.eqb (task_id t) id
           then {| task_id := task_id t;
                   task_title := task_title t;
                   task_categoryId := task_categoryId t;
                   task_timeBlock := task_timeBlock t;
                   task_status := task_status t;
                   task_completedAt :=
                     match task_status t with
                     | active => None
                     | completed => Some now2
                     end;
                   task_createdAt := task_createdAt t |}
           else t) prev.
Proof.
  unfold handleToggleStatus. rewrite map_map. apply map_ext. intros t.
  destruct (String.eqb (task_id t) id) eqn:E.
  - replace (task_id (toggleTask now1 t)) with (task_id t) by reflexivity.
    rewrite E. apply toggleTask_twice.
  - rewrite E. reflexivity.
Qed.

(** C2 as stated fails for a task that is completed at first: after the
    two toggles it is completed again and completedAt holds the time of the
    second toggle. *)
Example handleToggleStatus_twice_restamps :
  handleToggleStatus 300 "1"
    (handleToggleStatus 200 "1"
       [mkTask "1" "latte" "cat1" morning completed (Some 100) (Some 50)])
  = [mkTask "1" "latte" "cat1" morning completed (Some 300) (Some 50)]
  /\ task_completedAt
       (toggleTask 300
          (toggleTask 200
             (mkTask "1" "latte" "cat1" morning completed (Some 100)
                (Some 50)))) <> None.
Proof. split; [reflexivity | discriminate]. Qed.

(** ** Deleting a category *)

Lemma getCategory_None (cs : list Category) (id : string) :
  getCategory cs id = None <-> ~ In id (map cat_id cs).
Proof.
  unfold getCategory. induction cs as [| c r IH]; simpl.
  - tauto.
  - destruct (String.eqb_spec (cat_id c) id) as [E|E].
    + split; [discriminate | intros H; exfalso; apply H; auto].
    + rewrite IH. tauto.
Qed.

Lemma handleDeleteCategory_no_id (id : string) (s : AppState) :
  ~ In id (map cat_id (categories (handleDeleteCategory id s))).
Proof.
  simpl. rewrite in_map_iff. intros [c [E H]].
  apply filter_In in H. destruct H as [_ H].
  rewrite negb_true_iff in H. apply String.eqb_neq in H. contradiction.
Qed.

(** C7. Deleting a category removes the categories with that id and
    nothing else: the tasks (and the notes) are left as they are, every
    other category stays, in place and unchanged; afterwards a task that
    referenced the deleted category, like every task whose categoryId does
    not resolve, is rendered with the fallback look: slate theme, the
    "special order" label and the sparkles icon. *)
Theorem handleDeleteCategory_frame (id : string) (s : AppState) :
  tasks (handleDeleteCategory id s) = tasks s
  /\ quickNotes (handleDeleteCategory id s) = quickNotes s
  /\ categories (handleDeleteCategory id s)
     = filter (fun c => negb (String.eqb (cat_id c) id)) (categories s)
  /\ (forall c, In c (categories (handleDeleteCategory id s)) <->
                In c (categories s) /\ cat_id c <> id)
  /\ (forall t, task_categoryId t = id ->
        renderTask (handleDeleteCategory id s) t
        = mkLook (THEME_STYLES slate) "特殊订单" "✨" true)
  /\ (forall s' t, getCategory (categories s') (task_categoryId t) = None ->
        renderTask s' t = mkLook (THEME_STYLES slate) "特殊订单" "✨" true).
Proof.
  split; [reflexivity |]. split; [reflexivity |]. split; [reflexivity |].
  split; [| split].
  - intros c. simpl. rewrite filter_In, negb_true_iff, String.eqb_neq.
    reflexivity.
  - intros t Ht. unfold renderTask.
    replace (getCategory (categories (handleDeleteCategory id s))
               (task_categoryId t)) with (@None Category); [reflexivity |].
    symmetry. apply getCategory_None. rewrite Ht.
    apply handleDeleteCategory_no_id.
  - intros s' t H. unfold renderTask. rewrite H. reflexivity.
Qed.

(** Deleting "cat1" from the seeded board keeps the task that used it and
    shows it as a special order. *)
Lemma handleDeleteCategory_frame_witness :
  let t := mkTask "5" "latte" "cat1" morning active None (Some 5) in
  let s := mkState DEFAULT_CATEGORIES [t] [] in
  tasks (handleDeleteCategory "cat1" s) = [t]
  /\ renderTask (handleDeleteCategory "cat1" s) t
     = mkLook (THEME_STYLES slate) "特殊订单" "✨" true
  /\ renderTask s t = mkLook (THEME_STYLES amber) "默认分区1" "📚" false.
Proof.
  intros t s.
  destruct (handleDeleteCategory_frame "cat1" s) as [H1 [_ [_ [_ [H5 _]]]]].
  split; [exact H1 |]. split; [apply H5; reflexivity | reflexivity].
Defined.

(** ** Quick notes stay newest first *)

Lemma insertNote_In (x y : Note) (l : list Note) :
  In y (insertNote x l) <-> y = x \/ In y l.
Proof.
  induction l as [| z r IH]; simpl.
  - intuition congruence.
  - destruct (note_createdAt z - note_createdAt x <=? 0); simpl.
    + intuition congruence.
    + rewrite IH. intuition congruence.
Qed.

Lemma insertNote_sorted (x : Note) (l : list Note) :
  newest_first l -> newest_first (insertNote x l).
Proof.
  unfold newest_first. induction 1 as [| z r Hr IH Hz]; simpl.
  - constructor; constructor.
  - destruct (Z.leb_spec (note_createdAt z - note_createdAt x) 0) as [L|L].
    + constructor.
      * constructor; assumption.
      * constructor; [lia |].
        rewrite Forall_forall in *. intros y Hy. specialize (Hz y Hy). lia.
    + constructor; [exact IH |].
      rewrite Forall_forall in *. intros y Hy.
      apply insertNote_In in Hy. destruct Hy as [-> | Hy]; [lia | auto].
Qed.

Lemma insertNote_Permutation (x : Note) (l : list Note) :
  Permutation (x :: l) (insertNote x l).
Proof.
  induction l as [| z r IH]; simpl.
  - apply Permutation_refl.
  - destruct (note_createdAt z - note_createdAt x <=? 0).
    + apply Permutation_refl.
    + eapply perm_trans; [apply perm_swap |]. now apply perm_skip.
Qed.

Lemma sortNotes_sorted (l : list Note) : newest_first (sortNotes l).
Proof.
  induction l as [| x r IH]; simpl.
  - constructor.
  - now apply insertNote_sorted.
Qed.

Lemma sortNotes_Permutation (l : list Note) : Permutation l (sortNotes l).
Proof.
  induction l as [| x r IH]; simpl.
  - apply perm_nil.
  - eapply perm_trans; [| apply insertNote_Permutation]. now apply perm_skip.
Qed.

Lemma newest_first_filter (p : Note -> bool) (l : list Note) :
  newest_first l -> newest_first (filter p l).
Proof.
  unfold newest_first. induction 1 as [| z r Hr IH Hz]; simpl.
  - constructor.
  - destruct (p z); [| exact IH].
    constructor; [exact IH |].
    rewrite Forall_forall in *. intros y Hy. apply filter_In in Hy.
    apply Hz. tauto.
Qed.

Lemma newest_first_cons (x : Note) (l : list Note) :
  newest_first l ->
  Forall (fun n => note_createdAt n <= note_createdAt x) l ->
  newest_first (x :: l).
Proof. intros H F. constructor; assumption. Qed.

(** What [initData] leaves behind: the lists are set in the order
    categories, tasks, notes, and a call of the store that rejects ends the
    load with the lists set so far. In every case the tasks loaded are the
    stored tasks after migration, since the seeding of a first run writes
    the empty list. *)
Lemma initData_cases (now : Z) (db : StoreCall -> bool)
      (cs : list Category) (ts : list Task) (ns : list Note) (s : AppState) :
  let dbCats := if (length cs =? 0)%nat then DEFAULT_CATEGORIES else cs in
  initData now db cs ts ns s = s
  \/ initData now db cs ts ns s = mkState dbCats (tasks s) (quickNotes s)
  \/ initData now db cs ts ns s
     = mkState dbCats (migrateTaskData now ts) (quickNotes s)
  \/ initData now db cs ts ns s
     = mkState dbCats (migrateTaskData now ts) (sortNotes ns).
Proof.
  intros dbCats. unfold initData. fold dbCats.
  destruct (db categories_getAll); cbn [negb]; [| now left].
  destruct ((length cs =? 0)%nat && negb (db categories_seed));
    [now left |].
  destruct (db tasks_getAll); cbn [negb]; [| right; left; reflexivity].
  destruct ts as [| t r].
  - cbn [length Nat.eqb].
    destruct (db notes_getAll_firstRun); cbn [negb];
      [| right; left; reflexivity].
    destruct (negb (0 <? length ns)%nat
              && (length dbCats =? length DEFAULT_CATEGORIES)%nat).
    + destruct (db tasks_seed); [| right; left; reflexivity].
      destruct (db notes_getAll); cbn [negb];
        [right; right; right | right; right; left]; reflexivity.
    + destruct (db notes_getAll); cbn [negb];
        [right; right; right | right; right; left]; reflexivity.
  - cbn [length Nat.eqb].
    destruct (hasMigrated (t :: r) && negb (db tasks_put));
      [right; left; reflexivity |].
    destruct (db notes_getAll); cbn [negb];
      [right; right; right | right; right; left]; reflexivity.
Qed.

Lemma initData_resolved (now : Z) (db : StoreCall -> bool)
      (cs : list Category) (ts : list Task) (ns : list Note) (s : AppState) :
  (forall c, db c = true) ->
  initData now db cs ts ns s
  = mkState (if (length cs =? 0)%nat then DEFAULT_CATEGORIES else cs)
            (migrateTaskData now ts) (sortNotes ns).
Proof.
  intros Hdb. unfold initData. rewrite !Hdb. cbn [negb].
  rewrite !andb_false_r. destruct ts as [| t r]; cbn [length Nat.eqb].
  - destruct (negb (0 <? length ns)%nat
              && (length (if (length cs =? 0)%nat then DEFAULT_CATEGORIES
                          else cs) =? length DEFAULT_CATEGORIES)%nat);
      reflexivity.
  - reflexivity.
Qed.

Lemma import_rejected_resolved (db : StoreCall -> bool) (s : AppState)
      (cs : list Category) (ts : list Task) (ns : list Note) :
  (forall c, db c = true) -> import_rejected db s cs ts ns = false.
Proof.
  intros Hdb. unfold import_rejected. rewrite !Hdb. cbn [negb].
  now rewrite !andb_false_r.
Qed.

Lemma handleImportData_cases (now : Z) (db : StoreCall -> bool)
      (cs : list Category) (ts : list Task) (ns : list Note) (s : AppState) :
  (import_rejected db s cs (map (withCreatedAt now) ts) ns = true
   /\ handleImportData now db cs ts ns s = s)
  \/ (import_rejected db s cs (map (withCreatedAt now) ts) ns = false
      /\ handleImportData now db cs ts ns s
         = mkState cs (map (withCreatedAt now) ts) (sortNotes ns)).
Proof.
  unfold handleImportData. cbv zeta.
  destruct (import_rejected db s cs (map (withCreatedAt now) ts) ns);
    [left | right]; split; reflexivity.
Qed.

Lemma step_newest_first (a : Action) (s : AppState) :
  newest_first (quickNotes s) ->
  match a with
  | AddNote _ nowCreated _ _ =>
      Forall (fun n => note_createdAt n <= nowCreated) (quickNotes s)
  | _ => True
  end ->
  newest_first (quickNotes (step a s)).
Proof.
  intros Hs Ha. destruct a; simpl; trivial.
  - destruct (initData_cases now resolves storedCats storedTasks storedNotes
                s) as [E | [E | [E | E]]]; rewrite E; trivial.
    apply sortNotes_sorted.
  - now apply newest_first_cons.
  - now apply newest_first_filter.
  - destruct (handleImportData_cases now resolves newCategories newTasks
                newNotes s) as [[_ E] | [_ E]]; rewrite E; trivial.
    apply sortNotes_sorted.
Qed.

(** C10. The quick-notes list is sorted by createdAt, newest first, in
    every state of a run that starts from the empty list, whichever calls
    of the store resolve: the initial load and an import install a sorted
    rearrangement of the notes they are given, or leave the list as it was
    when a call of the store rejects before they set it; a deletion keeps
    the order, and adding a note puts it in front, which keeps the list
    sorted provided its createdAt is at least the createdAt of every note
    already there. *)
Theorem quickNotes_newest_first (acts : list Action) :
  addNote_clock_ok acts emptyState ->
  newest_first (quickNotes (run acts emptyState))
  /\ (forall now db cs ts ns s,
        ((forall c, db c = true) ->
         newest_first (quickNotes (step (Init now db cs ts ns) s))
         /\ Permutation ns (quickNotes (step (Init now db cs ts ns) s)))
        /\ (quickNotes (step (Init now db cs ts ns) s) = quickNotes s
            \/ newest_first (quickNotes (step (Init now db cs ts ns) s))
               /\ Permutation ns
                    (quickNotes (step (Init now db cs ts ns) s))))
  /\ (forall now db cs ts ns s,
        ((forall c, db c = true) ->
         newest_first (quickNotes (step (ImportData now db cs ts ns) s))
         /\ Permutation ns
              (quickNotes (step (ImportData now db cs ts ns) s)))
        /\ (quickNotes (step (ImportData now db cs ts ns) s) = quickNotes s
            \/ newest_first
                 (quickNotes (step (ImportData now db cs ts ns) s))
               /\ Permutation ns
                    (quickNotes (step (ImportData now db cs ts ns) s))))
  /\ (forall id s, newest_first (quickNotes s) ->
        newest_first (quickNotes (step (DeleteNote id) s)))
  /\ (forall n1 n2 content r s,
        newest_first (quickNotes s) ->
        Forall (fun n => note_createdAt n <= n2) (quickNotes s) ->
        newest_first (quickNotes (step (AddNote n1 n2 content r) s))
        /\ exists n, quickNotes (step (AddNote n1 n2 content r) s)
                     = n :: quickNotes s /\ note_createdAt n = n2).
Proof.
  intros Hok. split; [| split; [| split; [| split]]].
  - unfold run.
    assert (G : forall s, newest_first (quickNotes s) ->
                addNote_clock_ok acts s ->
                newest_first (quickNotes (fold_left (fun st a => step a st)
                                                    acts s))).
    { clear Hok. induction acts as [| a r IH]; intros s Hs Hc; simpl.
      - exact Hs.
      - destruct Hc as [Ha Hr]. apply IH; [| exact Hr].
        now apply step_newest_first. }
    apply G; [constructor | exact Hok].
  - intros. cbn [step]. split.
    + intros Hdb. rewrite (initData_resolved _ _ _ _ _ _ Hdb).
      split; [apply sortNotes_sorted | apply sortNotes_Permutation].
    + destruct (initData_cases now db cs ts ns s) as [E | [E | [E | E]]];
        rewrite E; auto.
      right. split; [apply sortNotes_sorted | apply sortNotes_Permutation].
  - intros. cbn [step].
    destruct (handleImportData_cases now db cs ts ns s)
      as [[R E] | [R E]]; rewrite E.
    + split; [| now left]. intros Hdb.
      rewrite (import_rejected_resolved _ _ _ _ _ Hdb) in R. discriminate.
    + cbn [quickNotes]. split; [intros _ | right];
        (split; [apply sortNotes_sorted | apply sortNotes_Permutation]).
  - intros id s Hs. now apply (step_newest_first (DeleteNote id)).
  - intros n1 n2 content r s Hs HF. split.
    + now apply (step_newest_first (AddNote n1 n2 content r)).
    + eexists. split; reflexivity.
Qed.

(** A run that loads two stored notes, adds a newer one and deletes one. *)
Lemma quickNotes_newest_first_witness :
  newest_first
    (quickNotes
       (run [Init 0 store_ok [] [] [mkNote "10" "beans" 10 sky;
                                    mkNote "30" "milk" 30 rose];
             AddNote 40 40 "cups" 2;
             DeleteNote "10"] emptyState))
  /\ quickNotes
       (run [Init 0 store_ok [] [] [mkNote "10" "beans" 10 sky;
                                    mkNote "30" "milk" 30 rose];
             AddNote 40 40 "cups" 2;
             DeleteNote "10"] emptyState)
     = [mkNote "40" "cups" 40 sky; mkNote "30" "milk" 30 rose].
Proof.
  split; [| reflexivity].
  refine (proj1 (quickNotes_newest_first
                   [Init 0 store_ok [] [] [mkNote "10" "beans" 10 sky;
                                           mkNote "30" "milk" 30 rose];
                    AddNote 40 40 "cups" 2;
                    DeleteNote "10"] _)).
  simpl. repeat split.
  repeat constructor; simpl; lia.
Defined.

(** Without the proviso the order can break: a note stamped by a clock
    that was set back lands in front of a newer one. *)
Example handleAddNote_clock_set_back :
  ~ newest_first
      (quickNotes (handleAddNote 20 20 "cups" 0
                     (mkState [] [] [mkNote "30" "milk" 30 rose]))).
Proof.
  simpl. intros H. inversion H as [| x l _ HF]; subst.
  inversion HF as [| y l' Hy _]; subst. simpl in Hy. lia.
Qed.

(** ** Ids made from the clock *)

Lemma Z_toString_inj (n m : Z) : Z_toString n = Z_toString m -> n = m.
Proof.
  unfold Z_toString. intros H. apply DecimalZ.to_int_inj.
  assert (E : Some (Z.to_int n) = Some (Z.to_int m)).
  { rewrite <- (NilEmpty.isi (Z.to_int n)), <- (NilEmpty.isi (Z.to_int m)).
    now rewrite H. }
  now injection E.
Qed.

(** A decimal rendering is never the id of a default category. *)
Lemma Z_toString_not_default (n : Z) :
  ~ In (Z_toString n) (map cat_id DEFAULT_CATEGORIES).
Proof.
  unfold Z_toString. intros H.
  assert (E : forall s, In s (map cat_id DEFAULT_CATEGORIES) ->
                        NilEmpty.int_of_string s = None).
  { intros s [<- | [<- | []]]; reflexivity. }
  specialize (E _ H). rewrite NilEmpty.isi in E. discriminate.
Qed.

Lemma NoDup_map_Z_toString (l : list Z) :
  NoDup (map Z_toString l) <-> NoDup l.
Proof.
  split; [apply NoDup_map_inv |].
  apply Finite.Injective_map_NoDup. intros n m. apply Z_toString_inj.
Qed.

Lemma run_app (a1 a2 : list Action) (s : AppState) :
  run (a1 ++ a2) s = run a2 (run a1 s).
Proof. unfold run. apply fold_left_app. Qed.

Lemma run_cons (a : Action) (r : list Action) (s : AppState) :
  run (a :: r) s = run r (step a s).
Proof. reflexivity. Qed.

(** The ids a run of create operations leaves: tasks and categories are
    appended, notes are put in front. *)
Lemma run_creates_ids (acts : list Action) (s : AppState) :
  forallb is_create acts = true ->
  map cat_id (categories (run acts s))
  = map cat_id (categories s) ++ map Z_toString (categoryIdClocks acts)
  /\ map task_id (tasks (run acts s))
     = map task_id (tasks s) ++ map Z_toString (taskIdClocks acts)
  /\ map note_id (quickNotes (run acts s))
     = rev (map Z_toString (noteIdClocks acts)) ++ map note_id (quickNotes s).
Proof.
  revert s. induction acts as [| a r IH]; intros s Hc.
  - simpl. now rewrite !app_nil_r.
  - simpl in Hc. apply andb_true_iff in Hc. destruct Hc as [Ha Hr].
    rewrite run_cons. destruct (IH (step a s) Hr) as [E1 [E2 E3]].
    rewrite E1, E2, E3. clear IH E1 E2 E3.
    destruct a; try discriminate; simpl;
      rewrite ?map_app, <- ?app_assoc; simpl; auto.
Qed.

(** C6 (amended). In every state reached from the seeded state by create
    operations, ids are unique within each collection if and only if, in
    each collection, no two create operations took their id from the same
    clock value. *)
Theorem creates_ids_unique_iff (acts : list Action) :
  forallb is_create acts = true ->
  (ids_unique (run acts seededState) <->
   NoDup (categoryIdClocks acts)
   /\ NoDup (taskIdClocks acts)
   /\ NoDup (noteIdClocks acts)).
Proof.
  intros Hc. unfold ids_unique.
  destruct (run_creates_ids acts seededState Hc) as [E1 [E2 E3]].
  rewrite E1, E2, E3. clear E1 E2 E3.
  change (map task_id (tasks seededState)) with (@nil string).
  change (map note_id (quickNotes seededState)) with (@nil string).
  change (categories seededState) with DEFAULT_CATEGORIES.
  rewrite app_nil_r. cbn [app].
  assert (Hcat : NoDup (map cat_id DEFAULT_CATEGORIES
                        ++ map Z_toString (categoryIdClocks acts))
                 <-> NoDup (categoryIdClocks acts)).
  { split.
    - intros H. apply NoDup_app_remove_l in H. now apply NoDup_map_Z_toString.
    - intros H. apply NoDup_app.
      + simpl. repeat constructor; simpl; intuition discriminate.
      + now apply NoDup_map_Z_toString.
      + intros x Hx Hx'. apply in_map_iff in Hx'.
        destruct Hx' as [n [<- _]]. now apply (Z_toString_not_default n). }
  assert (Hnote : NoDup (rev (map Z_toString (noteIdClocks acts)))
                  <-> NoDup (noteIdClocks acts)).
  { rewrite <- NoDup_map_Z_toString. split.
    - intros H. apply NoDup_rev in H. now rewrite rev_involutive in H.
    - apply NoDup_rev. }
  rewrite Hcat, Hnote, NoDup_map_Z_toString. reflexivity.
Qed.

(** Three creates stamped by three different clock values. *)
Lemma creates_ids_unique_iff_witness :
  ids_unique
    (run [AddTask 1704196800000 1704196800000 "latte" "cat1" morning;
          AddCategory 1704196800000 "tea" sky "T";
          AddTask 1704196800007 1704196800007 "mocha" "cat2" evening;
          AddNote 1704196800009 1704196800009 "cups" 1] seededState).
Proof.
  apply (creates_ids_unique_iff
           [AddTask 1704196800000 1704196800000 "latte" "cat1" morning;
            AddCategory 1704196800000 "tea" sky "T";
            AddTask 1704196800007 1704196800007 "mocha" "cat2" evening;
            AddNote 1704196800009 1704196800009 "cups" 1]).
  - reflexivity.
  - simpl. repeat split; repeat constructor; simpl; intuition lia.
Defined.

(** C6 as stated fails: two tasks added while the clock shows the same
    millisecond get the same id. *)
Example creates_same_clock_same_id :
  map task_id
    (tasks (run [AddTask 1704196800000 1704196800000 "latte" "cat1" morning;
                 AddTask 1704196800000 1704196800000 "mocha" "cat2" evening]
                seededState))
  = ["1704196800000"; "1704196800000"]
  /\ ~ ids_unique
       (run [AddTask 1704196800000 1704196800000 "latte" "cat1" morning;
             AddTask 1704196800000 1704196800000 "mocha" "cat2" evening]
            seededState).
Proof.
  split; [reflexivity |].
  intros [_ [H _]]. simpl in H. inversion H as [| x l Hn _]; subst.
  apply Hn. left. reflexivity.
Qed.

(** ** Drag and drop *)

Lemma nth_error_firstn_skipn {A : Type} (l : list A) (s : nat) (x : A) :
  nth_error l s = Some x -> l = firstn s l ++ x :: skipn (S s) l.
Proof.
  revert s. induction l as [| y r IH]; intros [| s] H; simpl in *;
    try discriminate.
  - now injection H as ->.
  - f_equal. now apply IH.
Qed.

Lemma arrayMove_Permutation {A : Type} (l : list A) (from to : Z) :
  Permutation l (arrayMove l from to).
Proof.
  unfold arrayMove.
  set (s := splice_start (Z.of_nat (length l)) from).
  destruct (nth_error l s) as [x |] eqn:E; [| apply Permutation_refl].
  cbv zeta.
  set (rest := firstn s l ++ skipn (S s) l).
  set (p := splice_start (Z.of_nat (length rest))
              (if to <? 0 then Z.of_nat (length l) + to else to)).
  rewrite (nth_error_firstn_skipn l s x E) at 1.
  eapply perm_trans; [apply Permutation_sym, Permutation_middle |].
  fold rest. rewrite <- (firstn_skipn p rest) at 1.
  apply Permutation_middle.
Qed.

(** The move on small arrays: forwards, backwards, and with the index -1
    that [findIndex] returns for an id it does not find. *)
Example arrayMove_examples :
  arrayMove [1; 2; 3; 4] 0 2 = [2; 3; 1; 4]
  /\ arrayMove [1; 2; 3; 4] 3 1 = [1; 4; 2; 3]
  /\ arrayMove [1; 2; 3; 4] 1 1 = [1; 2; 3; 4]
  /\ arrayMove [1; 2; 3; 4] 0 (-1) = [2; 3; 4; 1]
  /\ arrayMove [1; 2; 3; 4] (-1) 0 = [4; 1; 2; 3].
Proof. repeat split. Qed.

Lemma findIndex_bounds {A : Type} (p : A -> bool) (l : list A) :
  -1 <= findIndex p l < Z.of_nat (length l).
Proof.
  induction l as [| x r IH]; simpl length; simpl findIndex.
  - lia.
  - destruct (p x); [lia |].
    destruct (Z.ltb_spec (findIndex p r) 0); lia.
Qed.

Lemma findIndex_nth_error {A : Type} (p : A -> bool) (l : list A) :
  0 <= findIndex p l ->
  exists x, nth_error l (Z.to_nat (findIndex p l)) = Some x /\ p x = true.
Proof.
  induction l as [| x r IH]; simpl findIndex.
  - lia.
  - destruct (p x) eqn:E.
    + intros _. exists x. auto.
    + destruct (Z.ltb_spec (findIndex p r) 0) as [L|L]; [lia |].
      intros _. destruct (IH L) as [y [Hy Py]]. exists y. split; [| exact Py].
      replace (Z.to_nat (findIndex p r + 1))
        with (S (Z.to_nat (findIndex p r))) by lia.
      exact Hy.
Qed.

Lemma filter_partition_Permutation {A : Type} (p : A -> bool) (l : list A) :
  Permutation l (filter (fun x => negb (p x)) l ++ filter p l).
Proof.
  induction l as [| x r IH]; simpl.
  - apply perm_nil.
  - destruct (p x); simpl.
    + now apply Permutation_cons_app.
    + now apply perm_skip.
Qed.

Lemma filter_all {A : Type} (p : A -> bool) (l : list A) :
  (forall x, In x l -> p x = true) -> filter p l = l.
Proof.
  induction l as [| x r IH]; intros H; simpl; [reflexivity |].
  rewrite (H x (or_introl eq_refl)). f_equal. apply IH.
  intros y Hy. apply H. now right.
Qed.

Lemma filter_none {A : Type} (p : A -> bool) (l : list A) :
  (forall x, In x l -> p x = false) -> filter p l = [].
Proof.
  induction l as [| x r IH]; intros H; simpl; [reflexivity |].
  rewrite (H x (or_introl eq_refl)). apply IH.
  intros y Hy. apply H. now right.
Qed.

Lemma filter_filter {A : Type} (p q : A -> bool) (l : list A) :
  filter p (filter q l) = filter (fun x => q x && p x) l.
Proof.
  induction l as [| x r IH]; simpl; [reflexivity |].
  destruct (q x); simpl; [destruct (p x) |]; now rewrite IH.
Qed.

Lemma inBlock_true (b : TimeBlock) (t : Task) :
  inBlock b t = true <-> task_timeBlock t = b.
Proof. apply TimeBlock_eqb_eq. Qed.

Lemma inBlock_other (b lane : TimeBlock) (t : Task) :
  b <> lane -> inBlock lane t = true -> inBlock b t = false.
Proof.
  intros N H. apply inBlock_true in H.
  destruct (inBlock b t) eqn:E; [| reflexivity].
  apply inBlock_true in E. congruence.
Qed.

Lemma findTask_Some (id : string) (l : list Task) (t : Task) :
  findTask id l = Some t -> In t l /\ task_id t = id.
Proof.
  unfold findTask. intros H. apply find_some in H.
  destruct H as [H1 H2]. split; [exact H1 | now apply String.eqb_eq].
Qed.

(** The lane query is the lane's list without its hidden tasks. *)
Lemma getTasksByBlock_filter (now tz : Z) (ts : list Task) (b : TimeBlock) :
  getTasksByBlock now tz ts b
  = filter (fun t => negb (shouldHideTask now tz t)) (filter (inBlock b) ts).
Proof. unfold getTasksByBlock. now rewrite filter_filter. Qed.

(** The reordering a same-lane drop performs. *)
Lemma handleDragEnd_same_lane (now tz : Z) (event : DragEvent)
      (ts : list Task) (o : Over) (a ot : Task) :
  over event = Some o ->
  findTask (active_id event) ts = Some a ->
  findTask (over_id o) ts = Some ot ->
  task_timeBlock a = task_timeBlock ot ->
  findIndex (hasId (active_id event))
            (getTasksByBlock now tz ts (task_timeBlock a))
  <> findIndex (hasId (over_id o))
               (getTasksByBlock now tz ts (task_timeBlock a)) ->
  handleDragEnd now tz event ts
  = filter (fun t => negb (inBlock (task_timeBlock a) t)) ts
    ++ arrayMove (filter (inBlock (task_timeBlock a)) ts)
         (findIndex (hasId (active_id event))
                    (getTasksByBlock now tz ts (task_timeBlock a)))
         (findIndex (hasId (over_id o))
                    (getTasksByBlock now tz ts (task_timeBlock a))).
Proof.
  intros Ho Ha Hot Hb Hne. unfold handleDragEnd.
  rewrite Ho, Ha, Hot, <- Hb, TimeBlock_eqb_refl.
  apply Z.eqb_neq in Hne. rewrite Hne. reflexivity.
Qed.

(** Whatever the event, a drop leaves the tasks as they were or reorders
    the lane of the dragged task. *)
Lemma handleDragEnd_cases (now tz : Z) (event : DragEvent) (ts : list Task) :
  handleDragEnd now tz event ts = ts
  \/ exists lane from to,
       handleDragEnd now tz event ts
       = filter (fun t => negb (inBlock lane t)) ts
         ++ arrayMove (filter (inBlock lane) ts) from to.
Proof.
  unfold handleDragEnd.
  destruct (over event) as [o |]; [| now left].
  destruct (findTask (active_id event) ts) as [a |]; [| now left].
  destruct (findTask (over_id o) ts) as [ot |]; [| now left].
  destruct (TimeBlock_eqb (task_timeBlock a) (task_timeBlock ot));
    [| now left].
  match goal with |- context [negb ?c] => destruct c end; simpl;
    [now left |].
  right. eexists _, _, _. reflexivity.
Qed.

Lemma handleDragEnd_Permutation (now tz : Z) (event : DragEvent)
      (ts : list Task) :
  Permutation ts (handleDragEnd now tz event ts).
Proof.
  destruct (handleDragEnd_cases now tz event ts) as [-> | [lane [f [t ->]]]].
  - apply Permutation_refl.
  - eapply perm_trans; [apply (filter_partition_Permutation (inBlock lane)) |].
    apply Permutation_app_head. apply arrayMove_Permutation.
Qed.

(** In a same-lane drop the removal index always hits a task of the lane:
    the index comes from the lane query, which is no longer than the
    lane's list, and the lane holds the dragged task. *)
Lemma handleDragEnd_indices (now tz : Z) (ts : list Task) (id : string)
      (a : Task) :
  findTask id ts = Some a ->
  let lane := filter (inBlock (task_timeBlock a)) ts in
  let from := findIndex (hasId id)
                (getTasksByBlock now tz ts (task_timeBlock a)) in
  nth_error lane (splice_start (Z.of_nat (length lane)) from) <> None.
Proof.
  intros Ha lane from.
  apply findTask_Some in Ha. destruct Ha as [Hin _].
  assert (Hlane : (0 < length lane)%nat).
  { assert (In a lane) as H.
    { apply filter_In. split; [exact Hin | apply TimeBlock_eqb_refl]. }
    destruct lane; [destruct H | simpl; lia]. }
  assert (Hfrom : -1 <= from < Z.of_nat (length lane)).
  { pose proof (findIndex_bounds (hasId id)
                  (getTasksByBlock now tz ts (task_timeBlock a))) as B.
    fold from in B. rewrite getTasksByBlock_filter in B.
    fold lane in B.
    pose proof (filter_length_le
                  (fun t => negb (shouldHideTask now tz t)) lane).
    lia. }
  apply nth_error_Some. unfold splice_start.
  destruct (Z.ltb_spec from 0); lia.
Qed.

Lemma moveToBlock_nth_error (id : string) (b : TimeBlock) (ts : list Task)
      (i : nat) (t : Task) :
  nth_error ts i = Some t ->
  nth_error (moveToBlock id b ts) i
  = Some (if String.eqb (task_id t) id then withTimeBlock b t else t).
Proof.
  intros H. unfold moveToBlock.
  rewrite nth_error_map, H. reflexivity.
Qed.

Lemma handleDragOver_cases (event : DragEvent) (ts : list Task) :
  handleDragOver event ts = ts
  \/ exists b, handleDragOver event ts = moveToBlock (active_id event) b ts.
Proof.
  unfold handleDragOver.
  destruct (over event) as [o |]; [| now left].
  destruct (findTask (active_id event) ts) as [a |]; [| now left].
  destruct (negb (is_active_container (over_containerId o)));
    destruct (TimeBlock_of_name (over_id o)) as [b |];
    try (destruct (findTask (over_id o) ts) as [ot |]; [| now left]);
    match goal with |- context [if negb ?c then _ else _] => destruct c end;
    simpl; try (now left); right; eexists; reflexivity.
Qed.

(** Drag and drop, in general. A drag over a lane container, or over a
    task of another lane,
    rewrites the timeBlock of the dragged task to the lane of the target
    and nothing else: the list keeps its length and order, the task keeps
    its id, title, categoryId, status, completedAt and createdAt, and a task
    with another id is untouched. A drop on a task of the same lane only
    reorders: the result is a rearrangement of the same tasks, every other
    lane keeps its list, and the list of the lane is the array move of the
    old list, from the index of the dragged task to the index of the
    target in the lane query (which is the lane's list itself when the lane
    holds no hidden task). *)
Theorem drag_changes_lane_or_order (now tz : Z) (event : DragEvent)
        (ts : list Task) :
  (handleDragOver event ts = ts
   \/ exists b, handleDragOver event ts = moveToBlock (active_id event) b ts)
  /\ (forall o a b,
        over event = Some o ->
        findTask (active_id event) ts = Some a ->
        is_active_container (over_containerId o) = false ->
        TimeBlock_of_name (over_id o) = Some b ->
        task_timeBlock a <> b ->
        handleDragOver event ts = moveToBlock (active_id event) b ts)
  /\ (forall o a ot,
        over event = Some o ->
        findTask (active_id event) ts = Some a ->
        is_active_container (over_containerId o) = true
        \/ TimeBlock_of_name (over_id o) = None ->
        findTask (over_id o) ts = Some ot ->
        task_timeBlock a <> task_timeBlock ot ->
        handleDragOver event ts
        = moveToBlock (active_id event) (task_timeBlock ot) ts)
  /\ (forall b,
        length (moveToBlock (active_id event) b ts) = length ts
        /\ forall i t, nth_error ts i = Some t ->
           exists t',
             nth_error (moveToBlock (active_id event) b ts) i = Some t'
             /\ task_id t' = task_id t
             /\ task_title t' = task_title t
             /\ task_categoryId t' = task_categoryId t
             /\ task_status t' = task_status t
             /\ task_completedAt t' = task_completedAt t
             /\ task_createdAt t' = task_createdAt t
             /\ (task_id t = active_id event -> task_timeBlock t' = b)
             /\ (task_id t <> active_id event -> t' = t))
  /\ Permutation ts (handleDragEnd now tz event ts)
  /\ (forall o a ot,
        over event = Some o ->
        findTask (active_id event) ts = Some a ->
        findTask (over_id o) ts = Some ot ->
        task_timeBlock a = task_timeBlock ot ->
        let lane := task_timeBlock a in
        let oldIndex :=
          findIndex (hasId (active_id event))
                    (getTasksByBlock now tz ts lane) in
        let newIndex :=
          findIndex (hasId (over_id o)) (getTasksByBlock now tz ts lane) in
        (oldIndex = newIndex -> handleDragEnd now tz event ts = ts)
        /\ (oldIndex <> newIndex ->
            filter (inBlock lane) (handleDragEnd now tz event ts)
            = arrayMove (filter (inBlock lane) ts) oldIndex newIndex
            /\ (forall b, b <> lane ->
                  filter (inBlock b) (handleDragEnd now tz event ts)
                  = filter (inBlock b) ts))
        /\ (0 <= oldIndex ->
            exists x, nth_error (getTasksByBlock now tz ts lane)
                                (Z.to_nat oldIndex) = Some x
                      /\ task_id x = active_id event)
        /\ (0 <= newIndex ->
            exists x, nth_error (getTasksByBlock now tz ts lane)
                                (Z.to_nat newIndex) = Some x
                      /\ task_id x = over_id o)
        /\ ((forall t, In t ts -> task_timeBlock t = lane ->
                       shouldHideTask now tz t = false) ->
            getTasksByBlock now tz ts lane = filter (inBlock lane) ts)).
Proof.
  split; [apply handleDragOver_cases |].
  split; [| split; [| split; [| split; [apply handleDragEnd_Permutation |]]]].
  - intros o a b Ho Ha Hc Hn Hb. unfold handleDragOver.
    rewrite Ho, Ha, Hc, Hn. simpl.
    destruct (TimeBlock_eqb (task_timeBlock a) b) eqn:E; [| reflexivity].
    apply TimeBlock_eqb_eq in E. contradiction.
  - intros o a ot Ho Ha Hc Hot Hb. unfold handleDragOver.
    rewrite Ho, Ha, Hot.
    assert (E : TimeBlock_eqb (task_timeBlock a) (task_timeBlock ot) = false).
    { destruct (TimeBlock_eqb (task_timeBlock a) (task_timeBlock ot)) eqn:E;
        [| reflexivity].
      apply TimeBlock_eqb_eq in E. contradiction. }
    rewrite E. destruct Hc as [Hc | Hc]; rewrite Hc; simpl.
    + reflexivity.
    + now destruct (negb (is_active_container (over_containerId o))).
  - intros b. split; [apply length_map |].
    intros i t Hi. eexists.
    split; [exact (moveToBlock_nth_error _ b ts i t Hi) |].
    destruct (String.eqb_spec (task_id t) (active_id event)) as [E|E];
      simpl; repeat split; trivial; intros; congruence.
  - intros o a ot Ho Ha Hot Hb lane oldIndex newIndex.
    split; [| split; [| split; [| split]]].
    + intros E. unfold handleDragEnd.
      rewrite Ho, Ha, Hot, <- Hb, TimeBlock_eqb_refl.
      fold lane. fold oldIndex. fold newIndex.
      apply Z.eqb_eq in E. rewrite E. reflexivity.
    + intros Hne.
      rewrite (handleDragEnd_same_lane now tz event ts o a ot Ho Ha Hot Hb Hne).
      fold lane. fold oldIndex. fold newIndex.
      assert (Hin : forall t,
                 In t (arrayMove (filter (inBlock lane) ts) oldIndex newIndex)
                 -> inBlock lane t = true).
      { intros t Ht.
        apply (Permutation_in t
                 (Permutation_sym (arrayMove_Permutation _ _ _))) in Ht.
        apply filter_In in Ht. tauto. }
      split.
      * rewrite filter_app, (filter_all _ _ Hin), filter_none.
        -- reflexivity.
        -- intros t Ht. apply filter_In in Ht.
           now apply negb_true_iff.
      * intros b Hbl. rewrite filter_app, filter_filter.
        rewrite (filter_none (inBlock b) (arrayMove _ _ _)).
        -- rewrite app_nil_r. apply filter_ext. intros t.
           destruct (inBlock lane t) eqn:E; simpl; [| reflexivity].
           now rewrite (inBlock_other b lane t Hbl E).
        -- intros t Ht. apply (inBlock_other b lane t Hbl). now apply Hin.
    + intros H0. destruct (findIndex_nth_error _ _ H0) as [x [Hx Px]].
      exists x. split; [exact Hx | now apply String.eqb_eq].
    + intros H0. destruct (findIndex_nth_error _ _ H0) as [x [Hx Px]].
      exists x. split; [exact Hx | now apply String.eqb_eq].
    + intros Hvis. rewrite getTasksByBlock_filter. apply filter_all.
      intros t Ht. apply filter_In in Ht. destruct Ht as [Ht Hl].
      apply inBlock_true in Hl. now rewrite (Hvis t Ht Hl).
Qed.

(** A drag of task "2" over the empty evening lane moves it there; a drop
    of task "1" on task "3" of the same lane puts "1" after "3". *)
Lemma drag_changes_lane_or_order_witness :
  let t1 := mkTask "1" "latte" "cat1" morning active None (Some 1) in
  let t2 := mkTask "2" "mocha" "cat1" afternoon active None (Some 2) in
  let t3 := mkTask "3" "scone" "cat2" morning active None (Some 3) in
  handleDragOver (mkDrag "2" (Some (mkOver "evening" None))) [t1; t2; t3]
  = [t1; mkTask "2" "mocha" "cat1" evening active None (Some 2); t3]
  /\ filter (inBlock morning)
       (handleDragEnd 1704196800000 (-480)
          (mkDrag "1" (Some (mkOver "3" (Some "morning")))) [t1; t2; t3])
     = [t3; t1]
  /\ filter (inBlock afternoon)
       (handleDragEnd 1704196800000 (-480)
          (mkDrag "1" (Some (mkOver "3" (Some "morning")))) [t1; t2; t3])
     = [t2].
Proof.
  intros t1 t2 t3.
  pose proof (drag_changes_lane_or_order 1704196800000 (-480)
                (mkDrag "2" (Some (mkOver "evening" None))) [t1; t2; t3])
    as [_ [Hover _]].
  pose proof (drag_changes_lane_or_order 1704196800000 (-480)
                (mkDrag "1" (Some (mkOver "3" (Some "morning"))))
                [t1; t2; t3])
    as [_ [_ [_ [_ [_ Hend]]]]].
  split.
  - apply (Hover (mkOver "evening" None) t2 evening);
      try reflexivity; discriminate.
  - destruct (Hend (mkOver "3" (Some "morning")) t1 t3
                eq_refl eq_refl eq_refl eq_refl) as [_ [Hmove _]].
    destruct Hmove as [Hlane Hothers]; [discriminate |].
    split; [exact Hlane |]. apply Hothers. discriminate.
Defined.

(** The indices of a drop are positions in the lane query. When the lane
    holds a hidden task in front of the dragged one, the move applies them
    to the lane's full list: here the drop of "1" on "3" moves the hidden
    task "0" and leaves the order of "1" and "3" as it was. *)
Example handleDragEnd_hidden_task_shifts_indices :
  let t0 := mkTask "0" "stale" "cat1" morning completed (Some 1704110400000)
              None in
  let t1 := mkTask "1" "latte" "cat1" morning active None (Some 1) in
  let t3 := mkTask "3" "scone" "cat2" morning active None (Some 3) in
  getTasksByBlock 1704196800000 (-480) [t0; t1; t3] morning = [t1; t3]
  /\ handleDragEnd 1704196800000 (-480)
       (mkDrag "1" (Some (mkOver "3" (Some "morning")))) [t0; t1; t3]
     = [t1; t0; t3].
Proof. split; reflexivity. Qed.

(** A drag over a target of the lane the task is in already leaves the
    list as it is. *)
Lemma handleDragOver_same_lane (event : DragEvent) (ts : list Task)
      (o : Over) (a : Task) :
  over event = Some o ->
  findTask (active_id event) ts = Some a ->
  (is_active_container (over_containerId o) = false
   /\ TimeBlock_of_name (over_id o) = Some (task_timeBlock a))
  \/ ((is_active_container (over_containerId o) = true
       \/ TimeBlock_of_name (over_id o) = None)
      /\ forall ot, findTask (over_id o) ts = Some ot ->
                    task_timeBlock ot = task_timeBlock a) ->
  handleDragOver event ts = ts.
Proof.
  intros Ho Ha H. unfold handleDragOver. rewrite Ho. cbv zeta. rewrite Ha.
  destruct H as [[Hc Hb] | [Hc Hot]].
  - rewrite Hc, Hb. cbn [negb]. now rewrite TimeBlock_eqb_refl.
  - assert (G : match findTask (over_id o) ts with
                | Some ot =>
                    if negb (TimeBlock_eqb (task_timeBlock a)
                               (task_timeBlock ot))
                    then moveToBlock (active_id event) (task_timeBlock ot) ts
                    else ts
                | None => ts
                end = ts).
    { destruct (findTask (over_id o) ts) as [ot |]; [| reflexivity].
      rewrite (Hot ot eq_refl). now rewrite TimeBlock_eqb_refl. }
    destruct Hc as [Hc | Hc]; rewrite Hc; cbn [negb]; [exact G |].
    destruct (negb (is_active_container (over_containerId o))); exact G.
Qed.

(** C5. The code at an input where it fails the claim. The morning lane
    holds a task that the board hides (task 0, completed the day before)
    in front of three cards 1, 2, 3, and card 3 is dropped on card 1. The
    two indices are taken in the list of the cards shown, where card 3 is
    at 2 and card 1 at 0, and are applied to the full list of the lane,
    where 2 is the position of card 2: card 2 is taken out and put in
    front, and the dragged card 3 stays where it was. On the board the
    cards 1, 2, 3 become 2, 1, 3. The array move that the claim describes,
    from the index of the dragged card to the index of the target in the
    lane's list, gives the hidden task and then the cards 3, 1, 2. *)
Theorem handleDragEnd_moves_another_card :
  getTasksByBlock 1704196800000 (-480)
    [mkTask "0" "stale" "cat1" morning completed (Some 1704110400000) None;
     mkTask "1" "latte" "cat1" morning active None (Some 1);
     mkTask "2" "mocha" "cat1" morning active None (Some 2);
     mkTask "3" "scone" "cat2" morning active None (Some 3)] morning
  = [mkTask "1" "latte" "cat1" morning active None (Some 1);
     mkTask "2" "mocha" "cat1" morning active None (Some 2);
     mkTask "3" "scone" "cat2" morning active None (Some 3)]
  /\ handleDragEnd 1704196800000 (-480)
       (mkDrag "3" (Some (mkOver "1" (Some "morning"))))
       [mkTask "0" "stale" "cat1" morning completed (Some 1704110400000)
          None;
        mkTask "1" "latte" "cat1" morning active None (Some 1);
        mkTask "2" "mocha" "cat1" morning active None (Some 2);
        mkTask "3" "scone" "cat2" morning active None (Some 3)]
     = [mkTask "2" "mocha" "cat1" morning active None (Some 2);
        mkTask "0" "stale" "cat1" morning completed (Some 1704110400000)
          None;
        mkTask "1" "latte" "cat1" morning active None (Some 1);
        mkTask "3" "scone" "cat2" morning active None (Some 3)]
  /\ getTasksByBlock 1704196800000 (-480)
       (handleDragEnd 1704196800000 (-480)
          (mkDrag "3" (Some (mkOver "1" (Some "morning"))))
          [mkTask "0" "stale" "cat1" morning completed (Some 1704110400000)
             None;
           mkTask "1" "latte" "cat1" morning active None (Some 1);
           mkTask "2" "mocha" "cat1" morning active None (Some 2);
           mkTask "3" "scone" "cat2" morning active None (Some 3)]) morning
     = [mkTask "2" "mocha" "cat1" morning active None (Some 2);
        mkTask "1" "latte" "cat1" morning active None (Some 1);
        mkTask "3" "scone" "cat2" morning active None (Some 3)]
  /\ arrayMove
       [mkTask "0" "stale" "cat1" morning completed (Some 1704110400000)
          None;
        mkTask "1" "latte" "cat1" morning active None (Some 1);
        mkTask "2" "mocha" "cat1" morning active None (Some 2);
        mkTask "3" "scone" "cat2" morning active None (Some 3)] 3 1
     = [mkTask "0" "stale" "cat1" morning completed (Some 1704110400000)
          None;
        mkTask "3" "scone" "cat2" morning active None (Some 3);
        mkTask "1" "latte" "cat1" morning active None (Some 1);
        mkTask "2" "mocha" "cat1" morning active None (Some 2)].
Proof. repeat split. Qed.

(** ** Import validation *)

Lemma Set_has_In (ids : list string) (id : string) :
  Set_has ids id = true <-> In id ids.
Proof.
  unfold Set_has. rewrite existsb_exists. split.
  - intros [x [Hx E]]. apply String.eqb_eq in E. now subst.
  - intros H. exists id. split; [exact H | apply String.eqb_refl].
Qed.

Lemma danglingErrors_cons (ids : list string) (k : nat) (t : Task)
      (r : list Task) :
  danglingErrors ids k (t :: r)
  = (if negb (Set_has ids (task_categoryId t))
     then [taskError k (task_categoryId t)] else [])
    ++ danglingErrors ids (S k) r.
Proof.
  unfold danglingErrors. cbn [length seq combine filter fst snd].
  now destruct (negb (Set_has ids (task_categoryId t))).
Qed.

(** On an array of records the [forEach] returns, with the entries of the
    tasks that name an unknown category. *)
Lemma taskErrors_records (ids : list string) (k : nat) (ts : list Task) :
  taskErrors ids k (map Some ts) = Some (danglingErrors ids k ts).
Proof.
  revert k. induction ts as [| t r IH]; intros k; [reflexivity |].
  cbn [map taskErrors]. now rewrite IH, danglingErrors_cons.
Qed.

Lemma categoryIds_records (cs : list Category) :
  categoryIds (map Some cs) = Some (map cat_id cs).
Proof.
  induction cs as [| c r IH]; [reflexivity |].
  cbn [map categoryIds]. now rewrite IH.
Qed.

(** A null entry makes either loop throw. *)
Lemma categoryIds_null (cs : list (option Category)) :
  categoryIds cs = None <-> In None cs.
Proof.
  induction cs as [| [c |] r IH]; cbn [categoryIds In].
  - split; [discriminate | intros []].
  - destruct (categoryIds r).
    + split; [discriminate |]. intros [H | H]; [discriminate |].
      apply IH in H. discriminate.
    + split; [| reflexivity]. intros _. right. now apply IH.
  - split; auto.
Qed.

Lemma taskErrors_null (ids : list string) (k : nat)
      (ts : list (option Task)) :
  taskErrors ids k ts = None <-> In None ts.
Proof.
  revert k. induction ts as [| [t |] r IH]; intros k; cbn [taskErrors In].
  - split; [discriminate | intros []].
  - specialize (IH (S k)). destruct (taskErrors ids (S k) r).
    + split; [discriminate |]. intros [H | H]; [discriminate |].
      apply IH in H. discriminate.
    + split; [| reflexivity]. intros _. right. now apply IH.
  - split; auto.
Qed.

Lemma recordsOnly_arrayOf {A : Type} (f : JsField A) :
  recordsOnly f = true <-> exists items, f = arrayOf items.
Proof.
  split.
  - destruct f as [| b | entries]; try discriminate. cbn [recordsOnly].
    intros H. induction entries as [| [a |] r IH]; cbn [forallb] in H;
      try discriminate.
    + now exists [].
    + destruct (IH H) as [items E]. injection E as ->.
      now exists (a :: items).
  - intros [items ->]. unfold arrayOf, recordsOnly.
    induction items as [| a r IH]; [reflexivity | exact IH].
Qed.

Lemma arrayOf_inj {A : Type} (l l' : list A) :
  arrayOf l = arrayOf l' -> l = l'.
Proof.
  unfold arrayOf. intros E. injection E as E. revert l' E.
  induction l as [| a r IH]; intros [| a' r'] E; try discriminate;
    [reflexivity |].
  cbn [map] in E. injection E as -> E. f_equal. now apply IH.
Qed.

Lemma danglingErrors_nil (ids : list string) (k : nat) (ts : list Task) :
  danglingErrors ids k ts = [] <->
  forall t, In t ts -> In (task_categoryId t) ids.
Proof.
  revert k. induction ts as [| t r IH]; intros k.
  - split; [intros _ x [] | reflexivity].
  - rewrite danglingErrors_cons.
    destruct (Set_has ids (task_categoryId t)) eqn:E; cbn [negb app].
    + apply Set_has_In in E. rewrite IH. split.
      * intros H x [<- | Hx]; auto.
      * intros H x Hx. apply H. now right.
    + split; [discriminate |].
      intros H. specialize (H t (or_introl eq_refl)).
      apply Set_has_In in H. congruence.
Qed.

Lemma danglingErrors_some (ids : list string) (k : nat) (ts : list Task) :
  danglingErrors ids k ts <> [] ->
  exists t, In t ts /\ ~ In (task_categoryId t) ids.
Proof.
  intros Hd.
  assert (N : ~ (forall t, In t ts -> In (task_categoryId t) ids)).
  { intros H. apply danglingErrors_nil with (k := k) in H. contradiction. }
  clear Hd. induction ts as [| x r IH].
  - exfalso. apply N. intros t [].
  - destruct (in_dec string_dec (task_categoryId x) ids) as [I|I].
    + destruct IH as [t [Ht Hd]].
      { intros H. apply N. intros t [<- | Ht]; auto. }
      exists t. split; [now right | exact Hd].
    + exists x. split; [now left | exact I].
Qed.

Lemma danglingErrors_In (ids : list string) (k i : nat) (ts : list Task)
      (t : Task) :
  nth_error ts i = Some t ->
  ~ In (task_categoryId t) ids ->
  In (taskError (k + i) (task_categoryId t)) (danglingErrors ids k ts).
Proof.
  revert k i. induction ts as [| x r IH]; intros k [| i] Hn Hd;
    simpl in Hn; try discriminate; rewrite danglingErrors_cons;
    apply in_or_app.
  - injection Hn as ->. left.
    destruct (Set_has ids (task_categoryId t)) eqn:E.
    + apply Set_has_In in E. contradiction.
    + rewrite Nat.add_0_r. now left.
  - right. replace (k + S i)%nat with (S k + i)%nat by lia. now apply IH.
Qed.

Lemma danglingErrors_entry (ids : list string) (k : nat) (ts : list Task)
      (e : string) :
  In e (danglingErrors ids k ts) ->
  exists i t, nth_error ts i = Some t /\ ~ In (task_categoryId t) ids
              /\ e = taskError (k + i) (task_categoryId t).
Proof.
  revert k. induction ts as [| x r IH]; intros k He; [destruct He |].
  rewrite danglingErrors_cons in He. apply in_app_or in He.
  destruct He as [He | He].
  - destruct (Set_has ids (task_categoryId x)) eqn:E; [destruct He |].
    destruct He as [<- | []]. exists 0%nat, x.
    split; [reflexivity |]. split; [| now rewrite Nat.add_0_r].
    intros I. apply Set_has_In in I. congruence.
  - destruct (IH (S k) He) as [i [t [Hn [Hd ->]]]].
    exists (S i), t. split; [exact Hn |]. split; [exact Hd |].
    f_equal. lia.
Qed.

(** On the payloads where the second check does not throw, what it does:
    tasks or categories are falsy and it is skipped, or both are arrays of
    records and it runs through. *)
Lemma validateImportData_returns (data : ExportData) :
  validation_throws data = false ->
  let errors3 :=
    pushIf (negb (field_truthy (exp_notes data))
            || negb (Array_isArray (exp_notes data)))
      "Missing or invalid notes"
      (pushIf (negb (field_truthy (exp_tasks data))
               || negb (Array_isArray (exp_tasks data)))
         "Missing or invalid tasks"
         (pushIf (negb (field_truthy (exp_categories data))
                  || negb (Array_isArray (exp_categories data)))
            "Missing or invalid categories" [])) in
  (field_truthy (exp_tasks data) && field_truthy (exp_categories data)
   = false
   /\ validateImportData data
      = Returned {| valid := (length errors3 =? 0)%nat; errors := errors3 |})
  \/ (exists cs ts,
        exp_categories data = arrayOf cs /\ exp_tasks data = arrayOf ts
        /\ validateImportData data
           = Returned
               {| valid :=
                    (length (errors3 ++ danglingErrors (map cat_id cs) 0 ts)
                     =? 0)%nat;
                  errors := errors3 ++ danglingErrors (map cat_id cs) 0 ts |}).
Proof.
  intros Hth errors3. unfold validation_throws in Hth.
  unfold validateImportData. cbv zeta. fold errors3.
  destruct (field_truthy (exp_tasks data)
            && field_truthy (exp_categories data)) eqn:Et;
    [| left; split; reflexivity].
  right. cbn [andb] in Hth. apply negb_false_iff, andb_true_iff in Hth.
  destruct Hth as [Ht Hc].
  apply recordsOnly_arrayOf in Ht. apply recordsOnly_arrayOf in Hc.
  destruct Ht as [ts Ht]. destruct Hc as [cs Hc].
  exists cs, ts. split; [exact Hc |]. split; [exact Ht |].
  rewrite Hc, Ht. unfold arrayOf.
  now rewrite categoryIds_records, taskErrors_records.
Qed.

Lemma length_eqb_0 {A : Type} (l : list A) :
  (length l =? 0)%nat = false <-> l <> [].
Proof.
  destruct l; simpl; split; try congruence; intros; discriminate.
Qed.

(** Where import validation returns, it does what the specification says.
    Unless tasks and categories are both truthy and one of them is not an
    array or holds a null entry, import validation returns; it then marks
    the payload invalid, with a non-empty error list, if and only if one of
    the three collections is missing or not an array or some task's
    categoryId is not among the ids of the supplied categories; and when
    tasks and categories are arrays, every task whose categoryId is absent
    from the categories has an entry in the error list, carrying its
    1-based position and that categoryId. *)
Lemma validateImportData_spec (data : ExportData) :
  validation_throws data = false ->
  exists errs,
    validateImportData data
    = Returned {| valid := (length errs =? 0)%nat; errors := errs |}
    /\ ((length errs =? 0)%nat = false <-> errs <> [])
    /\ (errs <> [] <-> malformed data \/ dangling_task data)
    /\ (forall cs ts i t,
          exp_categories data = arrayOf cs ->
          exp_tasks data = arrayOf ts ->
          nth_error ts i = Some t ->
          ~ In (task_categoryId t) (map cat_id cs) ->
          In (taskError i (task_categoryId t)) errs).
Proof.
  intros Hth.
  destruct (validateImportData_returns data Hth)
    as [[Hf E] | [cs [ts [Hc [Ht E]]]]]; cbv zeta in E;
    eexists; (split; [exact E |]); (split; [apply length_eqb_0 |]).
  - (* tasks or categories are falsy: the second check is skipped *)
    destruct data as [v e cats tks nts]. cbn [exp_categories exp_tasks
      exp_notes] in *. unfold malformed, dangling_task, arrayOf.
    cbn [exp_categories exp_tasks exp_notes].
    destruct cats as [| [] | cs]; destruct tks as [| [] | ts];
      try discriminate Hf;
      (split;
       [ split;
         [ intros _; left; cbn [Array_isArray]; auto
         | intros _; destruct nts as [| [] |]; cbn; discriminate ]
       | intros cs' ts' i t H1 H2; discriminate ]).
  - (* both are arrays of records *)
    destruct data as [v e cats tks nts]. cbn [exp_categories exp_tasks
      exp_notes] in *. subst cats tks.
    unfold malformed, dangling_task.
    cbn [exp_categories exp_tasks exp_notes field_truthy Array_isArray
         arrayOf negb orb pushIf].
    split.
    + split.
      * intros Hne.
        destruct (Array_isArray nts) eqn:En;
          [| left; right; right; reflexivity].
        right. exists cs, ts.
        assert (Hd : danglingErrors (map cat_id cs) 0 ts <> []).
        { intros Hd. apply Hne. rewrite Hd.
          destruct nts as [| [] |]; try discriminate En. reflexivity. }
        destruct (danglingErrors_some _ _ _ Hd) as [t [Ht Hn]].
        exists t. repeat split; trivial.
      * intros [[H | [H | H]] | [cs' [ts' [t [H1 [H2 [Ht Hd]]]]]]];
          try discriminate.
        -- destruct nts as [| [] |]; cbn in *; try discriminate;
             intros E'; apply app_eq_nil in E'; destruct E' as [E' _];
             discriminate.
        -- apply arrayOf_inj in H1. apply arrayOf_inj in H2. subst cs' ts'.
           intros E'. apply app_eq_nil in E'. destruct E' as [_ E'].
           rewrite danglingErrors_nil in E'. auto.
    + intros cs' ts' i t H1 H2 Hn Hd.
      apply arrayOf_inj in H1. apply arrayOf_inj in H2. subst cs' ts'.
      apply in_or_app. right.
      apply (danglingErrors_In (map cat_id cs) 0 i ts t Hn Hd).
Qed.

(** Two categories, three tasks; the second task names a category that
    is not supplied. *)
Lemma validateImportData_spec_witness :
  exists errs,
    validateImportData
      (mkExportData "1.0" "2024-01-02T12:00:00.000Z"
         (arrayOf DEFAULT_CATEGORIES)
         (arrayOf
            [mkTask "1" "latte" "cat1" morning active None (Some 1);
             mkTask "2" "mocha" "cat9" evening active None (Some 2);
             mkTask "3" "scone" "cat2" evening active None (Some 3)])
         (arrayOf []))
    = Returned {| valid := (length errs =? 0)%nat; errors := errs |}
    /\ In (taskError 1 "cat9") errs.
Proof.
  destruct (validateImportData_spec
              (mkExportData "1.0" "2024-01-02T12:00:00.000Z"
                 (arrayOf DEFAULT_CATEGORIES)
                 (arrayOf
                    [mkTask "1" "latte" "cat1" morning active None (Some 1);
                     mkTask "2" "mocha" "cat9" evening active None (Some 2);
                     mkTask "3" "scone" "cat2" evening active None (Some 3)])
                 (arrayOf [])) eq_refl) as [errs [E [_ [_ H]]]].
  exists errs. split; [exact E |].
  apply (H DEFAULT_CATEGORIES _ 1%nat
           (mkTask "2" "mocha" "cat9" evening active None (Some 2))
           eq_refl eq_refl eq_refl).
  simpl. intuition discriminate.
Defined.

Example validateImportData_messages :
  validateImportData
    (mkExportData "1.0" "2024-01-02T12:00:00.000Z"
       (arrayOf DEFAULT_CATEGORIES)
       (arrayOf
          [mkTask "1" "latte" "cat1" morning active None (Some 1);
           mkTask "2" "mocha" "cat9" evening active None (Some 2);
           mkTask "3" "scone" EmptyString evening active None (Some 3)])
       Missing)
  = Returned
      {| valid := false;
         errors :=
           ["Missing or invalid notes";
            ("Task 2 references non-existent category " ++ dquote ++ "cat9"
             ++ dquote)%string;
            ("Task 3 references non-existent category " ++ dquote
             ++ dquote)%string] |}.
Proof. reflexivity. Qed.

(** C3. The code at the inputs where it fails the claim. A payload whose
    tasks are a truthy value that is not an array (an object, say), next
    to an array of categories, has a collection that is not an array: the
    first check has pushed the entry for the tasks, and then the second
    check, guarded by the truthiness of tasks and categories only, calls
    [data.tasks.forEach] and throws, so nothing is returned. The sibling
    payload whose tasks are falsy (null) is answered as the claim says,
    with that entry. A payload whose tasks are an array holding null,
    which the JSON import lets through, throws in the same check. *)
Theorem validateImportData_throws :
  malformed (mkExportData "1.0" "2024-01-02T12:00:00.000Z"
               (arrayOf []) (NotArray true) (arrayOf []))
  /\ validateImportData
       (mkExportData "1.0" "2024-01-02T12:00:00.000Z"
          (arrayOf []) (NotArray true) (arrayOf []))
     = Threw "TypeError: data.tasks.forEach is not a function"
  /\ validateImportData
       (mkExportData "1.0" "2024-01-02T12:00:00.000Z"
          (arrayOf []) (NotArray false) (arrayOf []))
     = Returned {| valid := false; errors := ["Missing or invalid tasks"] |}
  /\ validateImportData
       (mkExportData "1.0" "2024-01-02T12:00:00.000Z"
          (arrayOf []) (IsArray [None]) (arrayOf []))
     = Threw "TypeError: Cannot read properties of null (reading 'categoryId')"
  /\ validateImportData
       (mkExportData "1.0" "2024-01-02T12:00:00.000Z"
          (IsArray [None]) (arrayOf []) (arrayOf []))
     = Threw "TypeError: Cannot read properties of null (reading 'id')".
Proof.
  split; [right; left; reflexivity |]. repeat split.
Qed.

(** ** The JSON codec reads back what it writes *)

Lemma parse_chars_escape_char (c : ascii) (tail : list ascii) :
  parse_chars (escape_char c ++ tail) = consTo c (parse_chars tail).
Proof.
  destruct c as [[] [] [] [] [] [] [] []]; reflexivity.
Qed.

Lemma parse_chars_escape (s : string) (rest : list ascii) :
  parse_chars (escape s ++ DQ :: rest) = Some (s, rest).
Proof.
  induction s as [| c r IH]; simpl escape.
  - reflexivity.
  - rewrite <- app_assoc, parse_chars_escape_char, IH. reflexivity.
Qed.

Lemma parse_chars_quote (s : string) (rest : list ascii) :
  parse_chars (escape s ++ [DQ] ++ rest) = Some (s, rest).
Proof. apply parse_chars_escape. Qed.

Lemma string_of_uint_num_chars (d : Decimal.uint) :
  forallb is_num_char (chars (NilEmpty.string_of_uint d)) = true.
Proof. induction d; simpl; trivial. Qed.

Lemma Z_toString_num_chars (n : Z) :
  forallb is_num_char (chars (Z_toString n)) = true.
Proof.
  unfold Z_toString. destruct (Z.to_int n) as [d | d]; simpl.
  - apply string_of_uint_num_chars.
  - apply string_of_uint_num_chars.
Qed.

Lemma span_num_app (l rest : list ascii) :
  forallb is_num_char l = true ->
  ends_number rest = true ->
  span_num (l ++ rest) = (l, rest).
Proof.
  intros Hl Hr. induction l as [| c r IH]; simpl in *.
  - destruct rest as [| c r]; [reflexivity |].
    simpl in Hr. apply andb_true_iff in Hr. destruct Hr as [Hr _].
    apply negb_true_iff in Hr. simpl. now rewrite Hr.
  - apply andb_true_iff in Hl. destruct Hl as [Hc Hl].
    rewrite Hc, (IH Hl). reflexivity.
Qed.

Lemma parse_number_print (n : Z) (rest : list ascii) :
  ends_number rest = true ->
  parse_number (chars (Z_toString n) ++ rest) = Some (n, rest).
Proof.
  intros Hr. unfold parse_number.
  rewrite (span_num_app _ _ (Z_toString_num_chars n) Hr).
  assert (Hf : starts_fraction rest = false).
  { destruct rest as [| c r]; [reflexivity |].
    simpl in Hr. apply andb_true_iff in Hr. destruct Hr as [_ Hr].
    now apply negb_true_iff in Hr. }
  rewrite Hf. unfold chars. rewrite string_of_list_ascii_of_string.
  unfold Z_toString at 1. rewrite NilEmpty.isi, DecimalZ.of_to.
  now rewrite String.eqb_refl.
Qed.

Lemma num_char_starts_value (c : ascii) (r : list ascii) :
  is_num_char c = true -> starts_value (c :: r) = true.
Proof.
  destruct c as [[] [] [] [] [] [] [] []]; simpl; intros H;
    try reflexivity; discriminate.
Qed.

Lemma string_of_uint_head (d : Decimal.uint) :
  d <> Decimal.Nil ->
  exists c r, NilEmpty.string_of_uint d = String c r.
Proof. destruct d; intros H; try congruence; simpl; eauto. Qed.

Lemma Z_toString_head (n : Z) : exists c r, Z_toString n = String c r.
Proof.
  unfold Z_toString. destruct n as [| p | p]; simpl.
  - eauto.
  - apply string_of_uint_head. apply DecimalPos.Unsigned.to_uint_nonnil.
  - eauto.
Qed.

Lemma print_value_starts (indent : nat) (v : json) (rest : list ascii) :
  starts_value (print_value indent v ++ rest) = true.
Proof.
  destruct v as [| [] | n | s | items | members]; try reflexivity.
  - simpl print_value. destruct (Z_toString_head n) as [c [r E]].
    pose proof (Z_toString_num_chars n) as H. rewrite E in *.
    simpl in H. apply andb_true_iff in H. destruct H as [H _].
    exact (num_char_starts_value c (chars r ++ rest) H).
  - simpl. now destruct (map _ items).
  - simpl. now destruct (map _ members).
Qed.

Lemma skip_ws_starts (s : list ascii) :
  starts_value s = true -> skip_ws s = s.
Proof.
  destruct s as [| c r]; simpl; [reflexivity |].
  destruct (is_ws c); simpl; [discriminate | reflexivity].
Qed.

Lemma skip_ws_newline_indent (n : nat) (s : list ascii) :
  skip_ws (newline_indent n ++ s) = skip_ws s.
Proof.
  unfold newline_indent. simpl. induction n as [| n IH]; simpl; trivial.
Qed.

Lemma skip_ws_print (n indent : nat) (v : json) (rest : list ascii) :
  skip_ws (newline_indent n ++ print_value indent v ++ rest)
  = print_value indent v ++ rest.
Proof.
  rewrite skip_ws_newline_indent. apply skip_ws_starts, print_value_starts.
Qed.

Lemma ends_number_newline (n : nat) (s : list ascii) :
  ends_number (newline_indent n ++ s) = true.
Proof. reflexivity. Qed.

Lemma parse_value_S (f : nat) (s : list ascii) :
  parse_value (S f) s
  = match s with
    | [] => None
    | c :: r =>
        if Ascii.eqb c "n"%char then literal "ull" JNull r
        else if Ascii.eqb c "t"%char then literal "rue" (JBool true) r
        else if Ascii.eqb c "f"%char then literal "alse" (JBool false) r
        else if Ascii.eqb c DQ then
          match parse_chars r with
          | Some (str, rest) => Some (JStr str, rest)
          | None => None
          end
        else if Ascii.eqb c "["%char then
          match skip_ws r with
          | [] => None
          | c' :: r' =>
              if Ascii.eqb c' "]"%char then Some (JArr [], r')
              else
                match parse_elements f (c' :: r') with
                | Some (items, rest) => Some (JArr items, rest)
                | None => None
                end
          end
        else if Ascii.eqb c "{"%char then
          match skip_ws r with
          | [] => None
          | c' :: r' =>
              if Ascii.eqb c' "}"%char then Some (JObj [], r')
              else
                match parse_members f (c' :: r') with
                | Some (members, rest) => Some (JObj members, rest)
                | None => None
                end
          end
        else
          match parse_number s with
          | Some (n, rest) => Some (JNum n, rest)
          | None => None
          end
    end.
Proof. reflexivity. Qed.

Lemma parse_elements_S (f : nat) (s : list ascii) :
  parse_elements (S f) s
  = match parse_value f s with
    | Some (v, rest) =>
        match skip_ws rest with
        | [] => None
        | c :: rest' =>
            if Ascii.eqb c ","%char then
              match parse_elements f (skip_ws rest') with
              | Some (vs, rest'') => Some (v :: vs, rest'')
              | None => None
              end
            else if Ascii.eqb c "]"%char then Some ([v], rest')
            else None
        end
    | None => None
    end.
Proof. reflexivity. Qed.

Lemma parse_members_S (f : nat) (s : list ascii) :
  parse_members (S f) s
  = match s with
    | [] => None
    | q :: r =>
        if Ascii.eqb q DQ then
          match parse_chars r with
          | Some (k, rest) =>
              match skip_ws rest with
              | [] => None
              | colon :: rest1 =>
                  if Ascii.eqb colon ":"%char then
                    match parse_value f (skip_ws rest1) with
                    | Some (v, rest2) =>
                        match skip_ws rest2 with
                        | [] => None
                        | c :: rest3 =>
                            if Ascii.eqb c ","%char then
                              match parse_members f (skip_ws rest3) with
                              | Some (ms, rest4) => Some ((k, v) :: ms, rest4)
                              | None => None
                              end
                            else if Ascii.eqb c "}"%char
                            then Some ([(k, v)], rest3)
                            else None
                        end
                    | None => None
                    end
                  else None
              end
          | None => None
          end
        else None
    end.
Proof. reflexivity. Qed.

Lemma print_more_cons (indent : nat) (y : list ascii)
      (r : list (list ascii)) (tail : list ascii) :
  print_more indent (y :: r) ++ tail
  = ","%char :: newline_indent indent ++ y ++ print_more indent r ++ tail.
Proof. simpl. now rewrite <- !app_assoc. Qed.

(** The items of an array, from the first one to the closing bracket. *)
Lemma parse_elements_print (indent n : nat) (r : list json) :
  Forall reads_back r ->
  forall (x : json) (rest : list ascii) (fuel : nat),
    reads_back x ->
    (items_size (x :: r) <= fuel)%nat ->
    parse_elements fuel
      (print_value indent x
       ++ print_more indent (map (print_value indent) r)
       ++ newline_indent n ++ "]"%char :: rest)
    = Some (x :: r, rest).
Proof.
  induction 1 as [| y r' Hy Hr IH]; intros x rest fuel Hx Hf;
    unfold items_size in Hf; simpl in Hf;
    (destruct fuel as [| f]; [lia |]); rewrite parse_elements_S.
  - simpl print_more. rewrite app_nil_l.
    rewrite (Hx indent _ f) by (try apply ends_number_newline; lia).
    rewrite skip_ws_newline_indent. reflexivity.
  - simpl map. rewrite print_more_cons.
    rewrite (Hx indent _ f) by (try reflexivity; lia).
    rewrite (skip_ws_starts (","%char :: _)) by reflexivity.
    rewrite Ascii.eqb_refl, skip_ws_print.
    rewrite (IH y rest f Hy); [reflexivity |].
    unfold items_size. simpl. lia.
Qed.

Lemma print_member_eq (indent : nat) (k : string) (p tail : list ascii) :
  print_member indent k p ++ tail
  = DQ :: escape k ++ [DQ] ++ ":"%char :: " "%char :: p ++ tail.
Proof.
  unfold print_member, quote. simpl. rewrite <- !app_assoc. reflexivity.
Qed.

Lemma parse_member_print (f indent : nat) (k : string) (x : json)
      (tail : list ascii) :
  reads_back x ->
  (json_size x <= f)%nat ->
  ends_number tail = true ->
  parse_members (S f)
    (print_member indent k (print_value (indent + 2) x) ++ tail)
  = match skip_ws tail with
    | [] => None
    | c :: rest3 =>
        if Ascii.eqb c ","%char then
          match parse_members f (skip_ws rest3) with
          | Some (ms, rest4) => Some ((k, x) :: ms, rest4)
          | None => None
          end
        else if Ascii.eqb c "}"%char then Some ([(k, x)], rest3)
        else None
    end.
Proof.
  intros Hx Hf Ht. rewrite parse_members_S, print_member_eq.
  rewrite Ascii.eqb_refl, parse_chars_quote.
  rewrite (skip_ws_starts (":"%char :: _)) by reflexivity.
  rewrite Ascii.eqb_refl.
  change (skip_ws (" "%char :: ?l)) with (skip_ws l).
  rewrite (skip_ws_starts _ (print_value_starts _ _ _)).
  rewrite (Hx (indent + 2)%nat tail f Hf Ht). reflexivity.
Qed.

(** The members of an object, from the first one to the closing brace. *)
Lemma parse_members_print (indent n : nat) (r : list (string * json)) :
  Forall (fun kv => reads_back (snd kv)) r ->
  forall (k : string) (x : json) (rest : list ascii) (fuel : nat),
    reads_back x ->
    (members_size ((k, x) :: r) <= fuel)%nat ->
    parse_members fuel
      (print_member indent k (print_value (indent + 2) x)
       ++ print_more (indent + 2)
            (map (fun kv =>
                    match kv with
                    | (k', x') =>
                        print_member indent k' (print_value (indent + 2) x')
                    end) r)
       ++ newline_indent n ++ "}"%char :: rest)
    = Some ((k, x) :: r, rest).
Proof.
  induction 1 as [| [k' y] r' Hy Hr IH]; intros k x rest fuel Hx Hf;
    unfold members_size in Hf; simpl in Hf;
    (destruct fuel as [| f]; [lia |]).
  - simpl print_more. rewrite app_nil_l.
    rewrite parse_member_print by (try apply ends_number_newline; trivial; lia).
    rewrite skip_ws_newline_indent. reflexivity.
  - simpl map. rewrite print_more_cons.
    rewrite parse_member_print by (try reflexivity; trivial; lia).
    rewrite (skip_ws_starts (","%char :: _)) by reflexivity.
    rewrite Ascii.eqb_refl, skip_ws_newline_indent.
    rewrite (skip_ws_starts (print_member _ _ _ ++ _)) by reflexivity.
    rewrite (IH k' y rest f Hy); [reflexivity |].
    unfold members_size. simpl. lia.
Qed.

Lemma num_char_dispatch (c : ascii) :
  is_num_char c = true ->
  Ascii.eqb c "n"%char = false /\ Ascii.eqb c "t"%char = false
  /\ Ascii.eqb c "f"%char = false /\ Ascii.eqb c DQ = false
  /\ Ascii.eqb c "["%char = false /\ Ascii.eqb c "{"%char = false.
Proof.
  destruct c as [[] [] [] [] [] [] [] []]; simpl; intros H;
    try discriminate; repeat split.
Qed.

Lemma parse_value_string (f : nat) (r : list ascii) :
  parse_value (S f) (DQ :: r)
  = match parse_chars r with
    | Some (str, rest) => Some (JStr str, rest)
    | None => None
    end.
Proof. reflexivity. Qed.

Lemma parse_value_array (f : nat) (r : list ascii) :
  starts_value (skip_ws r) = true ->
  parse_value (S f) ("["%char :: r)
  = match parse_elements f (skip_ws r) with
    | Some (items, rest) => Some (JArr items, rest)
    | None => None
    end.
Proof.
  intros H. rewrite parse_value_S.
  change (Ascii.eqb "["%char "n"%char) with false.
  change (Ascii.eqb "["%char "t"%char) with false.
  change (Ascii.eqb "["%char "f"%char) with false.
  change (Ascii.eqb "["%char DQ) with false.
  rewrite Ascii.eqb_refl. cbv iota.
  destruct (skip_ws r) as [| c' r']; [discriminate |].
  simpl in H. destruct (Ascii.eqb c' "]"%char); [| reflexivity].
  rewrite andb_false_r in H. discriminate.
Qed.

Lemma parse_value_object (f : nat) (r : list ascii) :
  starts_value (skip_ws r) = true ->
  parse_value (S f) ("{"%char :: r)
  = match parse_members f (skip_ws r) with
    | Some (members, rest) => Some (JObj members, rest)
    | None => None
    end.
Proof.
  intros H. rewrite parse_value_S.
  change (Ascii.eqb "{"%char "n"%char) with false.
  change (Ascii.eqb "{"%char "t"%char) with false.
  change (Ascii.eqb "{"%char "f"%char) with false.
  change (Ascii.eqb "{"%char DQ) with false.
  change (Ascii.eqb "{"%char "["%char) with false.
  rewrite Ascii.eqb_refl. cbv iota.
  destruct (skip_ws r) as [| c' r']; [discriminate |].
  simpl in H. destruct (Ascii.eqb c' "}"%char); [| reflexivity].
  rewrite andb_false_r in H. discriminate.
Qed.

Lemma print_block_cons (open close : ascii) (indent : nat) (x : list ascii)
      (r : list (list ascii)) (rest : list ascii) :
  print_block open close indent (x :: r) ++ rest
  = open :: newline_indent (indent + 2) ++ x
         ++ print_more (indent + 2) r
         ++ newline_indent indent ++ close :: rest.
Proof.
  unfold print_block. cbn [app]. f_equal.
  rewrite <- !app_assoc. reflexivity.
Qed.

(** Every value is read back from its printed form. *)
Lemma parse_value_print (v : json) : reads_back v.
Proof.
  induction v as [| b | n | s | items IH | members IH] using json_induction;
    intros indent rest fuel Hf Hr;
    (destruct fuel as [| f]; [simpl in Hf; lia |]).
  - reflexivity.
  - destruct b; reflexivity.
  - rewrite parse_value_S. simpl print_value.
    pose proof (parse_number_print n rest Hr) as Hn.
    destruct (Z_toString_head n) as [c [r E]].
    pose proof (Z_toString_num_chars n) as H.
    rewrite E in *. simpl in H. apply andb_true_iff in H.
    destruct H as [H _]. simpl chars in *. simpl app in *.
    destruct (num_char_dispatch c H) as [E1 [E2 [E3 [E4 [E5 E6]]]]].
    rewrite E1, E2, E3, E4, E5, E6, Hn. reflexivity.
  - simpl print_value. unfold quote. simpl app.
    rewrite parse_value_string, <- app_assoc, parse_chars_quote. reflexivity.
  - simpl print_value. destruct items as [| x r]; [reflexivity |].
    simpl map. rewrite print_block_cons.
    inversion IH as [| x' r' Hx Hr']; subst.
    rewrite parse_value_array; rewrite skip_ws_print;
      [| apply print_value_starts].
    rewrite (parse_elements_print (indent + 2) indent r Hr' x rest f Hx);
      [reflexivity |].
    unfold items_size. simpl in Hf |- *. lia.
  - simpl print_value. destruct members as [| [k x] r]; [reflexivity |].
    simpl map. rewrite print_block_cons.
    inversion IH as [| x' r' Hx Hr']; subst. simpl in Hx.
    rewrite parse_value_object; rewrite skip_ws_newline_indent;
      rewrite (skip_ws_starts (print_member _ _ _ ++ _)) by reflexivity;
      [| reflexivity].
    rewrite (parse_members_print indent indent r Hr' k x rest f Hx);
      [reflexivity |].
    unfold members_size. simpl in Hf |- *. lia.
Qed.

(** The fuel [JSON_parse] takes from the length of the text is enough. *)
Lemma length_newline_indent (n : nat) (s : list ascii) :
  length (newline_indent n ++ s) = (S n + length s)%nat.
Proof.
  unfold newline_indent. rewrite length_app. simpl.
  now rewrite repeat_length.
Qed.

Lemma items_size_le_length (indent : nat) (f : json -> list ascii)
      (r : list json) :
  Forall (fun v => (json_size v <= length (f v))%nat) r ->
  (items_size r <= length (print_more indent (map f r)))%nat.
Proof.
  unfold items_size, list_sum.
  induction 1 as [| y r' Hy Hr IH];
    cbn [map print_more list_sum fold_right length];
    [lia |].
  rewrite length_newline_indent, length_app. lia.
Qed.

Lemma json_size_le_length (v : json) :
  forall indent, (json_size v <= length (print_value indent v))%nat.
Proof.
  induction v as [| b | n | s | items IH | members IH] using json_induction;
    intros indent.
  - simpl. lia.
  - destruct b; simpl; lia.
  - simpl. destruct (Z_toString_head n) as [c [r ->]]. simpl. lia.
  - simpl. lia.
  - simpl print_value. destruct items as [| x r]; [simpl; lia |].
    inversion IH as [| x' r' Hx Hr']; subst.
    simpl map. rewrite <- (app_nil_r (print_block _ _ _ _)).
    rewrite print_block_cons. cbn [json_size map list_sum fold_right length].
    rewrite length_newline_indent, !length_app.
    pose proof (items_size_le_length (indent + 2)
                  (print_value (indent + 2)) r) as H.
    unfold items_size, list_sum in H. specialize (Hx (indent + 2)%nat).
    assert (Hall : Forall (fun v => (json_size v
                     <= length (print_value (indent + 2) v))%nat) r).
    { eapply Forall_impl; [| exact Hr']. intros a Ha. apply Ha. }
    specialize (H Hall). lia.
  - simpl print_value. destruct members as [| [k x] r]; [simpl; lia |].
    inversion IH as [| x' r' Hx Hr']; subst. simpl in Hx.
    simpl map. rewrite <- (app_nil_r (print_block _ _ _ _)).
    rewrite print_block_cons.
    cbn [json_size map list_sum fold_right length snd].
    rewrite length_newline_indent, !length_app.
    assert (Hm : (members_size r
                  <= length (print_more (indent + 2)
                       (map (fun kv : string * json =>
                               let (k0, x0) := kv in
                               print_member indent k0
                                 (print_value (indent + 2) x0)) r)))%nat).
    { clear - Hr'. unfold members_size, list_sum.
      induction Hr' as [| [k' y] r' Hy Hr IH];
        cbn [map print_more list_sum fold_right length snd]; [lia |].
      rewrite length_newline_indent, length_app.
      unfold print_member at 1. rewrite length_app. simpl length.
      simpl in Hy. specialize (Hy (indent + 2)%nat). lia. }
    unfold members_size, list_sum in Hm.
    unfold print_member at 1. rewrite length_app. simpl length.
    specialize (Hx (indent + 2)%nat). lia.
Qed.

(** [JSON.parse(JSON.stringify(v, null, 2))] is [v]. *)
Lemma JSON_parse_stringify (v : json) :
  JSON_parse (JSON_stringify v) = Some v.
Proof.
  unfold JSON_parse, JSON_stringify, chars.
  rewrite list_ascii_of_string_of_list_ascii.
  pose proof (print_value_starts 0 v []) as Hs. rewrite app_nil_r in Hs.
  rewrite (skip_ws_starts _ Hs).
  pose proof (parse_value_print v 0%nat [] (S (length (print_value 0 v))))
    as H.
  rewrite app_nil_r in H. rewrite H; [reflexivity | | reflexivity].
  pose proof (json_size_le_length v 0). lia.
Qed.

(** ** Export, then import *)

Lemma ColorTheme_name_inj (a b : ColorTheme) :
  ColorTheme_name a = ColorTheme_name b -> a = b.
Proof. destruct a, b; simpl; intros H; try reflexivity; discriminate. Qed.

Lemma TimeBlock_name_inj (a b : TimeBlock) :
  TimeBlock_name a = TimeBlock_name b -> a = b.
Proof. destruct a, b; simpl; intros H; try reflexivity; discriminate. Qed.

Lemma TaskStatus_name_inj (a b : TaskStatus) :
  TaskStatus_name a = TaskStatus_name b -> a = b.
Proof. destruct a, b; simpl; intros H; try reflexivity; discriminate. Qed.

Lemma json_of_category_inj (a b : Category) :
  json_of_category a = json_of_category b -> a = b.
Proof.
  destruct a, b. unfold json_of_category. simpl. intros H.
  injection H as -> -> -> H. apply ColorTheme_name_inj in H. now subst.
Qed.

Lemma json_of_note_inj (a b : Note) :
  json_of_note a = json_of_note b -> a = b.
Proof.
  destruct a, b. unfold json_of_note. simpl. intros H.
  injection H as -> -> -> H. apply ColorTheme_name_inj in H. now subst.
Qed.

Lemma json_of_task_inj (a b : Task) :
  json_of_task a = json_of_task b -> a = b.
Proof.
  destruct a as [i1 t1 c1 b1 s1 [d1 |] [r1 |]];
    destruct b as [i2 t2 c2 b2 s2 [d2 |] [r2 |]];
    unfold json_of_task; simpl; intros H; try discriminate;
    injection H; intros; subst;
    repeat match goal with
           | E : TimeBlock_name _ = TimeBlock_name _ |- _ =>
               apply TimeBlock_name_inj in E
           | E : TaskStatus_name _ = TaskStatus_name _ |- _ =>
               apply TaskStatus_name_inj in E
           end; subst; reflexivity.
Qed.

Lemma map_inj {A B : Type} (f : A -> B) (l l' : list A) :
  (forall x y, f x = f y -> x = y) -> map f l = map f l' -> l = l'.
Proof.
  intros Hf. revert l'. induction l as [| x r IH]; intros [| y r'] H;
    simpl in H; try discriminate; [reflexivity |].
  injection H as H1 H2. f_equal; [now apply Hf | now apply IH].
Qed.

Lemma importDataFromJSON_export (isoNow isoNow' : string)
      (cats tks nts : list json) :
  importDataFromJSON
    (download_content (exportDataAsJSON isoNow isoNow' cats tks nts))
  = Returned (JObj [("version", JStr "1.0");
                    ("exportedAt", JStr isoNow);
                    ("categories", JArr cats);
                    ("tasks", JArr tks);
                    ("notes", JArr nts)]).
Proof.
  unfold importDataFromJSON, exportDataAsJSON.
  simpl download_content. rewrite JSON_parse_stringify. reflexivity.
Qed.

(** C4. Whatever the three lists hold, the file written by the JSON
    export is accepted by the JSON import, and the value the import resolves
    to carries the same categories, tasks and notes, item for item and
    property for property in the same order, so that they serialise to the
    same bytes, whenever the export was made; the version and the export
    timestamp are carried as well. In particular the categories, tasks and
    notes of the planner come back as they were. *)
Theorem export_import_roundtrip (isoNow isoNow' : string)
        (cats tks nts : list json) :
  exists data,
    importDataFromJSON
      (download_content (exportDataAsJSON isoNow isoNow' cats tks nts))
    = Returned data
    /\ js_get "categories" data = Some (JArr cats)
    /\ js_get "tasks" data = Some (JArr tks)
    /\ js_get "notes" data = Some (JArr nts)
    /\ js_get "version" data = Some (JStr "1.0")
    /\ js_get "exportedAt" data = Some (JStr isoNow)
    /\ (forall isoLater isoLater',
          exists data',
            importDataFromJSON
              (download_content
                 (exportDataAsJSON isoLater isoLater' cats tks nts))
            = Returned data'
            /\ js_get "categories" data' = js_get "categories" data
            /\ js_get "tasks" data' = js_get "tasks" data
            /\ js_get "notes" data' = js_get "notes" data)
    /\ (forall (cs cs' : list Category) (ts ts' : list Task)
               (ns ns' : list Note),
          cats = map json_of_category cs ->
          tks = map json_of_task ts ->
          nts = map json_of_note ns ->
          js_get "categories" data = Some (JArr (map json_of_category cs')) ->
          js_get "tasks" data = Some (JArr (map json_of_task ts')) ->
          js_get "notes" data = Some (JArr (map json_of_note ns')) ->
          cs' = cs /\ ts' = ts /\ ns' = ns).
Proof.
  eexists. split; [apply importDataFromJSON_export |].
  do 5 (split; [reflexivity |]). split.
  - intros l l'. eexists. split; [apply importDataFromJSON_export |].
    repeat split.
  - intros cs cs' ts ts' ns ns' -> -> -> Hc Ht Hn.
    injection Hc as Hc. injection Ht as Ht. injection Hn as Hn.
    repeat split; symmetry.
    + exact (map_inj _ _ _ json_of_category_inj Hc).
    + exact (map_inj _ _ _ json_of_task_inj Ht).
    + exact (map_inj _ _ _ json_of_note_inj Hn).
Qed.

(** The seeded categories, a completed task and a note, through a file. *)
Lemma export_import_roundtrip_witness :
  exists data,
    importDataFromJSON
      (download_content
         (exportDataAsJSON "2024-01-02T12:00:00.000Z"
            "2024-01-02T12:00:00.001Z"
            (map json_of_category DEFAULT_CATEGORIES)
            (map json_of_task
               [mkTask "1704196800000" "latte" "cat1" morning completed
                  (Some 1704196800123) (Some 1704196800000)])
            (map json_of_note [mkNote "1704196800500" "beans" 1704196800500
                                 sky])))
    = Returned data
    /\ js_get "tasks" data
       = Some (JArr (map json_of_task
                       [mkTask "1704196800000" "latte" "cat1" morning
                          completed (Some 1704196800123)
                          (Some 1704196800000)])).
Proof.
  destruct (export_import_roundtrip "2024-01-02T12:00:00.000Z"
              "2024-01-02T12:00:00.001Z"
              (map json_of_category DEFAULT_CATEGORIES)
              (map json_of_task
                 [mkTask "1704196800000" "latte" "cat1" morning completed
                    (Some 1704196800123) (Some 1704196800000)])
              (map json_of_note [mkNote "1704196800500" "beans"
                                   1704196800500 sky]))
    as [data [H1 [_ [H3 _]]]].
  exists data. split; [exact H1 | exact H3].
Defined.

(** A task whose title holds a quote, a backslash and a line break, a
    category with a non-ASCII label and icon, and no note. *)
Example export_import_example :
  let cats := [JObj [("id", JStr "cat1"); ("label", JStr "默认分区1");
                     ("icon", JStr "📚"); ("theme", JStr "amber")]] in
  let tks := [JObj [("id", JStr "1704196800000");
                    ("title",
                     JStr (String DQ (String BACKSLASH (String LF "x"))));
                    ("categoryId", JStr "cat1");
                    ("timeBlock", JStr "morning");
                    ("status", JStr "completed");
                    ("createdAt", JNum 1704196800000);
                    ("completedAt", JNum 1704196800123)]] in
  let file := exportDataAsJSON "2024-01-02T12:00:00.000Z"
                               "2024-01-02T12:00:00.001Z" cats tks [] in
  download_name file = "cafe-planner-backup-2024-01-02.json"
  /\ importDataFromJSON (download_content file)
     = Returned (JObj [("version", JStr "1.0");
                       ("exportedAt", JStr "2024-01-02T12:00:00.000Z");
                       ("categories", JArr cats);
                       ("tasks", JArr tks);
                       ("notes", JArr [])]).
Proof. split; vm_compute; reflexivity. Qed.

(** The import rejects a file without a tasks array, and a file that is
    not JSON. *)
Example importDataFromJSON_rejects :
  importDataFromJSON
    (JSON_stringify (JObj [("categories", JArr []); ("notes", JArr [])]))
  = Threw "Invalid data format: missing or invalid tasks"
  /\ importDataFromJSON "[1, 2" = Threw "SyntaxError"
  /\ importDataFromJSON "null"
     = Threw "TypeError: Cannot read properties of null".
Proof. repeat split; vm_compute; reflexivity. Qed.

(* ================================================================== *)
(** * Part II, continued. Further properties of the code               *)
(* ================================================================== *)

(** ** Ids along every handler *)

Lemma filter_keeps_distinct {A : Type} (key : A -> string)
      (keep : A -> bool) (items : list A) :
  NoDup (map key items) -> NoDup (map key (filter keep items)).
Proof.
  induction items as [| x r IH]; simpl; intros H; [constructor |].
  inversion H as [| y l' Hn Hr]; subst.
  destruct (keep x); simpl; [| now apply IH].
  constructor; [| now apply IH].
  intros Hin. apply Hn. apply in_map_iff in Hin.
  destruct Hin as [z [E Hz]]. apply filter_In in Hz.
  apply in_map_iff. exists z. tauto.
Qed.

Lemma NoDup_app_single {A : Type} (l : list A) (x : A) :
  NoDup (l ++ [x]) <-> NoDup l /\ ~ In x l.
Proof.
  split.
  - intros H. split.
    + now apply NoDup_app_remove_r in H.
    + apply NoDup_remove_2 in H. now rewrite app_nil_r in H.
  - intros [H1 H2]. apply NoDup_app; trivial.
    + repeat constructor. intros [].
    + intros a Ha [<- | []]. contradiction.
Qed.

Lemma sortNotes_ids (l : list Note) :
  Permutation (map note_id l) (map note_id (sortNotes l)).
Proof. apply Permutation_map, sortNotes_Permutation. Qed.

Lemma handleToggleStatus_ids (now : Z) (id : string) (l : list Task) :
  map task_id (handleToggleStatus now id l) = map task_id l.
Proof.
  unfold handleToggleStatus. rewrite map_map. apply map_ext.
  intros t. now destruct (String.eqb (task_id t) id).
Qed.

Lemma moveToBlock_ids (id : string) (b : TimeBlock) (l : list Task) :
  map task_id (moveToBlock id b l) = map task_id l.
Proof.
  unfold moveToBlock. rewrite map_map. apply map_ext.
  intros t. now destruct (String.eqb (task_id t) id).
Qed.

Lemma handleDragOver_ids (ev : DragEvent) (l : list Task) :
  map task_id (handleDragOver ev l) = map task_id l.
Proof.
  destruct (handleDragOver_cases ev l) as [-> | [b ->]];
    [reflexivity | apply moveToBlock_ids].
Qed.

Lemma migrateTaskData_ids (now : Z) (l : list Task) :
  map task_id (migrateTaskData now l) = map task_id l.
Proof.
  unfold migrateTaskData. rewrite map_map. apply map_ext.
  intros t. now destruct (negb (js_truthy_num (task_createdAt t))).
Qed.

(** X1. Ids stay unique along every handler: an action on a state whose
    ids are unique within each collection leaves them unique, provided a
    create operation takes an id its collection does not hold yet and a
    load or an import brings lists without repeated ids, whichever calls of
    the store resolve; for a create operation that condition is also
    necessary. *)
Theorem step_ids_unique (a : Action) (s : AppState) :
  ids_unique s ->
  (brings_fresh_ids a s -> ids_unique (step a s))
  /\ (is_create a = true -> ids_unique (step a s) -> brings_fresh_ids a s).
Proof.
  intros [Hc [Ht Hn]]. split.
  - intros Hf. unfold ids_unique.
    destruct a; cbn [step brings_fresh_ids] in *.
    + (* Init: each list is the one of the state or the one loaded *)
      destruct Hf as [F1 [F2 F3]].
      assert (D : NoDup (map cat_id
                           (if (length storedCats =? 0)%nat
                            then DEFAULT_CATEGORIES else storedCats))).
      { destruct (length storedCats =? 0)%nat; [| exact F1].
        simpl. repeat constructor; simpl; intuition discriminate. }
      assert (M : NoDup (map task_id (migrateTaskData now storedTasks)))
        by now rewrite migrateTaskData_ids.
      assert (S : NoDup (map note_id (sortNotes storedNotes)))
        by (eapply Permutation_NoDup; [apply sortNotes_ids | exact F3]).
      destruct (initData_cases now resolves storedCats storedTasks
                  storedNotes s) as [E | [E | [E | E]]];
        rewrite E; cbn [categories tasks quickNotes]; auto.
    + simpl. rewrite handleToggleStatus_ids. auto.
    + simpl in *. rewrite map_app. simpl. repeat split; trivial.
      now apply NoDup_app_single.
    + simpl. repeat split; trivial. rewrite map_map.
      erewrite map_ext; [exact Ht |].
      intros t. now destruct (String.eqb (task_id t) id).
    + simpl. repeat split; trivial. now apply filter_keeps_distinct.
    + simpl in *. rewrite map_app. simpl. repeat split; trivial.
      now apply NoDup_app_single.
    + simpl. repeat split; trivial. rewrite map_map.
      erewrite map_ext; [exact Hc |].
      intros c. now destruct (String.eqb (cat_id c) id).
    + simpl. repeat split; trivial. now apply filter_keeps_distinct.
    + simpl in *. repeat split; trivial. constructor; assumption.
    + simpl. repeat split; trivial. now apply filter_keeps_distinct.
    + (* ImportData: the lists of the state, or the lists imported *)
      destruct Hf as [F1 [F2 F3]].
      destruct (handleImportData_cases now resolves newCategories newTasks
                  newNotes s) as [[_ E] | [_ E]];
        rewrite E; cbn [categories tasks quickNotes]; auto.
      repeat split; trivial.
      * rewrite map_map. simpl. exact F2.
      * eapply Permutation_NoDup; [apply sortNotes_ids | exact F3].
    + simpl. rewrite handleDragOver_ids. auto.
    + simpl. repeat split; trivial.
      eapply Permutation_NoDup; [| exact Ht].
      apply Permutation_map, handleDragEnd_Permutation.
  - intros Hcr [Hc' [Ht' Hn']].
    destruct a; try discriminate; simpl in *.
    + rewrite map_app in Ht'. simpl in Ht'.
      now apply NoDup_app_single in Ht'.
    + rewrite map_app in Hc'. simpl in Hc'.
      now apply NoDup_app_single in Hc'.
    + now inversion Hn'.
Qed.

(** Ids stay unique through a toggle, a drop and a fresh create. *)
Lemma step_ids_unique_witness :
  ids_unique
    (step (AddTask 1704196800007 1704196800007 "mocha" "cat2" evening)
       (step (DragEnd 1704196800000 (-480)
                (mkDrag "1" (Some (mkOver "3" None))))
          (mkState DEFAULT_CATEGORIES
             [mkTask "1" "latte" "cat1" morning active None (Some 1);
              mkTask "3" "scone" "cat2" morning active None (Some 3)] []))).
Proof.
  assert (H0 : ids_unique
                 (mkState DEFAULT_CATEGORIES
                    [mkTask "1" "latte" "cat1" morning active None (Some 1);
                     mkTask "3" "scone" "cat2" morning active None (Some 3)]
                    [])).
  { unfold ids_unique. simpl.
    repeat split; repeat constructor; simpl; intuition discriminate. }
  pose proof (proj1 (step_ids_unique
                       (DragEnd 1704196800000 (-480)
                          (mkDrag "1" (Some (mkOver "3" None)))) _ H0) I)
    as H1.
  apply (proj1 (step_ids_unique
                  (AddTask 1704196800007 1704196800007 "mocha" "cat2" evening)
                  _ H1)).
  simpl. intuition discriminate.
Defined.

(** ** What the completion percentage depends on *)

Lemma Permutation_filter_length {A : Type} (p : A -> bool) (l l' : list A) :
  Permutation l l' -> length (filter p l) = length (filter p l').
Proof.
  induction 1 as [| x l l' _ IH | x y l | l l' l'' _ IH1 _ IH2]; simpl.
  - reflexivity.
  - destruct (p x); simpl; now rewrite IH.
  - destruct (p x), (p y); reflexivity.
  - now rewrite IH1.
Qed.

Lemma map_filter_length {A : Type} (p : A -> bool) (f : A -> A)
      (l : list A) :
  (forall x, p (f x) = p x) ->
  length (filter p (map f l)) = length (filter p l).
Proof.
  intros H. induction l as [| x r IH]; simpl; [reflexivity |].
  rewrite H. destruct (p x); simpl; now rewrite IH.
Qed.

Lemma shouldHideTask_ext (now tz : Z) (t t' : Task) :
  task_status t' = task_status t ->
  task_completedAt t' = task_completedAt t ->
  shouldHideTask now tz t' = shouldHideTask now tz t.
Proof. intros H1 H2. unfold shouldHideTask. now rewrite H1, H2. Qed.

(** The percentage is a function of two counts. *)
Lemma calculateProgress_counts (fl : Q -> Q) (now tz : Z) (l l' : list Task) :
  length (visibleTasks now tz l') = length (visibleTasks now tz l) ->
  completedCount (visibleTasks now tz l')
  = completedCount (visibleTasks now tz l) ->
  calculateProgress fl now tz l' = calculateProgress fl now tz l.
Proof.
  intros H1 H2. unfold calculateProgress. cbv zeta. now rewrite H1, H2.
Qed.

Lemma completedCount_visible (now tz : Z) (l : list Task) :
  completedCount (visibleTasks now tz l)
  = length (filter (fun t => negb (shouldHideTask now tz t)
                             && TaskStatus_eqb (task_status t) completed) l).
Proof. unfold completedCount, visibleTasks. now rewrite filter_filter. Qed.

Lemma calculateProgress_Permutation (fl : Q -> Q) (now tz : Z)
      (l l' : list Task) :
  Permutation l l' ->
  calculateProgress fl now tz l' = calculateProgress fl now tz l.
Proof.
  intros H. apply Permutation_sym in H.
  apply calculateProgress_counts.
  - unfold visibleTasks. now apply Permutation_filter_length.
  - rewrite !completedCount_visible. now apply Permutation_filter_length.
Qed.

Lemma calculateProgress_map (fl : Q -> Q) (now tz : Z) (f : Task -> Task)
      (l : list Task) :
  (forall t, task_status (f t) = task_status t) ->
  (forall t, task_completedAt (f t) = task_completedAt t) ->
  calculateProgress fl now tz (map f l) = calculateProgress fl now tz l.
Proof.
  intros H1 H2. apply calculateProgress_counts.
  - unfold visibleTasks. apply map_filter_length.
    intros t. f_equal. now apply shouldHideTask_ext.
  - rewrite !completedCount_visible. apply map_filter_length.
    intros t. rewrite H1. f_equal. f_equal. now apply shouldHideTask_ext.
Qed.

(** X2. The completion percentage only moves when tasks are toggled,
    added, deleted or replaced: editing a task, dragging a task over a lane
    or a task, dropping it, and every category and note operation leave it
    exactly as it was, at every clock reading and on every host. *)
Theorem step_keeps_progress (fl : Q -> Q) (now tz : Z) (a : Action)
        (s : AppState) :
  keeps_completion a = true ->
  calculateProgress fl now tz (tasks (step a s))
  = calculateProgress fl now tz (tasks s).
Proof.
  intros Hk. destruct a; try discriminate; simpl; trivial.
  - apply calculateProgress_map; intros t;
      now destruct (String.eqb (task_id t) id).
  - destruct (handleDragOver_cases event (tasks s)) as [-> | [b ->]];
      [reflexivity |].
    apply calculateProgress_map; intros t;
      now destruct (String.eqb (task_id t) (active_id event)).
  - apply calculateProgress_Permutation, handleDragEnd_Permutation.
Qed.

Lemma step_keeps_progress_witness :
  calculateProgress (fun q => q) 1704196800000 (-480)
    (tasks (step (UpdateTask 5 "2" "flat white" "cat2" morning)
              (mkState DEFAULT_CATEGORIES
                 [mkTask "2" "mocha" "cat1" evening completed
                    (Some 1704139200000) None;
                  mkTask "3" "scone" "cat2" evening active None None] [])))
  = calculateProgress (fun q => q) 1704196800000 (-480)
      [mkTask "2" "mocha" "cat1" evening completed (Some 1704139200000) None;
       mkTask "3" "scone" "cat2" evening active None None].
Proof.
  apply (step_keeps_progress (fun q => q) 1704196800000 (-480)
           (UpdateTask 5 "2" "flat white" "cat2" morning)
           (mkState DEFAULT_CATEGORIES
              [mkTask "2" "mocha" "cat1" evening completed
                 (Some 1704139200000) None;
               mkTask "3" "scone" "cat2" evening active None None] [])).
  reflexivity.
Defined.

(** ** The three lanes *)

Lemma getTasksByBlock_visible (now tz : Z) (ts : list Task) (b : TimeBlock) :
  getTasksByBlock now tz ts b = filter (inBlock b) (visibleTasks now tz ts).
Proof.
  unfold getTasksByBlock, visibleTasks. rewrite filter_filter.
  apply filter_ext. intros t. unfold inBlock. apply andb_comm.
Qed.

Lemma lanes_Permutation (l : list Task) :
  Permutation l (filter (inBlock morning) l ++ filter (inBlock afternoon) l
                 ++ filter (inBlock evening) l).
Proof.
  induction l as [| t r IH]; [apply perm_nil |].
  cbn [filter].
  assert (E : forall b, inBlock b t = TimeBlock_eqb (task_timeBlock t) b)
    by reflexivity.
  rewrite !E. destruct (task_timeBlock t); cbn [TimeBlock_eqb app].
  - now apply perm_skip.
  - now apply Permutation_cons_app.
  - rewrite app_assoc. apply Permutation_cons_app.
    now rewrite <- app_assoc.
Qed.

(** X3. The three lane queries split the visible tasks: together they
    hold every visible task exactly once and nothing else, each task in the
    lane of its timeBlock, in the order of the task list; a hidden task is
    in no lane. *)
Theorem lanes_partition_visible (now tz : Z) (ts : list Task) :
  Permutation (visibleTasks now tz ts)
    (getTasksByBlock now tz ts morning
     ++ getTasksByBlock now tz ts afternoon
     ++ getTasksByBlock now tz ts evening)
  /\ (length (getTasksByBlock now tz ts morning)
      + length (getTasksByBlock now tz ts afternoon)
      + length (getTasksByBlock now tz ts evening)
      = length (visibleTasks now tz ts))%nat
  /\ (forall b, getTasksByBlock now tz ts b
                = filter (inBlock b) (visibleTasks now tz ts))
  /\ (forall t b, In t (getTasksByBlock now tz ts b) ->
                  task_timeBlock t = b /\ shouldHideTask now tz t = false)
  /\ (forall t, In t ts -> shouldHideTask now tz t = true ->
                forall b, ~ In t (getTasksByBlock now tz ts b)).
Proof.
  pose proof (lanes_Permutation (visibleTasks now tz ts)) as HP.
  rewrite <- !getTasksByBlock_visible in HP.
  split; [exact HP |]. split.
  - apply Permutation_length in HP. rewrite !length_app in HP. lia.
  - split; [apply getTasksByBlock_visible |]. split.
    + intros t b H. apply getTasksByBlock_In in H. tauto.
    + intros t Ht Hh b H. apply getTasksByBlock_In in H.
      destruct H as [_ [_ H]]. congruence.
Qed.

Lemma lanes_partition_visible_witness :
  ~ In (mkTask "1" "latte" "cat1" morning completed (Some 1704110400000)
          None)
       (getTasksByBlock 1704196800000 (-480)
          [mkTask "1" "latte" "cat1" morning completed (Some 1704110400000)
             None;
           mkTask "3" "scone" "cat2" evening active None None]
          morning).
Proof.
  destruct (lanes_partition_visible 1704196800000 (-480)
              [mkTask "1" "latte" "cat1" morning completed
                 (Some 1704110400000) None;
               mkTask "3" "scone" "cat2" evening active None None])
    as [_ [_ [_ [_ H]]]].
  apply (H (mkTask "1" "latte" "cat1" morning completed (Some 1704110400000)
              None)); [left; reflexivity | reflexivity].
Defined.

(** ** Completing a task and the day start *)





(** The bound on the host offset is needed: on a host at UTC+9, at 23:30
    local time (14:30Z), the day start of the code is the next local
    midnight, and a task completed now is hidden at once. *)
Example completed_now_hidden_east_of_utc8 :
  getBeijingTodayStart 1704205800000 (-540) = 1704207600000
  /\ getTasksByBlock 1704205800000 (-540)
       (handleToggleStatus 1704205800000 "3"
          [mkTask "3" "scone" "cat2" evening active None None]) evening
     = [].
Proof. split; reflexivity. Qed.

(** ** Missing createdAt: migration and import *)

Lemma migrateTaskData_nth (now : Z) (l : list Task) (i : nat) (t : Task) :
  nth_error l i = Some t ->
  nth_error (migrateTaskData now l) i
  = Some {| task_id := task_id t;
            task_title := task_title t;
            task_categoryId := task_categoryId t;
            task_timeBlock := task_timeBlock t;
            task_status := task_status t;
            task_completedAt := task_completedAt t;
            task_createdAt :=
              if js_truthy_num (task_createdAt t) then task_createdAt t
              else if js_truthy_num (task_completedAt t)
                   then task_completedAt t else Some now |}.
Proof.
  intros H. unfold migrateTaskData. rewrite nth_error_map, H. simpl.
  f_equal. destruct t as [i0 ti c b st ca cr].
  simpl. now destruct (js_truthy_num cr).
Qed.

Lemma js_truthy_num_Some (n : Z) : n <> 0 -> js_truthy_num (Some n) = true.
Proof. intros H. simpl. now apply negb_true_iff, Z.eqb_neq. Qed.

Lemma migrateTaskData_truthy (now : Z) (l : list Task) :
  now <> 0 ->
  Forall (fun t => js_truthy_num (task_createdAt t) = true)
         (migrateTaskData now l).
Proof.
  intros Hn. unfold migrateTaskData. apply Forall_forall. intros t' Hin.
  apply in_map_iff in Hin. destruct Hin as [t [<- _]].
  destruct (js_truthy_num (task_createdAt t)) eqn:E; simpl; [exact E |].
  destruct (js_truthy_num (task_completedAt t)) eqn:E'; [exact E' |].
  now apply js_truthy_num_Some.
Qed.

Lemma migrateTaskData_fixed (now : Z) (l : list Task) :
  Forall (fun t => js_truthy_num (task_createdAt t) = true) l ->
  migrateTaskData now l = l.
Proof.
  intros H. unfold migrateTaskData. rewrite <- (map_id l) at 2.
  apply map_ext_in. intros t Ht. rewrite Forall_forall in H.
  now rewrite (H t Ht).
Qed.

(** X5. The migration gives every stored task a createdAt and touches
    nothing else: a task keeps a truthy createdAt; without one it takes its
    completedAt, or the clock when that is falsy too; every other field,
    the number and the order of the tasks are kept. When the clock is not
    0, every task has a truthy createdAt afterwards, and migrating again,
    at any time, changes nothing. *)
Theorem migrateTaskData_spec (now : Z) (l : list Task) :
  length (migrateTaskData now l) = length l
  /\ (forall i t, nth_error l i = Some t ->
        nth_error (migrateTaskData now l) i
        = Some {| task_id := task_id t;
                  task_title := task_title t;
                  task_categoryId := task_categoryId t;
                  task_timeBlock := task_timeBlock t;
                  task_status := task_status t;
                  task_completedAt := task_completedAt t;
                  task_createdAt :=
                    if js_truthy_num (task_createdAt t) then task_createdAt t
                    else if js_truthy_num (task_completedAt t)
                         then task_completedAt t else Some now |})
  /\ (now <> 0 ->
      Forall (fun t => js_truthy_num (task_createdAt t) = true)
             (migrateTaskData now l)
      /\ (forall later, migrateTaskData later (migrateTaskData now l)
                        = migrateTaskData now l)).
Proof.
  split; [apply length_map |].
  split; [apply migrateTaskData_nth |].
  intros Hn. split; [now apply migrateTaskData_truthy |].
  intros later. apply migrateTaskData_fixed. now apply migrateTaskData_truthy.
Qed.

Lemma migrateTaskData_spec_witness :
  migrateTaskData 900
    [mkTask "1" "latte" "cat1" morning completed (Some 700) None;
     mkTask "2" "mocha" "cat1" evening active None None;
     mkTask "3" "scone" "cat2" evening active None (Some 5)]
  = [mkTask "1" "latte" "cat1" morning completed (Some 700) (Some 700);
     mkTask "2" "mocha" "cat1" evening active None (Some 900);
     mkTask "3" "scone" "cat2" evening active None (Some 5)]
  /\ Forall (fun t => js_truthy_num (task_createdAt t) = true)
       (migrateTaskData 900
          [mkTask "1" "latte" "cat1" morning completed (Some 700) None;
           mkTask "2" "mocha" "cat1" evening active None None;
           mkTask "3" "scone" "cat2" evening active None (Some 5)]).
Proof.
  split; [reflexivity |].
  refine (proj1 (proj2 (proj2 (migrateTaskData_spec 900
           [mkTask "1" "latte" "cat1" morning completed (Some 700) None;
            mkTask "2" "mocha" "cat1" evening active None None;
            mkTask "3" "scone" "cat2" evening active None (Some 5)])) _)).
  discriminate.
Defined.








(** ** Creating and deleting *)

Lemma filter_other_ids {A : Type} (f : A -> string) (id : string)
      (l : list A) :
  ~ In id (map f l) ->
  filter (fun x => negb (String.eqb (f x) id)) l = l.
Proof.
  intros H. apply filter_all. intros x Hx. apply negb_true_iff.
  apply String.eqb_neq. intros E. apply H. apply in_map_iff. eauto.
Qed.

(** X8. Deleting what was just created: a delete by the id a create
    operation produced gives the state a delete of that id gives without
    the create, so it also removes every older item that had the same id;
    when the id was new, the state is exactly the one before the create. *)
Theorem delete_after_create (s : AppState) (n n' : Z) :
  (forall title c b,
      handleDeleteTask (Z_toString n) (handleAddTask n n' title c b s)
      = handleDeleteTask (Z_toString n) s
      /\ (~ In (Z_toString n) (map task_id (tasks s)) ->
          handleDeleteTask (Z_toString n) (handleAddTask n n' title c b s)
          = s))
  /\ (forall label th icon,
        handleDeleteCategory (Z_toString n)
          (handleAddCategory n label th icon s)
        = handleDeleteCategory (Z_toString n) s
        /\ (~ In (Z_toString n) (map cat_id (categories s)) ->
            handleDeleteCategory (Z_toString n)
              (handleAddCategory n label th icon s) = s))
  /\ (forall content r,
        handleDeleteNote (Z_toString n) (handleAddNote n n' content r s)
        = handleDeleteNote (Z_toString n) s
        /\ (~ In (Z_toString n) (map note_id (quickNotes s)) ->
            handleDeleteNote (Z_toString n) (handleAddNote n n' content r s)
            = s)).
Proof.
  destruct s as [cs ts ns].
  unfold handleDeleteTask, handleAddTask, handleDeleteCategory,
    handleAddCategory, handleDeleteNote, handleAddNote, setTasks,
    setCategories, setQuickNotes. simpl.
  split; [| split]; intros; (split; [| intros Hf]).
  - rewrite filter_app. simpl. now rewrite String.eqb_refl, app_nil_r.
  - rewrite filter_app. simpl. rewrite String.eqb_refl, app_nil_r.
    simpl. now rewrite (filter_other_ids task_id _ ts Hf).
  - rewrite filter_app. simpl. now rewrite String.eqb_refl, app_nil_r.
  - rewrite filter_app. simpl. rewrite String.eqb_refl, app_nil_r.
    simpl. now rewrite (filter_other_ids cat_id _ cs Hf).
  - now rewrite String.eqb_refl.
  - rewrite String.eqb_refl. simpl.
    now rewrite (filter_other_ids note_id _ ns Hf).
Qed.

Lemma delete_after_create_witness :
  handleDeleteTask (Z_toString 1704196800000)
    (handleAddTask 1704196800000 1704196800001 "latte" "cat1" morning
       seededState)
  = seededState.
Proof.
  apply (proj1 (delete_after_create seededState 1704196800000
                  1704196800001)).
  simpl. tauto.
Defined.

(** ** Looking a category up *)

Lemma getCategory_app (l1 l2 : list Category) (id : string) :
  getCategory (l1 ++ l2) id
  = match getCategory l1 id with
    | Some c => Some c
    | None => getCategory l2 id
    end.
Proof.
  unfold getCategory. induction l1 as [| c r IH]; simpl; [reflexivity |].
  now destruct (String.eqb (cat_id c) id).
Qed.

(** X9. Looking a category up after a category operation. After an
    update of an id the lookup of that id gives the first category of that
    id with the new label, theme and icon (nothing when there is none),
    and every other lookup is as before. After a delete the id is not found
    and every other lookup is as before. After a create the new category is
    found under its id only if that id was not in use: an older category
    with the same id keeps answering. *)
Theorem getCategory_after (s : AppState) (id : string) :
  (forall label th icon,
      getCategory (categories (handleUpdateCategory id label th icon s)) id
      = match getCategory (categories s) id with
        | Some c => Some (mkCategory (cat_id c) label icon th)
        | None => None
        end
      /\ forall id', id' <> id ->
           getCategory (categories (handleUpdateCategory id label th icon s))
                       id'
           = getCategory (categories s) id')
  /\ (getCategory (categories (handleDeleteCategory id s)) id = None
      /\ forall id', id' <> id ->
           getCategory (categories (handleDeleteCategory id s)) id'
           = getCategory (categories s) id')
  /\ (forall n label th icon id',
        getCategory (categories (handleAddCategory n label th icon s)) id'
        = match getCategory (categories s) id' with
          | Some c => Some c
          | None =>
              if String.eqb (Z_toString n) id'
              then Some (mkCategory (Z_toString n) label icon th)
              else None
          end).
Proof.
  destruct s as [cs ts ns]. simpl. split; [| split].
  - intros label th icon. split.
    + unfold getCategory. induction cs as [| c r IH]; simpl; [reflexivity |].
      destruct (String.eqb (cat_id c) id) eqn:E; simpl; rewrite E;
        [reflexivity | exact IH].
    + intros id' Hne. unfold getCategory.
      induction cs as [| c r IH]; simpl; [reflexivity |].
      destruct (String.eqb_spec (cat_id c) id) as [E|E]; simpl.
      * subst. destruct (String.eqb_spec (cat_id c) id'); [congruence |].
        exact IH.
      * destruct (String.eqb (cat_id c) id'); [reflexivity | exact IH].
  - split.
    + apply getCategory_None.
      apply (handleDeleteCategory_no_id id (mkState cs ts ns)).
    + intros id' Hne. unfold getCategory.
      induction cs as [| c r IH]; simpl; [reflexivity |].
      destruct (String.eqb_spec (cat_id c) id) as [E|E]; simpl.
      * subst. destruct (String.eqb_spec (cat_id c) id'); [congruence |].
        exact IH.
      * destruct (String.eqb (cat_id c) id'); [reflexivity | exact IH].
  - intros n label th icon id'. rewrite getCategory_app.
    destruct (getCategory cs id'); [reflexivity |].
    unfold getCategory. simpl. now destruct (String.eqb (Z_toString n) id').
Qed.

Lemma getCategory_after_witness :
  getCategory
    (categories (handleUpdateCategory "cat1" "tea" sky "T" seededState))
    "cat2"
  = getCategory (categories seededState) "cat2"
  /\ getCategory (categories (handleDeleteCategory "cat1" seededState))
       "cat2"
     = getCategory (categories seededState) "cat2".
Proof.
  destruct (getCategory_after seededState "cat1") as [H1 [[_ H2] _]].
  split.
  - apply (proj2 (H1 "tea" sky "T")). discriminate.
  - apply H2. discriminate.
Defined.

(** ** The JSON import and the validation of a backup *)

Lemma js_isArray_truthy (v : option json) :
  js_isArray v = true -> js_truthy v = true.
Proof. destruct v as [[| | | | |] |]; simpl; congruence. Qed.

Lemma invalid_collection_false (key : string) (data : json) :
  invalid_collection key data = false <-> js_isArray (js_get key data) = true.
Proof.
  unfold invalid_collection. split.
  - intros H. apply orb_false_iff in H. destruct H as [_ H].
    now apply negb_false_iff in H.
  - intros H. now rewrite H, (js_isArray_truthy _ H).
Qed.

(** X10. What the JSON import makes of the outcome of [JSON.parse]. It
    resolves exactly when the text was parsed to a value whose categories,
    tasks and notes are arrays, and it resolves to the parsed value itself,
    with nothing added, removed or converted: what the arrays hold is not
    looked at, so an array that holds null is let through. When
    [JSON.parse] throws, or gives null, the import is rejected with that
    error; otherwise the first of categories, tasks, notes that is missing
    or not an array decides the message. *)
Theorem reader_onload_spec (parsed : option json) :
  (forall data,
      reader_onload parsed = Returned data <->
      parsed = Some data
      /\ js_isArray (js_get "categories" data) = true
      /\ js_isArray (js_get "tasks" data) = true
      /\ js_isArray (js_get "notes" data) = true)
  /\ (parsed = None -> reader_onload parsed = Threw "SyntaxError")
  /\ (parsed = Some JNull ->
      reader_onload parsed
      = Threw "TypeError: Cannot read properties of null")
  /\ (forall data,
        parsed = Some data -> data <> JNull ->
        (js_isArray (js_get "categories" data) = false ->
         reader_onload parsed
         = Threw "Invalid data format: missing or invalid categories")
        /\ (js_isArray (js_get "categories" data) = true ->
            js_isArray (js_get "tasks" data) = false ->
            reader_onload parsed
            = Threw "Invalid data format: missing or invalid tasks")
        /\ (js_isArray (js_get "categories" data) = true ->
            js_isArray (js_get "tasks" data) = true ->
            js_isArray (js_get "notes" data) = false ->
            reader_onload parsed
            = Threw "Invalid data format: missing or invalid notes"))
  /\ (forall cats tks nts,
        parsed = Some (JObj [("categories", JArr cats); ("tasks", JArr tks);
                             ("notes", JArr nts)]) ->
        reader_onload parsed
        = Returned (JObj [("categories", JArr cats); ("tasks", JArr tks);
                          ("notes", JArr nts)])).
Proof.
  unfold reader_onload.
  assert (Hinv : forall key data,
             js_isArray (js_get key data) = false ->
             invalid_collection key data = true).
  { intros key data H. unfold invalid_collection. rewrite H.
    apply orb_true_r. }
  split; [| split; [| split; [| split]]].
  - intros data. destruct parsed as [d |];
      [| split; [discriminate | intros [H _]; discriminate]].
    split.
    + intros H.
      destruct (invalid_collection "categories" d) eqn:E1;
        [destruct d; discriminate |].
      destruct (invalid_collection "tasks" d) eqn:E2;
        [destruct d; discriminate |].
      destruct (invalid_collection "notes" d) eqn:E3;
        [destruct d; discriminate |].
      apply invalid_collection_false in E1, E2, E3.
      destruct d; try discriminate; injection H as <-; auto.
    + intros [H [H1 [H2 H3]]]. injection H as ->.
      apply invalid_collection_false in H1 as E1.
      apply invalid_collection_false in H2 as E2.
      apply invalid_collection_false in H3 as E3.
      rewrite E1, E2, E3. destruct data; try reflexivity. discriminate.
  - intros ->. reflexivity.
  - intros ->. reflexivity.
  - intros data -> Hnn. split; [| split].
    + intros H. rewrite (Hinv _ _ H). destruct data; congruence.
    + intros H1 H2. apply invalid_collection_false in H1.
      rewrite H1, (Hinv _ _ H2). destruct data; congruence.
    + intros H1 H2 H3. apply invalid_collection_false in H1, H2.
      rewrite H1, H2, (Hinv _ _ H3). destruct data; congruence.
  - intros cats tks nts ->. reflexivity.
Qed.

(** A file whose tasks are the number 3 is rejected for its tasks; a file
    whose tasks are an array holding null is let through. *)
Lemma reader_onload_spec_witness :
  reader_onload (Some (JObj [("categories", JArr []); ("tasks", JNum 3)]))
  = Threw "Invalid data format: missing or invalid tasks"
  /\ reader_onload
       (Some (JObj [("categories", JArr []); ("tasks", JArr [JNull]);
                    ("notes", JArr [])]))
     = Returned (JObj [("categories", JArr []); ("tasks", JArr [JNull]);
                       ("notes", JArr [])]).
Proof.
  split.
  - destruct (reader_onload_spec
                (Some (JObj [("categories", JArr []); ("tasks", JNum 3)])))
      as [_ [_ [_ [H _]]]].
    apply (H (JObj [("categories", JArr []); ("tasks", JNum 3)]));
      [reflexivity | discriminate | reflexivity | reflexivity].
  - apply (proj2 (proj2 (proj2 (proj2
             (reader_onload_spec
                (Some (JObj [("categories", JArr []);
                             ("tasks", JArr [JNull]);
                             ("notes", JArr [])]))))))).
    reflexivity.
Defined.

Lemma structuralErrors_pushed (data : ExportData) :
  pushIf (negb (field_truthy (exp_notes data))
          || negb (Array_isArray (exp_notes data)))
    "Missing or invalid notes"
    (pushIf (negb (field_truthy (exp_tasks data))
             || negb (Array_isArray (exp_tasks data)))
       "Missing or invalid tasks"
       (pushIf (negb (field_truthy (exp_categories data))
                || negb (Array_isArray (exp_categories data)))
          "Missing or invalid categories" []))
  = structuralErrors data.
Proof.
  unfold structuralErrors.
  destruct (exp_categories data) as [| [] |];
    destruct (exp_tasks data) as [| [] |];
    destruct (exp_notes data) as [| [] |]; reflexivity.
Qed.

(** X11. When import validation returns, its error list is the entries
    for the collections that are missing or not arrays, in the order
    categories, tasks, notes, followed by the entries for the tasks, in the
    order of the tasks: one entry for each collection at fault and, when
    tasks and categories are arrays (of records: on a null entry
    validation throws), one entry for each task whose categoryId is not a
    supplied id, carrying the 1-based position of the task and that
    categoryId, and no other entry. The payload is valid exactly when the
    list is empty. *)
Theorem validateImportData_error_list (data : ExportData) :
  validation_throws data = false ->
  exists perTask,
    validateImportData data
    = Returned {| valid := (length (structuralErrors data ++ perTask)
                            =? 0)%nat;
                  errors := structuralErrors data ++ perTask |}
    /\ (forall cs ts,
          exp_categories data = arrayOf cs -> exp_tasks data = arrayOf ts ->
          perTask = danglingErrors (map cat_id cs) 0 ts)
    /\ (Array_isArray (exp_categories data)
        && Array_isArray (exp_tasks data) = false ->
        perTask = [])
    /\ (forall e, In e perTask <->
          exists cs ts i t,
            exp_categories data = arrayOf cs /\ exp_tasks data = arrayOf ts
            /\ nth_error ts i = Some t
            /\ ~ In (task_categoryId t) (map cat_id cs)
            /\ e = taskError i (task_categoryId t)).
Proof.
  intros Hth.
  destruct (validateImportData_returns data Hth)
    as [[Hf E] | [cs [ts [Hc [Ht E]]]]]; cbv zeta in E;
    rewrite structuralErrors_pushed in E.
  - exists []. rewrite app_nil_r. split; [exact E |].
    assert (Hno : forall cs ts,
               exp_categories data = arrayOf cs ->
               exp_tasks data = arrayOf ts -> False).
    { intros cs ts Hc Ht. rewrite Hc, Ht in Hf. discriminate. }
    split; [intros cs ts Hc Ht; destruct (Hno cs ts Hc Ht) |].
    split; [reflexivity |].
    intros e. split; [intros [] |].
    intros [cs [ts [i [t [Hc [Ht _]]]]]]. destruct (Hno cs ts Hc Ht).
  - exists (danglingErrors (map cat_id cs) 0 ts). split; [exact E |].
    split; [| split].
    + intros cs' ts' Hc' Ht'. rewrite Hc in Hc'. rewrite Ht in Ht'.
      apply arrayOf_inj in Hc'. apply arrayOf_inj in Ht'. now subst.
    + rewrite Hc, Ht. discriminate.
    + intros e. split.
      * intros He. exists cs, ts.
        apply danglingErrors_entry in He.
        destruct He as [i [t [Hn [Hd ->]]]]. exists i, t. auto.
      * intros [cs' [ts' [i [t [Hc' [Ht' [Hn [Hd ->]]]]]]]].
        rewrite Hc in Hc'. rewrite Ht in Ht'.
        apply arrayOf_inj in Hc'. apply arrayOf_inj in Ht'. subst cs' ts'.
        apply (danglingErrors_In (map cat_id cs) 0 i ts t Hn Hd).
Qed.

(** The notes are missing and the second task names an unknown category:
    the entry for the notes comes first, then the entry for task 2. *)
Lemma validateImportData_error_list_witness :
  validateImportData
    (mkExportData "1.0" "2024-01-02T12:00:00.000Z"
       (arrayOf DEFAULT_CATEGORIES)
       (arrayOf
          [mkTask "1" "latte" "cat1" morning active None (Some 1);
           mkTask "2" "mocha" "cat9" evening active None (Some 2)])
       Missing)
  = Returned {| valid := false;
                errors := ["Missing or invalid notes";
                           taskError 1 "cat9"] |}.
Proof.
  destruct (validateImportData_error_list
              (mkExportData "1.0" "2024-01-02T12:00:00.000Z"
                 (arrayOf DEFAULT_CATEGORIES)
                 (arrayOf
                    [mkTask "1" "latte" "cat1" morning active None (Some 1);
                     mkTask "2" "mocha" "cat9" evening active None (Some 2)])
                 Missing) eq_refl) as [pt [E [H _]]].
  rewrite E.
  rewrite (H DEFAULT_CATEGORIES
             [mkTask "1" "latte" "cat1" morning active None (Some 1);
              mkTask "2" "mocha" "cat9" evening active None (Some 2)]
             eq_refl eq_refl).
  reflexivity.
Defined.

(** X12. The backup of a board passes import validation exactly when
    every task resolves to a category, that is when no card is shown as a
    special order; validation never throws on a backup. So after a category
    that a task uses is deleted, the backup of the board is rejected by the
    application's own import, with an entry for that task. *)
Theorem backup_valid_iff_no_orphan (isoNow : string) (s : AppState) :
  exists errs,
    validateImportData (backupOf isoNow s)
    = Returned {| valid := (length errs =? 0)%nat; errors := errs |}
    /\ ((length errs =? 0)%nat = true <->
        forall t, In t (tasks s) -> isSpecial (renderTask s t) = false)
    /\ (forall id i t,
          nth_error (tasks s) i = Some t ->
          task_categoryId t = id ->
          exists errs',
            validateImportData (backupOf isoNow (handleDeleteCategory id s))
            = Returned {| valid := false; errors := errs' |}
            /\ In (taskError i id) errs').
Proof.
  assert (G : forall s',
             validateImportData (backupOf isoNow s')
             = Returned
                 {| valid := (length (danglingErrors
                                        (map cat_id (categories s'))
                                        0 (tasks s')) =? 0)%nat;
                    errors := danglingErrors (map cat_id (categories s')) 0
                                (tasks s') |}).
  { intros s'. unfold validateImportData, backupOf, arrayOf.
    cbn [exp_categories exp_tasks exp_notes field_truthy Array_isArray
         negb orb andb pushIf].
    now rewrite categoryIds_records, taskErrors_records. }
  eexists. split; [apply G |]. split.
  - rewrite Nat.eqb_eq, length_zero_iff_nil, danglingErrors_nil.
    split; intros H t Ht; specialize (H t Ht).
    + unfold renderTask.
      destruct (getCategory (categories s) (task_categoryId t)) eqn:E;
        [reflexivity |].
      apply getCategory_None in E. contradiction.
    + unfold renderTask in H.
      destruct (in_dec string_dec (task_categoryId t)
                  (map cat_id (categories s))) as [I|I]; [exact I |].
      apply getCategory_None in I. rewrite I in H. discriminate.
  - intros id i t Hn Hid. eexists. rewrite G.
    assert (Hin : In (taskError i id)
                     (danglingErrors
                        (map cat_id (categories (handleDeleteCategory id s)))
                        0 (tasks (handleDeleteCategory id s)))).
    { rewrite <- Hid.
      apply (danglingErrors_In _ 0 i (tasks s) t Hn).
      rewrite Hid. apply handleDeleteCategory_no_id. }
    split; [| exact Hin].
    f_equal. f_equal.
    destruct (danglingErrors _ 0 (tasks (handleDeleteCategory id s)));
      [destruct Hin | reflexivity].
Qed.

Lemma backup_valid_iff_no_orphan_witness :
  exists errs',
    validateImportData
      (backupOf "2024-01-02T12:00:00.000Z"
         (handleDeleteCategory "cat1"
            (mkState DEFAULT_CATEGORIES
               [mkTask "5" "latte" "cat1" morning active None (Some 5)] [])))
    = Returned {| valid := false; errors := errs' |}
    /\ In (taskError 0 "cat1") errs'.
Proof.
  destruct (backup_valid_iff_no_orphan "2024-01-02T12:00:00.000Z"
              (mkState DEFAULT_CATEGORIES
                 [mkTask "5" "latte" "cat1" morning active None (Some 5)]
                 [])) as [errs [_ [_ H]]].
  apply (H "cat1" 0%nat
           (mkTask "5" "latte" "cat1" morning active None (Some 5))
           eq_refl eq_refl).
Defined.

(** ** The CSV export *)

Lemma string_app_assoc (a b c : string) :
  ((a ++ b) ++ c = a ++ (b ++ c))%string.
Proof. induction a as [| x r IH]; simpl; [reflexivity | now rewrite IH]. Qed.

Lemma string_app_nil_r (a : string) : (a ++ EmptyString)%string = a.
Proof. induction a as [| x r IH]; simpl; [reflexivity | now rewrite IH]. Qed.

Lemma concat_empty_cons (a : string) (l : list string) :
  String.concat EmptyString (a :: l)
  = (a ++ String.concat EmptyString l)%string.
Proof.
  destruct l as [| b r]; [simpl; now rewrite string_app_nil_r |].
  reflexivity.
Qed.

Lemma concat_lines (sep x : string) (l : list string) :
  String.concat sep (x :: l)
  = (x ++ String.concat EmptyString (map (fun y => sep ++ y) l))%string.
Proof.
  revert x. induction l as [| y r IH]; intros x.
  - simpl. now rewrite string_app_nil_r.
  - change (String.concat sep (x :: y :: r))
      with (x ++ sep ++ String.concat sep (y :: r))%string.
    rewrite IH. cbn [map]. rewrite concat_empty_cons.
    now rewrite string_app_assoc.
Qed.

(** X13. The CSV file is the byte order mark, the header line, and then
    one line for each task of the list, hidden or not, in the order of the
    list, each line the five cells of the task between double quotes and
    separated by commas. The category cell of a task whose category was
    deleted is 'Unknown', and the date cell of a task without a truthy
    completedAt is '-'. No cell is escaped, so the file does not determine
    the tasks: two different task lists can give the same file. *)
Theorem exportTasksAsCSV_spec (toLocaleString : Z -> string)
        (isoNow : string) (ts : list Task) (cats : list Category) :
  download_content (exportTasksAsCSV toLocaleString isoNow ts cats)
  = (BOM ++ csvLine csvHeaders
     ++ String.concat EmptyString
          (map (fun t => String LF EmptyString
                         ++ csvLine (csvRow toLocaleString cats t)) ts))%string
  /\ (forall t,
        csvLine (csvRow toLocaleString cats t)
        = (dquote ++ task_title t ++ dquote ++ ","
           ++ dquote ++ getCategoryLabel cats (task_categoryId t) ++ dquote
           ++ "," ++ dquote ++ timeBlockLabels (task_timeBlock t) ++ dquote
           ++ "," ++ dquote
           ++ (if isCompleted t then "已完成" else "进行中")
           ++ dquote ++ "," ++ dquote
           ++ (if js_truthy_num (task_completedAt t)
               then toLocaleString (completedAt_or0 t) else "-")
           ++ dquote)%string)
  /\ (forall s id t, task_categoryId t = id ->
        getCategoryLabel (categories (handleDeleteCategory id s))
                         (task_categoryId t) = "Unknown")
  /\ (exists ts1 ts2,
         length ts1 <> length ts2
         /\ exportTasksAsCSV toLocaleString isoNow ts1 []
            = exportTasksAsCSV toLocaleString isoNow ts2 []).
Proof.
  split; [| split; [| split]].
  - unfold exportTasksAsCSV, csvText. cbn [download_content map].
    rewrite concat_lines, !map_map. reflexivity.
  - intros t. unfold csvLine, csvRow, isCompleted, completedAt_or0.
    cbn [map String.concat].
    rewrite !string_app_assoc.
    destruct (task_completedAt t) as [c |]; reflexivity.
  - intros s id t <-. unfold getCategoryLabel.
    replace (getCategory
               (categories (handleDeleteCategory (task_categoryId t) s))
               (task_categoryId t)) with (@None Category); [reflexivity |].
    symmetry. apply getCategory_None, handleDeleteCategory_no_id.
  - exists [mkTask "1"
              ("a" ++ dquote ++ "," ++ dquote ++ "Unknown" ++ dquote ++ ","
               ++ dquote ++ timeBlockLabels morning ++ dquote ++ ","
               ++ dquote ++ "进行中" ++ dquote ++ "," ++ dquote ++ "-"
               ++ dquote ++ String LF EmptyString ++ dquote ++ "b")%string
              "x" morning active None None],
      [mkTask "1" "a" "x" morning active None None;
       mkTask "2" "b" "x" morning active None None].
    split; [discriminate | reflexivity].
Qed.

Lemma exportTasksAsCSV_spec_witness :
  getCategoryLabel
    (categories (handleDeleteCategory "cat1" seededState)) "cat1"
  = "Unknown"
  /\ getCategoryLabel (categories seededState) "cat1" = "默认分区1".
Proof.
  split; [| reflexivity].
  destruct (exportTasksAsCSV_spec (fun _ => "-") "2024-01-02T12:00:00.000Z"
              [] []) as [_ [_ [H _]]].
  apply (H seededState "cat1"
           (mkTask "5" "latte" "cat1" morning active None (Some 5))).
  reflexivity.
Defined.

(** ** The archive *)

Lemma insertBy_Permutation {A : Type} (cmp : A -> A -> Z) (x : A)
      (l : list A) :
  Permutation (x :: l) (insertBy cmp x l).
Proof.
  induction l as [| y r IH]; simpl; [apply Permutation_refl |].
  destruct (cmp x y <=? 0); [apply Permutation_refl |].
  eapply perm_trans; [apply perm_swap |]. now apply perm_skip.
Qed.

Lemma Array_sort_Permutation {A : Type} (cmp : A -> A -> Z) (l : list A) :
  Permutation l (Array_sort cmp l).
Proof.
  induction l as [| x r IH]; simpl; [apply perm_nil |].
  eapply perm_trans; [| apply insertBy_Permutation]. now apply perm_skip.
Qed.

(** Sorting by a key, largest first. *)
Lemma insertBy_key_sorted {A : Type} (key : A -> Z) (x : A) (l : list A) :
  StronglySorted (fun a b => key b <= key a) l ->
  StronglySorted (fun a b => key b <= key a)
                 (insertBy (fun a b => key b - key a) x l).
Proof.
  induction 1 as [| y r Hr IH Hy]; simpl.
  - repeat constructor.
  - destruct (Z.leb_spec (key y - key x) 0) as [L|L].
    + constructor; [now constructor |].
      constructor; [lia |].
      rewrite Forall_forall in *. intros z Hz. specialize (Hy z Hz). lia.
    + constructor; [exact IH |].
      rewrite Forall_forall in *. intros z Hz.
      apply (Permutation_in z (Permutation_sym
                                 (insertBy_Permutation _ x r))) in Hz.
      destruct Hz as [<- | Hz]; [lia | auto].
Qed.

Lemma Array_sort_key_sorted {A : Type} (key : A -> Z) (l : list A) :
  StronglySorted (fun a b => key b <= key a)
                 (Array_sort (fun a b => key b - key a) l).
Proof.
  induction l as [| x r IH]; simpl; [constructor |].
  now apply insertBy_key_sorted.
Qed.

Lemma shouldHideTask_completed (now tz : Z) (t : Task) :
  shouldHideTask now tz t = true -> isCompleted t = true.
Proof.
  intros H. apply shouldHideTask_true in H. destruct H as [H _].
  unfold isCompleted. now rewrite H.
Qed.

(** X14. The archive lists exactly the completed tasks that pass the
    category filter, each once, latest completion first, a task without a
    completedAt counting as completed at 0. Under the filter 'all' it has as
    many entries as the header counts, and it holds every task the board
    hides. *)
Theorem historyCompletedTasks_spec (filterCatId : string) (ts : list Task) :
  Permutation
    (filter (fun t => isCompleted t
                      && (String.eqb filterCatId "all"
                          || String.eqb (task_categoryId t) filterCatId)) ts)
    (historyCompletedTasks filterCatId ts)
  /\ StronglySorted (fun a b => completedAt_or0 b <= completedAt_or0 a)
                    (historyCompletedTasks filterCatId ts)
  /\ (forall t, In t (historyCompletedTasks filterCatId ts) <->
                In t ts /\ task_status t = completed
                /\ (filterCatId = "all" \/ task_categoryId t = filterCatId))
  /\ (length (historyCompletedTasks filterCatId ts) <= historyTotal ts)%nat
  /\ length (historyCompletedTasks "all" ts) = historyTotal ts
  /\ (forall now tz t, In t ts -> shouldHideTask now tz t = true ->
        In t (historyCompletedTasks "all" ts)).
Proof.
  assert (HP : forall f,
             Permutation
               (filter (fun t => isCompleted t
                                 && (String.eqb f "all"
                                     || String.eqb (task_categoryId t) f)) ts)
               (historyCompletedTasks f ts)).
  { intros f. unfold historyCompletedTasks.
    rewrite <- filter_filter. apply Array_sort_Permutation. }
  assert (HI : forall f t,
             In t (historyCompletedTasks f ts) <->
             In t ts /\ task_status t = completed
             /\ (f = "all" \/ task_categoryId t = f)).
  { intros f t. split.
    - intros H. apply (Permutation_in t (Permutation_sym (HP f))) in H.
      apply filter_In in H. destruct H as [H1 H2].
      apply andb_true_iff in H2. destruct H2 as [H2 H3].
      apply TaskStatus_eqb_eq in H2. apply orb_true_iff in H3.
      rewrite !String.eqb_eq in H3. tauto.
    - intros [H1 [H2 H3]]. apply (Permutation_in t (HP f)).
      apply filter_In. split; [exact H1 |].
      apply andb_true_iff. split; [now apply TaskStatus_eqb_eq |].
      apply orb_true_iff. now rewrite !String.eqb_eq. }
  split; [apply HP |]. split; [apply Array_sort_key_sorted |].
  split; [apply HI |]. split; [| split].
  - rewrite <- (Permutation_length (HP filterCatId)).
    rewrite <- filter_filter. apply filter_length_le.
  - rewrite <- (Permutation_length (HP "all")). unfold historyTotal.
    f_equal. apply filter_ext. intros t. simpl. apply andb_true_r.
  - intros now tz t Ht Hh. apply HI. split; [exact Ht |].
    apply shouldHideTask_true in Hh. tauto.
Qed.

Lemma historyCompletedTasks_spec_witness :
  In (mkTask "1" "latte" "cat1" morning completed (Some 1704110400000) None)
     (historyCompletedTasks "all"
        [mkTask "3" "scone" "cat2" evening active None None;
         mkTask "1" "latte" "cat1" morning completed (Some 1704110400000)
           None]).
Proof.
  destruct (historyCompletedTasks_spec "all"
              [mkTask "3" "scone" "cat2" evening active None None;
               mkTask "1" "latte" "cat1" morning completed
                 (Some 1704110400000) None]) as [_ [_ [_ [_ [_ H]]]]].
  apply (H 1704196800000 (-480)); [right; left; reflexivity | reflexivity].
Defined.

(** A local midnight, and the instants of the local day it begins. *)
Lemma setHours0_bounds (tz x : Z) :
  setHours0 tz x <= x < setHours0 tz x + MS_PER_DAY.
Proof.
  unfold setHours0. cbv zeta.
  assert (H : 0 <= (x - tz * 60 * 1000) mod MS_PER_DAY < MS_PER_DAY)
    by (apply Z.mod_pos_bound; reflexivity).
  lia.
Qed.

Lemma setHours0_day (tz n c k : Z) :
  setHours0 tz c = setHours0 tz n + k * MS_PER_DAY <->
  setHours0 tz n + k * MS_PER_DAY <= c
  < setHours0 tz n + k * MS_PER_DAY + MS_PER_DAY.
Proof.
  split.
  - intros <-. apply setHours0_bounds.
  - intros H. unfold setHours0 in *. cbv zeta in *.
    set (o := tz * 60 * 1000) in *.
    pose proof (Z_div_mod_eq_full (n - o) MS_PER_DAY) as En.
    set (q := (n - o) / MS_PER_DAY) in *.
    set (rn := (n - o) mod MS_PER_DAY) in *.
    assert (Er : c - o - MS_PER_DAY * (q + k) = (c - o) mod MS_PER_DAY).
    { apply (Z.mod_unique_pos _ _ (q + k)); lia. }
    lia.
Qed.

(** X15. The group title of a completion, on a host at a fixed offset: a
    falsy timestamp is filed under 'unknown time'; any other timestamp is
    filed under today exactly when it lies in the current local day, under
    yesterday exactly when it lies in the local day before, and under its
    date otherwise. On a host at UTC+8 a completed task that the board
    still shows and that is not stamped in a later day is filed under
    today. *)
Theorem getGroupTitle_spec (now tz : Z) (dateLabel : Z -> string) :
  (forall ts, js_truthy_num ts = false ->
              getGroupTitle now tz dateLabel ts = "未知时间")
  /\ (forall c, c <> 0 ->
        (setHours0 tz now <= c < setHours0 tz now + MS_PER_DAY ->
         getGroupTitle now tz dateLabel (Some c) = "今日特供 🌟")
        /\ (setHours0 tz now - MS_PER_DAY <= c < setHours0 tz now ->
            getGroupTitle now tz dateLabel (Some c) = "昨日菜单 🌙")
        /\ (c < setHours0 tz now - MS_PER_DAY
            \/ setHours0 tz now + MS_PER_DAY <= c ->
            getGroupTitle now tz dateLabel (Some c) = dateLabel c))
  /\ (forall t c,
        tz = -480 ->
        task_status t = completed -> task_completedAt t = Some c ->
        c <> 0 -> c < setHours0 tz now + MS_PER_DAY ->
        shouldHideTask now tz t = false ->
        getGroupTitle now tz dateLabel (task_completedAt t)
        = "今日特供 🌟").
Proof.
  assert (Today : forall c, c <> 0 ->
            setHours0 tz now <= c < setHours0 tz now + MS_PER_DAY ->
            getGroupTitle now tz dateLabel (Some c) = "今日特供 🌟").
  { intros c Hc H. unfold getGroupTitle.
    rewrite (js_truthy_num_Some c Hc). cbv zeta. simpl negb. cbv iota.
    assert (E : setHours0 tz c = setHours0 tz now).
    { pose proof (proj2 (setHours0_day tz now c 0)) as G.
      rewrite Z.mul_0_l, Z.add_0_r in G. now apply G. }
    now rewrite E, Z.eqb_refl. }
  split; [| split].
  - intros ts H. unfold getGroupTitle. now rewrite H.
  - intros c Hc. split; [now apply Today |]. split.
    + intros H. unfold getGroupTitle.
      rewrite (js_truthy_num_Some c Hc). cbv zeta. simpl negb. cbv iota.
      assert (E : setHours0 tz c = setHours0 tz now - MS_PER_DAY).
      { pose proof (proj2 (setHours0_day tz now c (-1))) as G.
        replace (setHours0 tz now + -1 * MS_PER_DAY)
          with (setHours0 tz now - MS_PER_DAY) in G by lia.
        apply G. lia. }
      rewrite E, Z.eqb_refl.
      destruct (Z.eqb_spec (setHours0 tz now - MS_PER_DAY) (setHours0 tz now))
        as [E' | _]; [| reflexivity].
      unfold MS_PER_DAY in E'. lia.
    + intros H. unfold getGroupTitle.
      rewrite (js_truthy_num_Some c Hc). cbv zeta. simpl negb. cbv iota.
      pose proof (setHours0_bounds tz c) as B.
      destruct (Z.eqb_spec (setHours0 tz c) (setHours0 tz now)) as [E|_];
        [lia |].
      destruct (Z.eqb_spec (setHours0 tz c) (setHours0 tz now - MS_PER_DAY))
        as [E|_]; [lia | reflexivity].
  - intros t c -> Hst Hc Hn0 Hlt Hvis. rewrite Hc. apply Today; trivial.
    split; [| exact Hlt].
    destruct (Z.lt_ge_cases c (setHours0 (-480) now)) as [L | G];
      [| exact G].
    assert (Hh : shouldHideTask now (-480) t = true).
    { apply shouldHideTask_true. split; [exact Hst |].
      exists c. repeat split; trivial.
      unfold getBeijingTodayStart. cbv zeta.
      replace (now + (-8 * 60 - -480) * 60 * 1000) with now by lia.
      exact L. }
    congruence.
Qed.

Lemma getGroupTitle_spec_witness :
  getGroupTitle 1704196800000 (-480) (fun _ => "2024 / 1 / 2")
    (Some 1704139200000) = "今日特供 🌟"
  /\ getGroupTitle 1704196800000 (-480) (fun _ => "2024 / 1 / 1")
       (Some 1704110400000) = "昨日菜单 🌙".
Proof.
  destruct (getGroupTitle_spec 1704196800000 (-480)
              (fun _ => "2024 / 1 / 2")) as [_ [H _]].
  destruct (getGroupTitle_spec 1704196800000 (-480)
              (fun _ => "2024 / 1 / 1")) as [_ [H' _]].
  split.
  - apply (H 1704139200000); [discriminate |].
    split; [discriminate | reflexivity].
  - apply (H' 1704110400000); [discriminate |].
    split; [discriminate | reflexivity].
Defined.

(** ** Grouping the archive *)

Lemma groupOf_pushToGroup (title k : string) (t : Task)
      (groups : list (string * list Task)) :
  groupOf k (pushToGroup title t groups)
  = if String.eqb title k then groupOf k groups ++ [t]
    else groupOf k groups.
Proof.
  unfold groupOf. induction groups as [| [k' g] r IH]; simpl.
  - destruct (String.eqb title k); reflexivity.
  - destruct (String.eqb_spec k' title) as [E|E]; simpl.
    + subst k'. destruct (String.eqb title k); [reflexivity |].
      reflexivity.
    + destruct (String.eqb_spec k' k) as [E'|E']; simpl.
      * subst k'. destruct (String.eqb_spec title k); [congruence |].
        reflexivity.
      * exact IH.
Qed.

Lemma keys_pushToGroup (title : string) (t : Task)
      (groups : list (string * list Task)) :
  NoDup (map fst groups) ->
  NoDup (map fst (pushToGroup title t groups))
  /\ forall k, In k (map fst (pushToGroup title t groups)) <->
               k = title \/ In k (map fst groups).
Proof.
  induction groups as [| [k' g] r IH]; simpl; intros H.
  - split; [repeat constructor; intros [] | intros k; intuition].
  - inversion H as [| x l Hn Hr]; subst.
    destruct (String.eqb_spec k' title) as [E|E]; simpl.
    + split; [exact H |]. intros k. subst. intuition.
    + destruct (IH Hr) as [IH1 IH2]. split.
      * constructor; [| exact IH1]. rewrite IH2. intuition.
      * intros k. rewrite IH2. intuition.
Qed.

Lemma nonempty_pushToGroup (title : string) (t : Task)
      (groups : list (string * list Task)) :
  Forall (fun kg => snd kg <> []) groups ->
  Forall (fun kg => snd kg <> []) (pushToGroup title t groups).
Proof.
  induction 1 as [| [k' g] r Hg Hr IH]; simpl.
  - repeat constructor. discriminate.
  - destruct (String.eqb k' title).
    + constructor; [| exact Hr]. simpl. now destruct g.
    + constructor; assumption.
Qed.

Lemma concat_pushToGroup (title : string) (t : Task)
      (groups : list (string * list Task)) :
  Permutation (t :: concat (map snd groups))
              (concat (map snd (pushToGroup title t groups))).
Proof.
  induction groups as [| [k' g] r IH]; simpl.
  - apply Permutation_refl.
  - destruct (String.eqb k' title); simpl.
    + rewrite <- app_assoc. simpl. apply Permutation_middle.
    + eapply perm_trans; [apply Permutation_middle |].
      now apply Permutation_app_head.
Qed.

Lemma groupedTasks_fold (titleOf : Task -> string) (l : list Task) :
  forall acc,
    NoDup (map fst acc) ->
    Forall (fun kg => snd kg <> []) acc ->
    let r := fold_left (fun groups task =>
                          pushToGroup (titleOf task) task groups) l acc in
    NoDup (map fst r)
    /\ Forall (fun kg => snd kg <> []) r
    /\ (forall k, groupOf k r
                  = groupOf k acc
                    ++ filter (fun t => String.eqb (titleOf t) k) l)
    /\ Permutation (concat (map snd acc) ++ l) (concat (map snd r)).
Proof.
  induction l as [| t l' IH]; intros acc Hk Hne; simpl.
  - repeat split; trivial.
    + intros k. now rewrite app_nil_r.
    + rewrite app_nil_r. apply Permutation_refl.
  - destruct (keys_pushToGroup (titleOf t) t acc Hk) as [Hk' _].
    pose proof (nonempty_pushToGroup (titleOf t) t acc Hne) as Hne'.
    destruct (IH _ Hk' Hne') as [R1 [R2 [R3 R4]]].
    repeat split; trivial.
    + intros k. rewrite R3, groupOf_pushToGroup.
      destruct (String.eqb (titleOf t) k); [| reflexivity].
      now rewrite <- app_assoc.
    + eapply perm_trans; [| exact R4].
      eapply perm_trans; [apply Permutation_sym, Permutation_middle |].
      apply (Permutation_app_tail l' (concat_pushToGroup _ t acc)).
Qed.

Lemma groupOf_In (k : string) (g : list Task)
      (groups : list (string * list Task)) :
  NoDup (map fst groups) -> In (k, g) groups -> groupOf k groups = g.
Proof.
  unfold groupOf. induction groups as [| [k' g'] r IH]; simpl;
    intros Hn Hin; [destruct Hin |].
  inversion Hn as [| x l Hx Hr]; subst.
  destruct Hin as [E | Hin].
  - injection E as -> ->. now rewrite String.eqb_refl.
  - destruct (String.eqb_spec k' k) as [E|E]; [| now apply IH].
    subst. exfalso. apply Hx. apply in_map_iff. exists (k, g). auto.
Qed.

(** X16. Grouping loses and repeats nothing: the groups have distinct
    titles, none is empty, each group holds exactly the tasks of its title,
    in the order of the list that is grouped, and together the groups hold
    every task of the list once. *)
Theorem groupedTasks_spec (titleOf : Task -> string) (l : list Task) :
  let groups := groupedTasks titleOf l in
  NoDup (map fst groups)
  /\ (forall k, groupOf k groups
                = filter (fun t => String.eqb (titleOf t) k) l)
  /\ (forall k g, In (k, g) groups ->
                  g <> []
                  /\ g = filter (fun t => String.eqb (titleOf t) k) l)
  /\ (forall t, In t l -> In t (groupOf (titleOf t) groups))
  /\ Permutation l (concat (map snd groups)).
Proof.
  intros groups.
  destruct (groupedTasks_fold titleOf l [] (NoDup_nil _) (Forall_nil _))
    as [R1 [R2 [R3 R4]]].
  fold (groupedTasks titleOf l) in R1, R2, R3, R4. fold groups in R1, R2, R3, R4.
  simpl in R3, R4.
  split; [exact R1 |]. split; [exact R3 |]. split; [| split; [| exact R4]].
  - intros k g Hin. split.
    + rewrite Forall_forall in R2. apply (R2 (k, g) Hin).
    + rewrite <- R3. symmetry. now apply groupOf_In.
  - intros t Ht. rewrite R3. apply filter_In. split; [exact Ht |].
    apply String.eqb_refl.
Qed.

Lemma groupedTasks_spec_witness :
  groupedTasks (fun t => task_categoryId t)
    [mkTask "1" "latte" "cat1" morning completed (Some 9) None;
     mkTask "2" "mocha" "cat2" evening completed (Some 8) None;
     mkTask "3" "scone" "cat1" evening completed (Some 7) None]
  = [("cat1", [mkTask "1" "latte" "cat1" morning completed (Some 9) None;
               mkTask "3" "scone" "cat1" evening completed (Some 7) None]);
     ("cat2", [mkTask "2" "mocha" "cat2" evening completed (Some 8) None])]
  /\ In (mkTask "3" "scone" "cat1" evening completed (Some 7) None)
        (groupOf "cat1"
           (groupedTasks (fun t => task_categoryId t)
              [mkTask "1" "latte" "cat1" morning completed (Some 9) None;
               mkTask "2" "mocha" "cat2" evening completed (Some 8) None;
               mkTask "3" "scone" "cat1" evening completed (Some 7) None])).
Proof.
  split; [reflexivity |].
  destruct (groupedTasks_spec (fun t => task_categoryId t)
              [mkTask "1" "latte" "cat1" morning completed (Some 9) None;
               mkTask "2" "mocha" "cat2" evening completed (Some 8) None;
               mkTask "3" "scone" "cat1" evening completed (Some 7) None])
    as [_ [_ [_ [H _]]]].
  apply (H (mkTask "3" "scone" "cat1" evening completed (Some 7) None)).
  right. right. left. reflexivity.
Defined.

(** ** Statistics *)

Lemma completedIn_total (ts : list Task) :
  (completedIn morning ts + completedIn afternoon ts + completedIn evening ts
   = length (filter isCompleted ts))%nat.
Proof.
  unfold completedIn.
  pose proof (Permutation_length (lanes_Permutation (filter isCompleted ts)))
    as H.
  rewrite !length_app in H. lia.
Qed.

(** X17. The peak time is 'no data' exactly when no task is completed;
    otherwise it names a lane with the most completed tasks, the morning
    winning every tie and the afternoon a tie with the evening. *)
Theorem peakTime_spec (ts : list Task) :
  let m := completedIn morning ts in
  let a := completedIn afternoon ts in
  let e := completedIn evening ts in
  (peakTime ts = "暂无数据" <-> filter isCompleted ts = [])
  /\ (peakTime ts = "早高峰" <-> (0 < m /\ a <= m /\ e <= m)%nat)
  /\ (peakTime ts = "下午茶" <-> (m < a /\ e <= a)%nat)
  /\ (peakTime ts = "晚间档" <-> (m < e /\ a < e)%nat).
Proof.
  intros m a e. pose proof (completedIn_total ts) as Ht.
  fold m a e in Ht. rewrite <- length_zero_iff_nil, <- Ht.
  unfold peakTime. fold m a e. cbv zeta.
  repeat match goal with
         | |- context [Nat.eqb ?x ?y] => destruct (Nat.eqb_spec x y)
         | |- context [Nat.ltb ?x ?y] => destruct (Nat.ltb_spec x y)
         end; simpl;
    repeat split; try discriminate; intros; try reflexivity; lia.
Qed.

Lemma peakTime_spec_witness :
  peakTime [mkTask "1" "latte" "cat1" morning completed (Some 9) None;
            mkTask "2" "mocha" "cat2" evening completed (Some 8) None;
            mkTask "3" "scone" "cat1" evening active None None]
  = "早高峰".
Proof.
  apply (proj1 (proj2 (peakTime_spec
    [mkTask "1" "latte" "cat1" morning completed (Some 9) None;
     mkTask "2" "mocha" "cat2" evening completed (Some 8) None;
     mkTask "3" "scone" "cat1" evening active None None]))).
  vm_compute. repeat split; repeat constructor.
Defined.








(** ** The completion rate of the statistics view *)

Lemma Math_round_range (x : Q) :
  (0 <= x <= 100)%Q -> 0 <= Math_round x <= 100.
Proof.
  intros [H0 H100]. unfold Math_round. split.
  - change 0 with (Qfloor (0 + (1 # 2))). apply Qfloor_resp_le.
    apply Qplus_le_l. exact H0.
  - change 100 with (Qfloor (100 + (1 # 2))). apply Qfloor_resp_le.
    apply Qplus_le_l. exact H100.
Qed.

Lemma Math_round_Qeq (x y : Q) : (x == y)%Q -> Math_round x = Math_round y.
Proof. intros E. unfold Math_round. now rewrite E. Qed.

Lemma monotone_Qeq (fl : Q -> Q) :
  (forall x y, (x <= y)%Q -> (fl x <= fl y)%Q) ->
  forall x y, (x == y)%Q -> (fl x == fl y)%Q.
Proof.
  intros Hmono x y E. apply Qle_antisym; apply Hmono; rewrite E;
    apply Qle_refl.
Qed.

(** X19. The completion rate of the statistics view is a whole number
    between 0 and 100, for every rounding of the quotient and of the
    product that is monotone and leaves 0, 1 and 100 as they are: 0 when
    no task is completed (an empty board included), 100 when the board is
    not empty and every task is completed. It counts every task, also the
    ones the board hides; when the board hides none, it is the rounded
    value of the progress bar. *)
Theorem completionRate_spec (fl : Q -> Q) (ts : list Task) :
  (forall x y, (x <= y)%Q -> (fl x <= fl y)%Q) ->
  (fl 0 == 0)%Q -> (fl 1 == 1)%Q -> (fl 100 == 100)%Q ->
  0 <= completionRate fl ts <= 100
  /\ (filter isCompleted ts = [] -> completionRate fl ts = 0)
  /\ (ts <> [] -> filter isCompleted ts = ts -> completionRate fl ts = 100)
  /\ (forall now tz,
        visibleTasks now tz ts = ts ->
        completionRate fl ts = Math_round (calculateProgress fl now tz ts)).
Proof.
  intros Hmono H0 H1 H100.
  pose proof (monotone_Qeq fl Hmono) as Hcompat.
  unfold completionRate. cbv zeta.
  destruct ts as [| t r] eqn:E; [simpl | rewrite <- E].
  - repeat split; try lia; trivial.
    intros H. now contradiction H.
  - assert (Hl : length ts = S (length r)) by (now rewrite E).
    assert (Hpos : (0 <? length ts)%nat = true)
      by (rewrite Hl; reflexivity).
    rewrite Hpos.
    assert (Hn : ~ (inject_Z (Z.of_nat (length ts)) == 0)%Q).
    { rewrite Hl. unfold Qeq. simpl. lia. }
    split; [| split; [| split]].
    + apply Math_round_range. apply percentage_range; trivial.
      rewrite Hl. apply quotient_range. rewrite <- Hl.
      apply filter_length_le.
    + intros ->. cbn [length Z.of_nat].
      assert (Eq : (fl (fl (inject_Z 0 / inject_Z (Z.of_nat (length ts)))
                        * 100) == 0)%Q).
      { assert (Hq : (fl (inject_Z 0 / inject_Z (Z.of_nat (length ts)))
                      == 0)%Q).
        { apply Qeq_trans with (fl 0%Q); [| exact H0]. apply Hcompat.
          unfold Qdiv. apply Qmult_0_l. }
        apply Qeq_trans with (fl 0%Q); [| exact H0]. apply Hcompat.
        rewrite Hq. reflexivity. }
      rewrite (Math_round_Qeq _ _ Eq). reflexivity.
    + intros _ ->.
      assert (Eq : (fl (fl (inject_Z (Z.of_nat (length ts))
                            / inject_Z (Z.of_nat (length ts))) * 100)
                    == 100)%Q).
      { assert (Hq : (fl (inject_Z (Z.of_nat (length ts))
                          / inject_Z (Z.of_nat (length ts))) == 1)%Q).
        { apply Qeq_trans with (fl 1%Q); [| exact H1]. apply Hcompat.
          now apply Qmult_inv_r. }
        apply Qeq_trans with (fl 100%Q); [| exact H100]. apply Hcompat.
        rewrite Hq. reflexivity. }
      rewrite (Math_round_Qeq _ _ Eq). reflexivity.
    + intros now tz Hv. unfold calculateProgress. cbv zeta.
      rewrite Hv, Hl. reflexivity.
Qed.

(** With exact arithmetic: one task of three completed gives 33, two of
    three give 67. *)
Lemma completionRate_spec_witness :
  0 <= completionRate (fun q => q)
         [mkTask "1" "latte" "cat1" morning completed (Some 9) None;
          mkTask "2" "mocha" "cat1" evening active None None;
          mkTask "3" "scone" "cat2" evening active None None] <= 100
  /\ completionRate (fun q => q)
       [mkTask "1" "latte" "cat1" morning completed (Some 9) None;
        mkTask "2" "mocha" "cat1" evening active None None;
        mkTask "3" "scone" "cat2" evening active None None] = 33
  /\ completionRate (fun q => q)
       [mkTask "1" "latte" "cat1" morning completed (Some 9) None;
        mkTask "2" "mocha" "cat1" evening completed (Some 8) None;
        mkTask "3" "scone" "cat2" evening active None None] = 67.
Proof.
  split; [| split; reflexivity].
  refine (proj1 (completionRate_spec (fun q => q)
            [mkTask "1" "latte" "cat1" morning completed (Some 9) None;
             mkTask "2" "mocha" "cat1" evening active None None;
             mkTask "3" "scone" "cat2" evening active None None]
            _ (Qeq_refl 0) (Qeq_refl 1) (Qeq_refl 100))).
  intros x y H. exact H.
Defined.
